(** * The Bitcoin payment core of rad-crowdfunding

    A shallow embedding of the Convex backend that takes Bitcoin donations:
    the database mutations and queries ([convex/bitcoin/mutations.ts]), the
    exchange-rate oracle ([convex/bitcoin/exchange.ts]), the public actions
    ([convex/bitcoin/actions.ts]), the scheduled monitor
    ([convex/bitcoin/monitoring.ts]), the shared validators
    ([convex/types.ts], [convex/bitcoin/types.ts]) and the donation ledger
    ([convex/donation.ts]).

    Around this core the development also embeds the probe of the block
    explorers ([src/libs/bitcoin/blockchain-api.ts] and the two explorer
    checks of the monitor), the sanitizer of the audit log
    ([src/utils/logger.ts]), the PayPal order-to-capture mappings
    ([convex/paypal]) and the Stripe webhook ([convex/stripe/webhook.ts]).

    Conventions of the model.
    - A Convex table is the list of its documents in creation order; an
      index query followed by [.first()] is [find] on that list (an index
      orders equal keys by creation time).
    - A mutation is a transaction on the database: it returns the new
      database, or throws and leaves the database as it was.
    - An action is a sequence of transactions and calls to the outside
      world.  What the outside world answers (the clock, the rate limiter,
      the cached price, the blockchain explorers) is an input of the
      invocation; the calls that were made are recorded in a trace.  The
      clock is read once per invocation.  An invocation runs to its end
      before the next one starts: interleavings inside an action are not
      modelled.
    - The rate limiter and the price cache are components of the platform.
      Of the limiter the model keeps what the code uses: it is called, and
      the call returns (whatever it returns is discarded) or throws.
    - JavaScript numbers that hold money and prices are exact rationals
      ([Q]); timestamps in milliseconds, derivation indexes and
      confirmation counts are integers ([Z]).  Rounding, NaN and the
      infinities of IEEE doubles are outside the model.
    - Strings are sequences of bytes; the validators are read on ASCII. *)

From Stdlib Require Import ZArith QArith Qabs List String Ascii Bool Lia.
From Stdlib Require Import Permutation Sorted.
From Stdlib Require Import Lqa.
Import ListNotations.

Local Open Scope string_scope.
Local Open Scope list_scope.
Local Open Scope Z_scope.

(** ** Results of calls that may throw *)

Inductive Error : Type :=
| AmountTooSmall            (* Amount must be at least $1 *)
| AmountTooLarge            (* Amount must not exceed $100,000 *)
| PlayerNameTooLong
| PlayerNameBlank
| DisplayNameTooLong
| DisplayNameBlank
| MessageTooLong
| MessageBlank
| InvalidAddressPrefix
| InvalidAddressLength
| InvalidAddressCharacters
| InvalidBech32Characters
| AddressNotFound           (* Address not found in pending payments *)
| SessionDoesNotOwn         (* Session does not own this address *)
| SessionExpired            (* Payment session has expired *)
| PendingPaymentNotFound
| Underpayment              (* Underpayment detected: ... *)
| NoPriceFromAnyExchange    (* Failed to fetch BTC price from any exchange *)
| InvalidMedian             (* Invalid median calculation: ... *)
| RateLimited
| DerivationFailed
| FailedToGenerate (cause : Error)   (* Failed to generate Bitcoin address: ... *)
| FailedToCheck (cause : Error).     (* Failed to check Bitcoin payment: ... *)

Inductive Result (A : Type) : Type :=
| Ok (a : A)
| Throw (e : Error).
Arguments Ok {A} a.
Arguments Throw {A} e.

(** State and exceptions: a computation over a state [S] returns the new
    state and either a value or the error it threw. *)
Definition M (S A : Type) : Type := S -> S * Result A.

Definition ret {S A} (a : A) : M S A := fun s => (s, Ok a).
Definition throw {S A} (e : Error) : M S A := fun s => (s, Throw e).
Definition bind {S A B} (m : M S A) (k : A -> M S B) : M S B :=
  fun s => match m s with
           | (s', Ok a) => k a s'
           | (s', Throw e) => (s', Throw e)
           end.
Definition get {S} : M S S := fun s => (s, Ok s).
Definition modify {S} (f : S -> S) : M S unit := fun s => (f s, Ok tt).
(** [try { m } catch (error) { throw h error }] *)
Definition try_rethrow {S A} (m : M S A) (h : Error -> Error) : M S A :=
  fun s => match m s with
           | (s', Ok a) => (s', Ok a)
           | (s', Throw e) => (s', Throw (h e))
           end.
(** A validator returns or throws; it has no state. *)
Definition check {S} (r : Result unit) : M S unit := fun s => (s, r).

Declare Scope action_scope.
Delimit Scope action_scope with action.
Notation "x <- m ;; k" := (bind m (fun x => k))
  (at level 61, m at next level, right associativity) : action_scope.
Notation "m ;; k" := (bind m (fun _ => k))
  (at level 61, right associativity) : action_scope.

(** ** Data model ([convex/schema.ts]) *)

Inductive Network : Type := mainnet | testnet.
Inductive Status : Type := initialized | pending | confirmed | expired.
Inductive PaymentMethod : Type := stripe | paypal | bitcoin.

Definition Status_eqb (a b : Status) : bool :=
  match a, b with
  | initialized, initialized | pending, pending
  | confirmed, confirmed | expired, expired => true
  | _, _ => false
  end.

Module Metadata.
Record t : Type := mk {
  player_name : option string;      (* string | null *)
  use_player_name : bool;
  message : option string }.
End Metadata.

Module Donation.
Record t : Type := mk {
  _id : nat;
  amount : Q;
  payment_id : string;
  display_name : string;
  payment_method : PaymentMethod;
  message : option string }.
End Donation.

Module Pending.
Record t : Type := mk {
  _id : nat;
  session_id : string;
  address : string;
  expected_amount_btc : Q;
  expected_amount_usd : Q;
  exchange_rate : Q;
  derivation_index : Z;
  metadata : option Metadata.t;
  status : Status;
  txid : option string;
  detected_at : option Z;
  scheduled_job_id : option nat;
  created_at : Z;
  expires_at : Z }.

(** [ctx.db.patch(id, { status })] *)
Definition with_status (s : Status) (p : t) : t :=
  mk (_id p) (session_id p) (address p) (expected_amount_btc p)
     (expected_amount_usd p) (exchange_rate p) (derivation_index p)
     (metadata p) s (txid p) (detected_at p) (scheduled_job_id p)
     (created_at p) (expires_at p).

(** [ctx.db.patch(id, { txid, detected_at, status })] *)
Definition with_tx (tx : string) (at_ : Z) (s : Status) (p : t) : t :=
  mk (_id p) (session_id p) (address p) (expected_amount_btc p)
     (expected_amount_usd p) (exchange_rate p) (derivation_index p)
     (metadata p) s (Some tx) (Some at_) (scheduled_job_id p)
     (created_at p) (expires_at p).

(** [ctx.db.patch(id, { scheduled_job_id })] *)
Definition with_job (j : nat) (p : t) : t :=
  mk (_id p) (session_id p) (address p) (expected_amount_btc p)
     (expected_amount_usd p) (exchange_rate p) (derivation_index p)
     (metadata p) (status p) (txid p) (detected_at p) (Some j)
     (created_at p) (expires_at p).
End Pending.

(** [bitcoin_config]: [value: v.union(v.number(), v.string())] *)
Inductive ConfigValue : Type :=
| VNumber (n : Z)
| VString (s : string).

Module Config.
Record t : Type := mk {
  _id : nat;
  key : string;
  value : ConfigValue }.
End Config.

Record Db : Type := mkDb {
  donations : list Donation.t;
  pending_bitcoin_payments : list Pending.t;
  bitcoin_config : list Config.t;
  next_id : nat }.

Definition with_donations (f : list Donation.t -> list Donation.t) (d : Db) : Db :=
  mkDb (f (donations d)) (pending_bitcoin_payments d) (bitcoin_config d) (next_id d).
Definition with_pending (f : list Pending.t -> list Pending.t) (d : Db) : Db :=
  mkDb (donations d) (f (pending_bitcoin_payments d)) (bitcoin_config d) (next_id d).
Definition with_config (f : list Config.t -> list Config.t) (d : Db) : Db :=
  mkDb (donations d) (pending_bitcoin_payments d) (f (bitcoin_config d)) (next_id d).
Definition fresh_id (d : Db) : Db :=
  mkDb (donations d) (pending_bitcoin_payments d) (bitcoin_config d) (S (next_id d)).

Definition empty_db : Db := mkDb [] [] [] 0.

(** [ctx.db.patch(id, fields)] and [ctx.db.delete(id)] on the pending table. *)
Definition patch_pending (id : nat) (f : Pending.t -> Pending.t) : Db -> Db :=
  with_pending (map (fun p => if Nat.eqb (Pending._id p) id then f p else p)).
Definition delete_pending (id : nat) : Db -> Db :=
  with_pending (filter (fun p => negb (Nat.eqb (Pending._id p) id))).

(** ** Numbers and strings of the host language *)

(** [a < b] on numbers. *)
Definition Qlt_bool (a b : Q) : bool := negb (Qle_bool b a).

(** A string in a condition: [undefined], [null] and the empty string are
    falsy. *)
Definition truthy_string (s : option string) : bool :=
  match s with
  | Some s' => negb (String.eqb s' "")
  | None => false
  end.

(** A number in a condition: [undefined] and zero are falsy. *)
Definition truthy_number (n : option Q) : bool :=
  match n with
  | Some q => negb (Qeq_bool q 0)
  | None => false
  end.

Definition is_whitespace (c : ascii) : bool :=
  let n := nat_of_ascii c in
  (Nat.eqb n 32 || (Nat.leb 9 n && Nat.leb n 13))%bool.

Fixpoint all_chars (f : ascii -> bool) (s : string) : bool :=
  match s with
  | EmptyString => true
  | String c s' => f c && all_chars f s'
  end.

Fixpoint any_char (f : ascii -> bool) (s : string) : bool :=
  match s with
  | EmptyString => false
  | String c s' => f c || any_char f s'
  end.

(** [s.trim().length === 0] *)
Definition trim_is_empty (s : string) : bool := all_chars is_whitespace s.

(** [s.slice(n)] *)
Fixpoint slice (n : nat) (s : string) : string :=
  match n, s with
  | O, _ => s
  | S n', String _ s' => slice n' s'
  | S _, EmptyString => EmptyString
  end.

Definition strlen (s : string) : Z := Z.of_nat (String.length s).

(** ** Shared validators and constants ([convex/types.ts]) *)

Definition minDonationAmount : Q := 1.
Definition maxDonationAmount : Q := 100000.
Definition maxPlayerNameLength : Z := 50.
Definition maxDisplayNameLength : Z := 200.
Definition maxMessageLength : Z := 500.

Definition getDisplayName (metadata : option Metadata.t) (fallback : string) : string :=
  match metadata with
  | Some m =>
      if Metadata.use_player_name m && truthy_string (Metadata.player_name m)
      then match Metadata.player_name m with
           | Some n => n
           | None => fallback
           end
      else fallback
  | None => fallback
  end.

Definition validateDonationAmount (amount : Q) : Result unit :=
  if Qlt_bool amount minDonationAmount then Throw AmountTooSmall
  else if Qlt_bool maxDonationAmount amount then Throw AmountTooLarge
  else Ok tt.

Definition validatePlayerName (playerName : option string) : Result unit :=
  match playerName with
  | None => Ok tt
  | Some n =>
      if String.eqb n "" then Ok tt
      else if maxPlayerNameLength <? strlen n then Throw PlayerNameTooLong
      else if trim_is_empty n then Throw PlayerNameBlank
      else Ok tt
  end.

Definition validateDisplayName (displayName : string) : Result unit :=
  if maxDisplayNameLength <? strlen displayName then Throw DisplayNameTooLong
  else if trim_is_empty displayName then Throw DisplayNameBlank
  else Ok tt.

Definition validateMessage (message : option string) : Result unit :=
  match message with
  | None => Ok tt
  | Some m =>
      if String.eqb m "" then Ok tt
      else if maxMessageLength <? strlen m then Throw MessageTooLong
      else if trim_is_empty m then Throw MessageBlank
      else Ok tt
  end.

(** ** Bitcoin constants and the address shape check ([convex/bitcoin/types.ts]) *)

Definition satoshiToBtc : Q := 100000000.
Definition btcAmountTolerance : Q := 1 # 100000.

Definition bitcoinConfirmations (network : Network) : Z :=
  match network with
  | mainnet => 3
  | testnet => 6
  end.

(** [/^[a-z0-9]+$/] *)
Definition bech32Charset (s : string) : bool :=
  negb (String.eqb s "") &&
  all_chars (fun c => let n := nat_of_ascii c in
                      (Nat.leb 97 n && Nat.leb n 122) || (Nat.leb 48 n && Nat.leb n 57)) s.

(** [/[1bio]/] *)
Definition invalidBech32Chars (s : string) : bool :=
  any_char (fun c => Ascii.eqb c "1" || Ascii.eqb c "b" || Ascii.eqb c "i" || Ascii.eqb c "o") s.

Definition validateBitcoinAddress (address : string) (network : Network) : Result unit :=
  let prefix := match network with mainnet => "bc1" | testnet => "tb1" end in
  if negb (String.prefix prefix address) then Throw InvalidAddressPrefix
  else if (strlen address <? 42) || (90 <? strlen address) then Throw InvalidAddressLength
  else
    let addressBody := slice 3 address in
    if negb (bech32Charset addressBody) then Throw InvalidAddressCharacters
    else if invalidBech32Chars addressBody then Throw InvalidBech32Characters
    else Ok tt.

(** ** What the blockchain probe returns ([convex/bitcoin/types.ts]) *)

Module Probe.
(** [BlockchainPaymentResult] *)
Inductive result : Type :=
| api_failed
| no_payment
| pending (tx_hash : string) (amount_btc : Q) (confirmations : Z)
| paid (tx_hash : string) (amount_btc : Q) (confirmations : Z).
End Probe.

(** ** The blockchain explorers ([src/libs/bitcoin/blockchain-api.ts] and
    the checks of [convex/bitcoin/monitoring.ts]) *)

Module Explorer.

(** What one [fetchWithTimeout(url, timeoutMs)] comes to: the request throws
    (a network error, or the abort after [timeoutMs]), or a response arrives
    with its status code and its body.  A body is read at the type the code
    casts it to; it is [None] when reading it throws. *)
Inductive Fetch (A : Type) : Type :=
| Failed
| Response (status : Z) (body : option A).
Arguments Failed {A}.
Arguments Response {A} status body.

(** [response.ok] *)
Definition ok (status : Z) : bool := (200 <=? status) && (status <=? 299).

(** The response types of the explorers.  Amounts are in satoshis. *)
Record Stats : Type := mkStats {
  funded_txo_sum : Z;
  tx_count : Z }.

Record MempoolAddress : Type := mkMempoolAddress {
  chain_stats : Stats;
  mempool_stats : Stats }.

Record TransactionStatus : Type := mkTransactionStatus {
  confirmed : bool;
  block_height : option Z }.

Record Vout : Type := mkVout {
  scriptpubkey_address : option string;
  value : Z }.

Record MempoolTx : Type := mkMempoolTx {
  txid : string;
  status : TransactionStatus;
  vout : list Vout }.

Record BlockchainTx : Type := mkBlockchainTx {
  hash : string }.

Record BlockchainAddress : Type := mkBlockchainAddress {
  total_received : Z;
  txs : list BlockchainTx }.

Record TxData : Type := mkTxData {
  tx_status : TransactionStatus }.

(** The explorers as the backend reaches them: what each kind of request
    gets for the URL it asks.  The tip height is the text of the response
    as [Number.parseInt] reads it, a text it cannot read as a number being
    outside the model. *)
Record Web : Type := mkWeb {
  mempool_address : string -> Fetch MempoolAddress;
  mempool_txs : string -> Fetch (list MempoolTx);
  blockstream_address : string -> Fetch BlockchainAddress;
  blockstream_tx : string -> Fetch TxData;
  tip_height : string -> Fetch Z }.

(** The URLs requested so far. *)
Definition Requests : Type := list string.

Definition blockchainApiTimeoutMs : Z := 8000.

(** The request is made; whether it is answered within [timeoutMs] is the
    explorer's part. *)
Definition fetchWithTimeout {A} (endpoint : string -> Fetch A) (url : string) (timeoutMs : Z)
  : Requests -> Requests * Fetch A :=
  fun t => (t ++ [url], endpoint url).

(** The height of the chain tip; 0 when it cannot be had. *)
Definition getCurrentBlockHeight (web : Web) (baseUrl : string)
  : Requests -> Requests * Z := fun t =>
  match fetchWithTimeout (tip_height web) (baseUrl ++ "/blocks/tip/height")
          blockchainApiTimeoutMs t with
  | (t1, Failed) => (t1, 0)
  | (t1, Response status body) =>
      if negb (ok status) then (t1, 0)
      else match body with
           | Some height => (t1, height)
           | None => (t1, 0)
           end
  end.

Definition calculateConfirmations (currentHeight : Z) (blockHeight : option Z) : Z :=
  match blockHeight with
  | None => 0
  | Some h =>
      if (h =? 0) || (currentHeight =? 0) then 0
      else currentHeight - h + 1
  end.

(** [vout.scriptpubkey_address === address] *)
Definition pays_to (address : string) (o : Vout) : bool :=
  match scriptpubkey_address o with
  | Some a => String.eqb a address
  | None => false
  end.

(** Mempool.space, the primary explorer.  [None] is the [null] the check
    returns when the explorer gave no usable answer. *)
Definition checkMempoolSpace (web : Web) (address : string) (isTestnet : bool)
  : Requests -> Requests * option Probe.result := fun t =>
  let baseUrl := if isTestnet then "https://mempool.space/testnet4/api"
                 else "https://mempool.space/api" in
  match fetchWithTimeout (mempool_address web) (baseUrl ++ "/address/" ++ address)
          blockchainApiTimeoutMs t with
  | (t1, Failed) => (t1, None)
  | (t1, Response addressStatus addressBody) =>
      if negb (ok addressStatus) then
        (t1, if addressStatus =? 404 then Some Probe.no_payment else None)
      else
        match addressBody with
        | None => (t1, None)
        | Some addressData =>
            let confirmedAmount := funded_txo_sum (chain_stats addressData) in
            let mempoolAmount := funded_txo_sum (mempool_stats addressData) in
            let totalReceived := confirmedAmount + mempoolAmount in
            if totalReceived =? 0 then (t1, Some Probe.no_payment)
            else
              match fetchWithTimeout (mempool_txs web)
                      (baseUrl ++ "/address/" ++ address ++ "/txs")
                      blockchainApiTimeoutMs t1 with
              | (t2, Failed) => (t2, None)
              | (t2, Response txsStatus txsBody) =>
                  if negb (ok txsStatus) then (t2, None)
                  else
                    match txsBody with
                    | None => (t2, None)
                    | Some [] => (t2, Some Probe.no_payment)
                    | Some (latestTx :: _) =>
                        let (t3, currentHeight) := getCurrentBlockHeight web baseUrl t2 in
                        let confirmations :=
                          calculateConfirmations currentHeight
                            (block_height (status latestTx)) in
                        let receivedAmount :=
                          (inject_Z (fold_left (fun sum o => (sum + value o)%Z)
                                       (filter (pays_to address) (vout latestTx)) 0%Z)
                           / satoshiToBtc)%Q in
                        if confirmations =? 0
                        then (t3, Some (Probe.pending (txid latestTx) receivedAmount
                                                      confirmations))
                        else (t3, Some (Probe.paid (txid latestTx) receivedAmount
                                                   confirmations))
                    end
              end
        end
  end.

(** Blockstream.info, the fallback. *)
Definition checkBlockstream (web : Web) (address : string) (isTestnet : bool)
  : Requests -> Requests * option Probe.result := fun t =>
  let baseUrl := if isTestnet then "https://blockstream.info/testnet/api"
                 else "https://blockstream.info/api" in
  match fetchWithTimeout (blockstream_address web) (baseUrl ++ "/address/" ++ address)
          blockchainApiTimeoutMs t with
  | (t1, Failed) => (t1, None)
  | (t1, Response addressStatus addressBody) =>
      if negb (ok addressStatus) then
        (t1, if addressStatus =? 404 then Some Probe.no_payment else None)
      else
        match addressBody with
        | None => (t1, None)
        | Some data =>
            if total_received data =? 0 then (t1, Some Probe.no_payment)
            else
              match txs data with
              | [] => (t1, Some Probe.no_payment)
              | latestTx :: _ =>
                  let amount_btc := (inject_Z (total_received data) / satoshiToBtc)%Q in
                  match fetchWithTimeout (blockstream_tx web)
                          (baseUrl ++ "/tx/" ++ hash latestTx)
                          blockchainApiTimeoutMs t1 with
                  | (t2, Failed) => (t2, None)
                  | (t2, Response txStatus txBody) =>
                      if negb (ok txStatus)
                      then (t2, Some (Probe.pending (hash latestTx) amount_btc 0))
                      else
                        match txBody with
                        | None => (t2, None)
                        | Some txData =>
                            let (t3, currentHeight) :=
                              getCurrentBlockHeight web baseUrl t2 in
                            let confirmations :=
                              calculateConfirmations currentHeight
                                (block_height (tx_status txData)) in
                            if confirmations =? 0
                            then (t3, Some (Probe.pending (hash latestTx) amount_btc
                                                          confirmations))
                            else (t3, Some (Probe.paid (hash latestTx) amount_btc
                                                       confirmations))
                        end
                  end
              end
        end
  end.

(** The probe: Mempool.space, then on mainnet Blockstream.info. *)
Definition checkBlockchainPayment (network : Network) (web : Web) (address : string)
  : Requests -> Requests * Probe.result := fun t =>
  let isTestnet := match network with testnet => true | mainnet => false end in
  if isTestnet then
    match checkMempoolSpace web address true t with
    | (t1, Some testnet4Result) => (t1, testnet4Result)
    | (t1, None) => (t1, Probe.api_failed)
    end
  else
    match checkMempoolSpace web address false t with
    | (t1, Some mempoolResult) => (t1, mempoolResult)
    | (t1, None) =>
        match checkBlockstream web address false t1 with
        | (t2, Some blockstreamResult) => (t2, blockstreamResult)
        | (t2, None) => (t2, Probe.api_failed)
        end
    end.

End Explorer.

(** ** The audit log ([src/utils/logger.ts]) *)

Module Logger.

Definition sensitiveFields : list string :=
  [ (* authentication and secrets *)
    "password"; "token"; "secret"; "apiKey"; "api_key"; "webhook_secret";
    "client_secret";
    (* payment information *)
    "creditCard"; "credit_card"; "ssn";
    (* cryptographic keys *)
    "privateKey"; "private_key"; "master_key"; "masterKey"; "xprv"; "zprv";
    "tprv"; "vprv";
    (* Bitcoin-specific identifiers *)
    "session_id"; "sessionId"; "address"; "btc_address"; "bitcoin_address";
    "tx_hash"; "txHash"; "transaction_hash"; "transactionHash";
    "derivation_index"; "derivationIndex";
    (* payment processing ids *)
    "payment_id"; "paymentId"; "order_id"; "orderId"; "customer_id";
    "customerId";
    (* user-generated content *)
    "message" ].

(** An object as its own properties in insertion order. *)
Definition Object (V : Type) : Type := list (string * V).

(** [field in o] *)
Definition has_field {V} (field : string) (o : Object V) : bool :=
  existsb (fun kv => String.eqb (fst kv) field) o.

(** [delete o[field]] *)
Definition delete_field {V} (field : string) (o : Object V) : Object V :=
  filter (fun kv => negb (String.eqb (fst kv) field)) o.

Definition sanitizeForLogging {V} (data : Object V) : Object V :=
  fold_left (fun sanitized field =>
               if has_field field sanitized then delete_field field sanitized
               else sanitized)
            sensitiveFields data.

(** One line of the audit log. *)
Record AuditLine (V : Type) : Type := mkAuditLine {
  level : string;
  event : string;
  data : option (Object V);
  timestamp : Z }.
Arguments mkAuditLine {V} level event data timestamp.
Arguments level {V} a.
Arguments event {V} a.
Arguments data {V} a.
Arguments timestamp {V} a.

(** [logger.audit(event, data)] at time [now]. *)
Definition audit {V} (now : Z) (event : string) (data : option (Object V)) : AuditLine V :=
  mkAuditLine "audit" event
    (match data with
     | Some d => Some (sanitizeForLogging d)
     | None => None
     end)
    now.

End Logger.

(** ** The PayPal order-to-capture mappings ([convex/paypal/mutations.ts],
    [convex/paypal/queries.ts]) *)

Module Mapping.
Record t : Type := mk {
  _id : nat;
  _creationTime : Z;
  source_id : string;
  donation_payment_id : string }.
End Mapping.

Record MappingDb : Type := mkMappingDb {
  payment_id_mappings : list Mapping.t;
  next_mapping_id : nat }.

Definition by_source_id (order_id : string) (m : Mapping.t) : bool :=
  String.eqb (Mapping.source_id m) order_id.

(** Store order id -> capture id; the mapping already there wins.  Returns
    the identifier of the existing mapping, or nothing after an insertion. *)
Definition storePaymentIdMapping (now : Z) (order_id capture_id : string)
  : M MappingDb (option nat) := fun d =>
  match find (by_source_id order_id) (payment_id_mappings d) with
  | Some existing => (d, Ok (Some (Mapping._id existing)))
  | None =>
      (mkMappingDb (payment_id_mappings d ++
                      [Mapping.mk (next_mapping_id d) now order_id capture_id])
                   (S (next_mapping_id d)),
       Ok None)
  end.

(** [mapping?.donation_payment_id ?? null] *)
Definition getPaymentIdMapping (order_id : string) : M MappingDb (option string) := fun d =>
  (d, Ok match find (by_source_id order_id) (payment_id_mappings d) with
         | Some mapping => Some (Mapping.donation_payment_id mapping)
         | None => None
         end).

(** [ctx.db.delete(id)] on the mappings. *)
Definition delete_mapping (id : nat) (d : MappingDb) : MappingDb :=
  mkMappingDb (filter (fun m => negb (Nat.eqb (Mapping._id m) id)) (payment_id_mappings d))
              (next_mapping_id d).

(** The hourly cleanup of mappings older than seven days; returns their
    number. *)
Definition cleanupOldPaymentIdMappings (now : Z) : M MappingDb nat := fun d =>
  let sevenDaysAgo := now - 7 * 24 * 60 * 60 * 1000 in
  let oldMappings :=
    filter (fun m => Mapping._creationTime m <? sevenDaysAgo) (payment_id_mappings d) in
  (fold_left (fun d' mapping => delete_mapping (Mapping._id mapping) d') oldMappings d,
   Ok (List.length oldMappings)).

(** ** What Stripe sends ([convex/stripe/webhook.ts]) *)

Module Stripe.

(** The fields of a Checkout Session that the webhook reads. *)
Record Session : Type := mkSession {
  id : string;
  customer_details_name : option string;   (* customer_details?.name *)
  amount_total : option Z;                 (* in cents; null when absent *)
  metadata_player_name : option string;
  metadata_use_player_name : option string;
  metadata_message : option string }.

Record Event : Type := mkEvent {
  type : string;
  object : Session }.

(** How a delivery ends: the handler returns [{ received: true }], or it
    throws, for a bad signature or as the ledger mutation did. *)
Inductive Outcome : Type :=
| Received
| InvalidSignature
| MutationThrew (e : Error).

End Stripe.

(** ** Database mutations and queries ([convex/bitcoin/mutations.ts]) *)

Section Backend.

Set Default Proof Using "Type".

(** Process-wide configuration, and two functions the backend calls whose
    code is outside the model: the BIP84 derivation ([None] when it throws)
    and the host's [Number(string)] conversion. *)
Variable BITCOIN_NETWORK : Network.
Variable BITCOIN_MASTER_KEY : string.
Variable deriveBip84Address : string -> Z -> Network -> option string.
Variable js_Number : string -> Z.

Definition by_key (k : string) (c : Config.t) : bool := String.eqb (Config.key c) k.
Definition by_address (a : string) (p : Pending.t) : bool := String.eqb (Pending.address p) a.
Definition by_session_amount (s : string) (amount : Q) (p : Pending.t) : bool :=
  String.eqb (Pending.session_id p) s && Qeq_bool (Pending.expected_amount_usd p) amount.
Definition by_status (s : Status) (p : Pending.t) : bool := Status_eqb (Pending.status p) s.
Definition by_payment_id (a : string) (d : Donation.t) : bool := String.eqb (Donation.payment_id d) a.

(** Atomically get the next derivation index. *)
Definition getNextDerivationIndex : M Db Z := fun d =>
  match find (by_key "next_derivation_index") (bitcoin_config d) with
  | None =>
      (* first time setup - initialize counter *)
      (fresh_id (with_config
                   (fun t => t ++ [Config.mk (next_id d) "next_derivation_index" (VNumber 1)]) d),
       Ok 0)
  | Some config =>
      let currentIndex :=
        match Config.value config with
        | VNumber n => n
        | VString s => js_Number s
        end in
      (with_config
         (map (fun c => if Nat.eqb (Config._id c) (Config._id config)
                        then Config.mk (Config._id c) (Config.key c) (VNumber (currentIndex + 1))
                        else c)) d,
       Ok currentIndex)
  end.

Record ExistingSession : Type := mkExisting {
  existing_address : string;
  existing_derivation_index : Z }.

(** Idempotency lookup: the first row of the (session, amount) index, when
    it has not run out of time. *)
Definition checkExistingPaymentSession (now : Z) (session_id : string) (amount : Q)
  : M Db (option ExistingSession) := fun d =>
  let existing := find (by_session_amount session_id amount) (pending_bitcoin_payments d) in
  (d, Ok match existing with
         | Some e =>
             if now <? Pending.expires_at e
             then Some (mkExisting (Pending.address e) (Pending.derivation_index e))
             else None
         | None => None
         end).

Definition validateSessionOwnsAddress (now : Z) (session_id address : string)
  : M Db bool := fun d =>
  (d, match find (by_address address) (pending_bitcoin_payments d) with
      | None => Throw AddressNotFound
      | Some payment =>
          if negb (String.eqb (Pending.session_id payment) session_id)
          then Throw SessionDoesNotOwn
          else if Status_eqb (Pending.status payment) initialized
                  && (Pending.expires_at payment <=? now)
          then Throw SessionExpired
          else Ok true
      end).

Definition createPendingBitcoinPayment (now : Z) (session_id address : string)
    (expected_amount_btc expected_amount_usd exchange_rate : Q)
    (derivation_index : Z) (metadata : option Metadata.t) : M Db unit := fun d =>
  let expiresAt := now + 86400000 in
  (fresh_id (with_pending
               (fun t => t ++ [Pending.mk (next_id d) session_id address
                                 expected_amount_btc expected_amount_usd exchange_rate
                                 derivation_index metadata initialized None None None
                                 now expiresAt]) d),
   Ok tt).

Definition updatePendingPaymentJobId (address : string) (scheduled_job_id : nat)
  : M Db nat := fun d =>
  match find (by_address address) (pending_bitcoin_payments d) with
  | None => (d, Throw PendingPaymentNotFound)
  | Some payment =>
      (patch_pending (Pending._id payment) (Pending.with_job scheduled_job_id) d,
       Ok (Pending._id payment))
  end.

(** Record the transaction seen for an address (AttachTx). *)
Definition updatePendingPaymentWithTx (now : Z) (address txid : string)
  : M Db (option nat) := fun d =>
  match find (by_address address) (pending_bitcoin_payments d) with
  | None => (d, Ok None)
  | Some payment =>
      if negb (Status_eqb (Pending.status payment) initialized)
         && negb (Status_eqb (Pending.status payment) pending)
      then (d, Ok None)
      else
        let newStatus :=
          if Status_eqb (Pending.status payment) initialized
          then pending else Pending.status payment in
        (patch_pending (Pending._id payment) (Pending.with_tx txid now newStatus) d,
         Ok (Some (Pending._id payment)))
  end.

(** SetStatus. *)
Definition updatePendingPaymentStatus (address : string) (status : Status)
  : M Db (option nat) := fun d =>
  match find (by_address address) (pending_bitcoin_payments d) with
  | None => (d, Ok None)
  | Some pending_ =>
      (patch_pending (Pending._id pending_) (Pending.with_status status) d,
       Ok (Some (Pending._id pending_)))
  end.

(** MarkExpired, called by the client when its countdown ends. *)
Definition markPaymentExpired (address session_id : string)
  : M Db (option nat) := fun d =>
  match find (by_address address) (pending_bitcoin_payments d) with
  | None => (d, Ok None)
  | Some payment =>
      if negb (String.eqb (Pending.session_id payment) session_id)
      then (d, Throw SessionDoesNotOwn)
      else if Status_eqb (Pending.status payment) initialized
      then (patch_pending (Pending._id payment) (Pending.with_status expired) d,
            Ok (Some (Pending._id payment)))
      else (d, Ok None)
  end.

Definition getPendingPaymentByAddressInternal (address : string)
  : M Db (option Pending.t) := fun d =>
  (d, Ok (find (by_address address) (pending_bitcoin_payments d))).

(** CreateDonation: one ledger row per address. *)
Definition createDonationFromPayment (address : string) (amount_usd : Q)
    (display_name : string) (message : option string) : M Db bool := fun d =>
  let existingDonation := find (by_payment_id address) (donations d) in
  match existingDonation with
  | Some _ => (d, Ok false)
  | None =>
      (fresh_id (with_donations
                   (fun t => t ++ [Donation.mk (next_id d) amount_usd address
                                     display_name bitcoin message]) d),
       Ok true)
  end.

Record CleanupCounts : Type := mkCounts {
  markedExpiredInitialized : nat;
  markedExpiredPending : nat;
  deletedConfirmed : nat;
  deletedOldExpired : nat }.

(** The rows of one status whose [expires_at] is before [t]. *)
Definition by_status_and_expires_before (s : Status) (t : Z) (d : Db) : list Pending.t :=
  filter (fun p => by_status s p && (Pending.expires_at p <? t)) (pending_bitcoin_payments d).

Definition patch_each (f : Pending.t -> Pending.t) (rows : list Pending.t) (d : Db) : Db :=
  fold_left (fun d' p => patch_pending (Pending._id p) f d') rows d.
Definition delete_each (rows : list Pending.t) (d : Db) : Db :=
  fold_left (fun d' p => delete_pending (Pending._id p) d') rows d.

(** CleanupExpired, run hourly.  The four queries read the table as the
    earlier loops left it.  (An index query returns its rows by
    [expires_at]; here they come in creation order, which matters neither to
    the counts nor to patches and deletions made row by row.) *)
Definition cleanupExpiredPendingPayments (now : Z) : M Db CleanupCounts := fun d =>
  let sevenDaysAgo := now - 7 * 24 * 60 * 60 * 1000 in
  let expiredInitialized := by_status_and_expires_before initialized now d in
  let d1 := patch_each (Pending.with_status expired) expiredInitialized d in
  let expiredPending := by_status_and_expires_before pending now d1 in
  let d2 := patch_each (Pending.with_status expired) expiredPending d1 in
  let confirmed_ := filter (by_status confirmed) (pending_bitcoin_payments d2) in
  let d3 := delete_each confirmed_ d2 in
  let oldExpired := by_status_and_expires_before expired sevenDaysAgo d3 in
  let d4 := delete_each oldExpired d3 in
  (d4, Ok (mkCounts (List.length expiredInitialized) (List.length expiredPending)
                    (List.length confirmed_) (List.length oldExpired))).

(** ** The donation ledger's own mutation ([convex/donation.ts]), used by
    the card and PayPal flows. *)
Definition create (amount : Q) (display_name payment_id : string)
    (payment_method : PaymentMethod) (message : option string) : M Db nat :=
  (check (validateDisplayName display_name) ;;
   check (if truthy_string message then validateMessage message else Ok tt) ;;
   fun d =>
     match find (by_payment_id payment_id) (donations d) with
     | Some existing => (d, Ok (Donation._id existing))
     | None =>
         (fresh_id (with_donations
                      (fun t => t ++ [Donation.mk (next_id d) amount payment_id
                                        display_name payment_method message]) d),
          Ok (next_id d))
     end)%action.

(** ** The exchange-rate oracle ([convex/bitcoin/exchange.ts]) *)

(** [Number.parseFloat], on the price strings the exchanges quote. *)
Variable parseFloat : string -> Q.

(** What one exchange request comes to: the request throws (network error,
    timeout, unreadable body), the response is not [ok], or a body arrives
    from which [extractPrice] reads a string or [undefined]. *)
Inductive SourceOutcome : Type :=
| RequestThrew
| ResponseNotOk
| Extracted (priceStr : option string).

(** One request completing: [if (priceStr) prices.push(parseFloat(priceStr))]. *)
Definition push_price (prices : list Q) (o : SourceOutcome) : list Q :=
  match o with
  | Extracted (Some priceStr) =>
      if String.eqb priceStr "" then prices else prices ++ [parseFloat priceStr]
  | _ => prices
  end.

(** [Array.prototype.sort(comparefn)]: a stable sort; [a] goes before [b]
    when [comparefn(a, b) < 0]. *)
Fixpoint sort_insert (comparefn : Q -> Q -> Q) (x : Q) (l : list Q) : list Q :=
  match l with
  | [] => [x]
  | y :: l' =>
      if Qlt_bool (comparefn x y) 0 then x :: y :: l'
      else y :: sort_insert comparefn x l'
  end.

Definition Array_sort (comparefn : Q -> Q -> Q) (l : list Q) : list Q :=
  fold_left (fun sorted x => sort_insert comparefn x sorted) l [].

(** [array[i]]: [undefined] outside the array. *)
Definition index {A} (l : list A) (i : Z) : option A :=
  if i <? 0 then None else nth_error l (Z.to_nat i).

Definition len {A} (l : list A) : Z := Z.of_nat (List.length l).

(** The price fetch, given the outcomes of the requests in the order in
    which they completed. *)
Definition fetchBtcPriceInternal (outcomes : list SourceOutcome) : Result Q :=
  let prices := fold_left push_price outcomes [] in
  if 0 <? len prices then
    let prices := Array_sort (fun a b => (a - b)%Q) prices in
    let mid := len prices / 2 in
    if len prices mod 2 =? 0 then
      match index prices (mid - 1), index prices mid with
      | Some lower, Some upper => Ok ((lower + upper) / 2)%Q
      | _, _ => Throw InvalidMedian
      end
    else
      match index prices mid with
      | Some value => Ok value
      | None => Throw InvalidMedian
      end
  else Throw NoPriceFromAnyExchange.

(** ** The platform around the actions *)


Inductive RateLimitName : Type := generateAddress | checkPayment | getExchangeRate.

(** Calls that leave the backend. *)
Inductive Event : Type :=
| RateLimitCall (name : RateLimitName) (key : string)
| PriceCall
| ProbeCall (address : string).

Record MonitorArgs : Type := mkMonitorArgs {
  arg_address : string;
  arg_expected_amount_btc : Q;
  arg_derivation_index : Z }.

Record ScheduledJob : Type := mkJob {
  job_id : nat;
  run_at : Z;
  job_args : MonitorArgs }.

Record World : Type := mkWorld {
  db : Db;
  scheduler : list ScheduledJob;
  trace : list Event }.

Definition empty_world : World := mkWorld empty_db [] [].

(** The answers of the outside world during one invocation. *)
Record Env : Type := mkEnv {
  now : Z;                     (* Date.now() *)
  limiter_admits : bool;       (* false: rateLimiter.limit throws *)
  btc_price : option Q;        (* None: getBtcPrice throws *)
  chain : Probe.result }.      (* what checkBlockchainPayment returns *)

Definition log (e : Event) : M World unit :=
  modify (fun w => mkWorld (db w) (scheduler w) (trace w ++ [e])).

(** [ctx.runMutation] and [ctx.runQuery]: a transaction; nothing is written
    when it throws. *)
Definition runMutation {A} (m : M Db A) : M World A := fun w =>
  match m (db w) with
  | (d', Ok a) => (mkWorld d' (scheduler w) (trace w), Ok a)
  | (_, Throw e) => (w, Throw e)
  end.

(** [rateLimiter.limit(ctx, name, { key })]: the limiter is consulted; the
    caller does not look at what it returns. *)
Definition rateLimiter_limit (env : Env) (name : RateLimitName) (key : string)
  : M World unit :=
  (log (RateLimitCall name key) ;;
   if limiter_admits env then ret tt else throw RateLimited)%action.

Definition getBtcPrice (env : Env) : M World Q :=
  (log PriceCall ;;
   match btc_price env with
   | Some p => ret p
   | None => throw NoPriceFromAnyExchange
   end)%action.

Definition checkBlockchainPayment (env : Env) (address : string) : M World Probe.result :=
  (log (ProbeCall address) ;; ret (chain env))%action.

(** [ctx.scheduler.runAfter(delay, monitorSinglePayment, args)] *)
Definition scheduler_runAfter (env : Env) (delay : Z) (args : MonitorArgs) : M World nat :=
  fun w =>
    let id := List.length (scheduler w) in
    (mkWorld (db w) (scheduler w ++ [mkJob id (now env + delay) args]) (trace w), Ok id).

(** ** Public actions ([convex/bitcoin/actions.ts]) *)

Record GenerateBitcoinAddressResult : Type := mkGenerated {
  gen_address : string;
  gen_amount_btc : Q;
  gen_amount_usd : Q;
  gen_exchange_rate : Q;
  gen_derivation_index : Z }.

Inductive CheckBitcoinPaymentResult : Type :=
| NotPaid                                   (* { paid: false } *)
| Paid (tx_hash : string) (amount_btc : Q)  (* { paid: true, ... } *)
       (confirmations required_confirmations : Z).

Definition metadata_message (metadata : option Metadata.t) : option string :=
  match metadata with
  | Some m => Metadata.message m
  | None => None
  end.

Definition metadata_player_name (metadata : option Metadata.t) : option string :=
  match metadata with
  | Some m => Metadata.player_name m
  | None => None
  end.

Definition derive (index : Z) : M World string :=
  match deriveBip84Address BITCOIN_MASTER_KEY index BITCOIN_NETWORK with
  | Some a => ret a
  | None => throw DerivationFailed
  end.

(** GenerateAddress. *)
Definition generateBitcoinAddress (env : Env) (amount : Q) (session_id : string)
    (metadata : option Metadata.t) : M World GenerateBitcoinAddressResult :=
  (check (validateDonationAmount amount) ;;
   check (if truthy_string (metadata_player_name metadata)
          then validatePlayerName (metadata_player_name metadata) else Ok tt) ;;
   check (if truthy_string (metadata_message metadata)
          then validateMessage (metadata_message metadata) else Ok tt) ;;
   rateLimiter_limit env generateAddress session_id ;;
   try_rethrow
     (btcPrice <- getBtcPrice env ;;
      let amount_btc := (amount / btcPrice)%Q in
      existingSession <-
        runMutation (checkExistingPaymentSession (now env) session_id amount) ;;
      match existingSession with
      | Some e =>
          ret (mkGenerated (existing_address e) amount_btc amount btcPrice
                           (existing_derivation_index e))
      | None =>
          derivation_index <- runMutation getNextDerivationIndex ;;
          address <- derive derivation_index ;;
          runMutation (createPendingBitcoinPayment (now env) session_id address
                         amount_btc amount btcPrice derivation_index metadata) ;;
          jobId <- scheduler_runAfter env 10000
                     (mkMonitorArgs address amount_btc derivation_index) ;;
          runMutation (updatePendingPaymentJobId address jobId) ;;
          ret (mkGenerated address amount_btc amount btcPrice derivation_index)
      end)
     FailedToGenerate)%action.

(** The amount check of CheckPayment: made only when the caller passed a
    non-zero expected amount. *)
Definition check_expected_amount (amount_btc : Q) (expected_btc_amount : option Q)
  : Result unit :=
  match expected_btc_amount with
  | Some expected =>
      if truthy_number expected_btc_amount then
        let difference := Qabs (amount_btc - expected) in
        if Qlt_bool btcAmountTolerance difference then
          if Qlt_bool amount_btc expected then Throw Underpayment
          else Ok tt      (* overpayment: logged *)
        else Ok tt
      else Ok tt
  | None => Ok tt
  end.

(** CheckPayment, polled by the client. *)
Definition checkBitcoinPayment (env : Env) (address session_id : string)
    (expected_btc_amount : option Q) (metadata : option Metadata.t)
  : M World CheckBitcoinPaymentResult :=
  (try_rethrow
     (check (validateBitcoinAddress address BITCOIN_NETWORK) ;;
      runMutation (validateSessionOwnsAddress (now env) session_id address) ;;
      rateLimiter_limit env checkPayment session_id ;;
      result <- checkBlockchainPayment env address ;;
      let requiredConfirmations := bitcoinConfirmations BITCOIN_NETWORK in
      match result with
      | Probe.api_failed | Probe.no_payment => ret NotPaid
      | Probe.pending tx_hash amount_btc confirmations =>
          ret (Paid tx_hash amount_btc confirmations requiredConfirmations)
      | Probe.paid tx_hash amount_btc confirmations =>
          let hasEnoughConfirmations := requiredConfirmations <=? confirmations in
          if negb hasEnoughConfirmations
          then ret (Paid tx_hash amount_btc confirmations requiredConfirmations)
          else
            check (check_expected_amount amount_btc expected_btc_amount) ;;
            btcPrice <- getBtcPrice env ;;
            let amount_usd := (amount_btc * btcPrice)%Q in
            check (validateDonationAmount amount_usd) ;;
            let display_name := getDisplayName metadata "Anonymous" in
            runMutation (createDonationFromPayment address amount_usd display_name
                           (metadata_message metadata)) ;;
            runMutation (updatePendingPaymentStatus address confirmed) ;;
            ret (Paid tx_hash amount_btc confirmations requiredConfirmations)
      end)
     FailedToCheck)%action.

(** ** The monitor ([convex/bitcoin/monitoring.ts]) *)

Definition reschedule (env : Env) (args : MonitorArgs) : M World unit :=
  (scheduler_runAfter env 10000 args ;; ret tt)%action.

(** [if (pendingPayment.txid !== result.tx_hash) updatePendingPaymentWithTx] *)
Definition attach_if_new (env : Env) (pendingPayment : Pending.t)
    (address tx_hash : string) : M World unit :=
  match Pending.txid pendingPayment with
  | Some t =>
      if String.eqb t tx_hash then ret tt
      else (runMutation (updatePendingPaymentWithTx (now env) address tx_hash) ;; ret tt)%action
  | None => (runMutation (updatePendingPaymentWithTx (now env) address tx_hash) ;; ret tt)%action
  end.

(** The tail of the monitor, once the amount is accepted: the donation is
    priced at the rate stored on the row, created, and the row confirmed. *)
Definition settle (pendingPayment : Pending.t) (address : string) (amount_btc : Q)
  : M World unit :=
  let amount_usd := (amount_btc * Pending.exchange_rate pendingPayment)%Q in
  let display_name := getDisplayName (Pending.metadata pendingPayment) "Anonymous" in
  (runMutation (createDonationFromPayment address amount_usd display_name
                  (metadata_message (Pending.metadata pendingPayment))) ;;
   runMutation (updatePendingPaymentStatus address confirmed) ;;
   ret tt)%action.

(** One invocation of the monitor for one address. *)
Definition monitorSinglePayment (env : Env) (args : MonitorArgs) : M World unit :=
  let address := arg_address args in
  let expected_amount_btc := arg_expected_amount_btc args in
  (found <- runMutation (getPendingPaymentByAddressInternal address) ;;
   match found with
   | None => ret tt                               (* record deleted *)
   | Some pendingPayment =>
       if Status_eqb (Pending.status pendingPayment) confirmed then ret tt
       else if Status_eqb (Pending.status pendingPayment) expired then ret tt
       else if Pending.expires_at pendingPayment <? now env then
         runMutation (updatePendingPaymentStatus address expired) ;; ret tt
       else
         result <- checkBlockchainPayment env address ;;
         let requiredConfirmations := bitcoinConfirmations BITCOIN_NETWORK in
         match result with
         | Probe.api_failed => reschedule env args
         | Probe.no_payment => reschedule env args
         | Probe.pending tx_hash _ _ =>
             attach_if_new env pendingPayment address tx_hash ;;
             reschedule env args
         | Probe.paid tx_hash amount_btc confirmations =>
             if confirmations <? requiredConfirmations then
               attach_if_new env pendingPayment address tx_hash ;;
               reschedule env args
             else
               let difference := Qabs (amount_btc - expected_amount_btc) in
               if Qlt_bool btcAmountTolerance difference then
                 if Qlt_bool amount_btc expected_amount_btc then
                   (* underpayment *)
                   runMutation (updatePendingPaymentStatus address expired) ;; ret tt
                 else
                   (* overpayment accepted *)
                   settle pendingPayment address amount_btc
               else settle pendingPayment address amount_btc
         end
   end)%action.

(** ** The system as a whole *)

(** The entry points of the backend: the public actions and mutations, the
    scheduled monitor, the hourly cleanup, and the ledger insertion of the
    card and PayPal flows. *)
Inductive Op : Type :=
| GenerateAddress (amount : Q) (session_id : string) (metadata : option Metadata.t)
| CheckPayment (address session_id : string) (expected_btc_amount : option Q)
               (metadata : option Metadata.t)
| Monitor (args : MonitorArgs)
| MarkExpired (address session_id : string)
| CleanupExpired
| CreateLedgerRow (amount : Q) (display_name payment_id : string)
                  (payment_method : PaymentMethod) (message : option string).


(** One entry point run to completion, in the world [w]. *)
Definition run (env : Env) (op : Op) (w : World) : World :=
  match op with
  | GenerateAddress amount session_id metadata =>
      fst (generateBitcoinAddress env amount session_id metadata w)
  | CheckPayment address session_id expected metadata =>
      fst (checkBitcoinPayment env address session_id expected metadata w)
  | Monitor args => fst (monitorSinglePayment env args w)
  | MarkExpired address session_id =>
      fst (runMutation (markPaymentExpired address session_id) w)
  | CleanupExpired => fst (runMutation (cleanupExpiredPendingPayments (now env)) w)
  | CreateLedgerRow amount display_name payment_id payment_method message =>
      fst (runMutation (create amount display_name payment_id payment_method message) w)
  end.

(** A history: entry points run one after the other, each with the answers
    the outside world gave it. *)
Definition exec (calls : list (Env * Op)) (w : World) : World :=
  fold_left (fun w' c => run (fst c) (snd c) w') calls w.

(** The transactions the entry points are made of.  The database sees an
    action only through them, one at a time, whichever way concurrent
    actions interleave. *)
Inductive Transaction : Type :=
| TxGetNextDerivationIndex
| TxCreatePending (now : Z) (session_id address : string)
                  (expected_amount_btc expected_amount_usd exchange_rate : Q)
                  (derivation_index : Z) (metadata : option Metadata.t)
| TxUpdateJobId (address : string) (scheduled_job_id : nat)
| TxUpdateWithTx (now : Z) (address txid : string)
| TxUpdateStatus (address : string) (status : Status)
| TxMarkExpired (address session_id : string)
| TxCreateDonation (address : string) (amount_usd : Q) (display_name : string)
                   (message : option string)
| TxCleanup (now : Z)
| TxCreate (amount : Q) (display_name payment_id : string)
           (payment_method : PaymentMethod) (message : option string).

Definition commit (d : Db) (t : Transaction) : Db :=
  match t with
  | TxGetNextDerivationIndex => fst (getNextDerivationIndex d)
  | TxCreatePending now s a b u x i m =>
      fst (createPendingBitcoinPayment now s a b u x i m d)
  | TxUpdateJobId a j => fst (updatePendingPaymentJobId a j d)
  | TxUpdateWithTx now a t => fst (updatePendingPaymentWithTx now a t d)
  | TxUpdateStatus a s => fst (updatePendingPaymentStatus a s d)
  | TxMarkExpired a s => fst (markPaymentExpired a s d)
  | TxCreateDonation a u n m => fst (createDonationFromPayment a u n m d)
  | TxCleanup now => fst (cleanupExpiredPendingPayments now d)
  | TxCreate amount n pid method m => fst (create amount n pid method m d)
  end.

(** ** The remaining queries of the pending table and of the ledger
    ([convex/bitcoin/mutations.ts], [convex/donation.ts]) *)

(** The rows still to be watched: the [initialized] ones, then the
    [pending] ones. *)
Definition getPendingPayments : M Db (list Pending.t) := fun d =>
  let initialized_ := filter (by_status initialized) (pending_bitcoin_payments d) in
  let pending_ := filter (by_status pending) (pending_bitcoin_payments d) in
  (d, Ok (initialized_ ++ pending_)).

(** The row of an address, for the session that owns it. *)
Definition getPendingPaymentByAddress (address session_id : string)
  : M Db (option Pending.t) := fun d =>
  (d, match find (by_address address) (pending_bitcoin_payments d) with
      | None => Ok None
      | Some payment =>
          if negb (String.eqb (Pending.session_id payment) session_id)
          then Throw SessionDoesNotOwn
          else Ok (Some payment)
      end).

Definition getAmountTotal : M Db Q := fun d =>
  (d, Ok (fold_left (fun sum donation => (sum + Donation.amount donation)%Q)
                    (donations d) 0%Q)).

Definition getDonationByPaymentId (payment_id : string) : M Db (option Donation.t) := fun d =>
  (d, Ok (find (by_payment_id payment_id) (donations d))).

(** ** The probe behind the monitor *)


(** ** The Stripe webhook ([convex/stripe/webhook.ts]) *)

(** [s || fallback] on strings. *)
Definition or_else (s : option string) (fallback : string) : string :=
  match s with
  | Some s' => if String.eqb s' "" then fallback else s'
  | None => fallback
  end.

(** [s || null], [s || undefined] *)
Definition or_nothing (s : option string) : option string :=
  if truthy_string s then s else None.

(** The metadata the webhook rebuilds from the strings Stripe carries. *)
Definition stripe_metadata (session : Stripe.Session) : option Metadata.t :=
  let player_name := Stripe.metadata_player_name session in
  let use_player_name :=
    match Stripe.metadata_use_player_name session with
    | Some s => String.eqb s "true"
    | None => false
    end in
  let message := Stripe.metadata_message session in
  if use_player_name
  then Some (Metadata.mk (or_nothing player_name) true (or_nothing message))
  else if truthy_string message
       then Some (Metadata.mk None false message)
       else None.

(** One delivery.  [constructEvent] is Stripe's signature check: the event,
    or [None] when it throws. *)
Definition handleStripeWebhook (constructEvent : string -> string -> option Stripe.Event)
    (signature payload : string) : Db -> Db * Stripe.Outcome := fun d =>
  match constructEvent payload signature with
  | None => (d, Stripe.InvalidSignature)
  | Some event =>
      if String.eqb (Stripe.type event) "checkout.session.completed" then
        let session := Stripe.object event in
        let customerName := or_else (Stripe.customer_details_name session) "Anonymous" in
        let amount :=
          match Stripe.amount_total session with
          | Some cents => if cents =? 0 then 0%Q else (inject_Z cents / 100)%Q
          | None => 0%Q
          end in
        let metadata := stripe_metadata session in
        let display_name := getDisplayName metadata customerName in
        match create amount display_name (Stripe.id session) stripe
                (metadata_message metadata) d with
        | (d', Ok _) => (d', Stripe.Received)
        | (_, Throw e) => (d, Stripe.MutationThrew e)
        end
      else (d, Stripe.Received)
  end.

(** ** Predicates used in the statements *)

(** *** On states *)

(** The ledger rows of one address. *)
Definition ledger_rows (address : string) (w : World) : list Donation.t :=
  filter (by_payment_id address) (donations (db w)).

(** The rows of in-flight payments. *)
Definition pending_rows (w : World) : list Pending.t :=
  pending_bitcoin_payments (db w).

(** No two ledger rows share a [payment_id]. *)
Definition ledger_unique (d : Db) : Prop :=
  NoDup (map Donation.payment_id (donations d)).

(** [confirmed] and [expired] are the terminal statuses. *)
Definition terminal (s : Status) : Prop := s = confirmed \/ s = expired.

(** Every pending row with identifier [id] has status [s]. *)
Definition status_is (id : nat) (s : Status) (d : Db) : Prop :=
  forall r, In r (pending_bitcoin_payments d) -> Pending._id r = id -> Pending.status r = s.

(** Identifiers are unique and below the next one to be handed out. *)
Definition ids_fresh (d : Db) : Prop :=
  NoDup (map Pending._id (pending_bitcoin_payments d)) /\
  forall r, In r (pending_bitcoin_payments d) -> (Pending._id r < next_id d)%nat.

(** The rows with identifier [id] have status [s], and [id] has been handed
    out already. *)
Definition kept (id : nat) (s : Status) (d : Db) : Prop :=
  (id < next_id d)%nat /\ status_is id s d.

(** The counter row of the derivation index, as the next call will read it. *)
Definition counter (d : Db) : option Z :=
  match find (by_key "next_derivation_index") (bitcoin_config d) with
  | None => None
  | Some config =>
      Some match Config.value config with
           | VNumber n => n
           | VString s => js_Number s
           end
  end.

(** The index the next call of [getNextDerivationIndex] returns. *)
Definition next_index (d : Db) : Z :=
  match counter d with
  | Some c => c
  | None => 0
  end.


(** *** On computations *)

(** A state predicate kept by a computation, whatever it returns. *)
Definition preserves {S A} (I : S -> Prop) (m : M S A) : Prop :=
  forall s, I s -> I (fst (m s)).

(** A predicate on the database, read on the world. *)
Definition on_db (I : Db -> Prop) (w : World) : Prop := I (db w).

(** A transaction that leaves the ledger as it is. *)
Definition ledger_untouched {A} (m : M Db A) : Prop :=
  forall d, donations (fst (m d)) = donations d.

(** [post m s Q]: running [m] from [s] ends in a state and a result that
    satisfy [Q]. *)
Definition post {S A} (m : M S A) (s : S) (Q : S -> Result A -> Prop) : Prop :=
  Q (fst (m s)) (snd (m s)).


(** [N] calls of CreateDonation for one address, with whatever amounts and
    names the callers computed: what each call returned, and the database
    at the end. *)
Fixpoint donation_calls (address : string) (args : list (Q * string * option string))
    (d : Db) : list bool * Db :=
  match args with
  | [] => ([], d)
  | (amount_usd, display_name, message) :: rest =>
      match createDonationFromPayment address amount_usd display_name message d with
      | (d', Ok created) =>
          let (results, d'') := donation_calls address rest d' in
          (created :: results, d'')
      | (d', Throw _) => donation_calls address rest d'
      end
  end.

(** *** On GenerateAddress *)

(** The row CheckExistingSession answers with, if any. *)
Definition existing_session (now : Z) (session_id : string) (amount : Q) (d : Db)
  : option ExistingSession :=
  match snd (checkExistingPaymentSession now session_id amount d) with
  | Ok e => e
  | Throw _ => None
  end.

(** The request passes the validators at the head of GenerateAddress. *)
Definition inputs_valid (amount : Q) (metadata : option Metadata.t) : Prop :=
  validateDonationAmount amount = Ok tt /\
  (if truthy_string (metadata_player_name metadata)
   then validatePlayerName (metadata_player_name metadata) else Ok tt) = Ok tt /\
  (if truthy_string (metadata_message metadata)
   then validateMessage (metadata_message metadata) else Ok tt) = Ok tt.

(** The world once the limiter and the price service have been called. *)
Definition after_limiter_and_price (session_id : string) (w : World) : World :=
  mkWorld (db w) (scheduler w)
          ((trace w ++ [RateLimitCall generateAddress session_id]) ++ [PriceCall]).

(** *** On the price fetch *)





(** *** On the monitor and the probe *)

(** A probe result that settles nothing yet: no answer, no payment, a
    transaction still in the mempool, or one with too few confirmations. *)
Definition undecided (r : Probe.result) : bool :=
  match r with
  | Probe.paid _ _ confirmations => confirmations <? bitcoinConfirmations BITCOIN_NETWORK
  | _ => true
  end.

(** *** On the ledger *)


(** *** On the hourly cleanup *)

(** A row of [rows] carries the identifier of [p]. *)
Definition has_id (rows : list Pending.t) (p : Pending.t) : bool :=
  existsb (fun r => Nat.eqb (Pending._id r) (Pending._id p)) rows.

(** A row still open ([initialized] or [pending]) and past its expiry. *)
Definition overdue (now : Z) (p : Pending.t) : bool :=
  (by_status initialized p || by_status pending p) && (Pending.expires_at p <? now).

(** What the cleanup makes of one row, taken by itself: an overdue row
    becomes [expired]. *)
Definition cleanup_mark (now : Z) (p : Pending.t) : Pending.t :=
  if overdue now p then Pending.with_status expired p else p.

(** The rows the cleanup deletes, once marked: the [confirmed] ones, and the
    [expired] ones whose expiry lies more than seven days back. *)
Definition cleanup_drops (now : Z) (p : Pending.t) : bool :=
  by_status confirmed p
  || (by_status expired p && (Pending.expires_at p <? now - 7 * 24 * 60 * 60 * 1000)).

(** The cleanup as one pass over the table. *)
Definition cleaned (now : Z) (rows : list Pending.t) : list Pending.t :=
  filter (fun p => negb (cleanup_drops now p)) (map (cleanup_mark now) rows).

(** *** On the status of a row *)

(** How far a row has come: [initialized], then [pending], then one of the
    terminal statuses. *)
Definition rank (s : Status) : nat :=
  match s with
  | initialized => 0
  | pending => 1
  | confirmed | expired => 2
  end.

(** The identifier [id] has been handed out, and the rows that carry it have
    come at least as far as [k]. *)
Definition reached (k : nat) (id : nat) (d : Db) : Prop :=
  (id < next_id d)%nat /\
  forall r, In r (pending_bitcoin_payments d) -> Pending._id r = id ->
            (k <= rank (Pending.status r))%nat.

(** *** On the explorers *)

(** Every URL of the list is under [base]. *)
Definition all_under (base : string) (urls : list string) : Prop :=
  Forall (fun url => String.prefix base url = true) urls.




(** *** On the audit log *)

(** [field] is one of the sensitive names. *)
Definition sensitive (field : string) : bool :=
  existsb (String.eqb field) Logger.sensitiveFields.

(** *** On the ledger total *)

(** The sum the public total reports. *)
Definition ledger_total (d : Db) : Q :=
  fold_left (fun sum donation => (sum + Donation.amount donation)%Q) (donations d) 0%Q.

(** *** On the PayPal mappings *)

(** The two transactions of the mappings table. *)
Inductive MappingOp : Type :=
| StoreMapping (now : Z) (order_id capture_id : string)
| CleanupMappings (now : Z).

Definition run_mapping (d : MappingDb) (op : MappingOp) : MappingDb :=
  match op with
  | StoreMapping now order_id capture_id =>
      fst (storePaymentIdMapping now order_id capture_id d)
  | CleanupMappings now => fst (cleanupOldPaymentIdMappings now d)
  end.

Definition empty_mappings : MappingDb := mkMappingDb [] 0.

(** Identifiers of mappings are unique and below the next one. *)
Definition mapping_ids_fresh (d : MappingDb) : Prop :=
  NoDup (map Mapping._id (payment_id_mappings d)) /\
  forall m, In m (payment_id_mappings d) -> (Mapping._id m < next_mapping_id d)%nat.

(** A mapping created more than seven days before [now]. *)
Definition mapping_is_old (now : Z) (m : Mapping.t) : bool :=
  Mapping._creationTime m <? now - 7 * 24 * 60 * 60 * 1000.

(** *** On names and messages *)

(** Metadata whose display name and message pass the ledger's validators. *)
Definition presentable (metadata : option Metadata.t) : Prop :=
  validateDisplayName (getDisplayName metadata "Anonymous") = Ok tt /\
  validateMessage (metadata_message metadata) = Ok tt.

Definition rows_presentable (d : Db) : Prop :=
  Forall (fun r => presentable (Pending.metadata r)) (pending_bitcoin_payments d).

(** *** On what a run leaves alone *)

(** From [d] to [d'] no row was added or deleted, and the rows of addresses
    other than [a] are as they were. *)
Definition only_address_touched (a : string) (d d' : Db) : Prop :=
  map Pending._id (pending_bitcoin_payments d') = map Pending._id (pending_bitcoin_payments d) /\
  bitcoin_config d' = bitcoin_config d /\
  forall r, In r (pending_bitcoin_payments d) -> Pending.address r <> a ->
            In r (pending_bitcoin_payments d').

(** *** On the Stripe webhook *)

(** The name a card donation is listed under: the player name when the
    session asks for it and the name is not empty; otherwise the customer's
    name, or "Anonymous" when Stripe has none. *)
Definition stripe_display_name (session : Stripe.Session) : string :=
  match Stripe.metadata_use_player_name session, Stripe.metadata_player_name session with
  | Some use, Some player =>
      if String.eqb use "true" && negb (String.eqb player "")
      then player
      else or_else (Stripe.customer_details_name session) "Anonymous"
  | _, _ => or_else (Stripe.customer_details_name session) "Anonymous"
  end.

(** The amount a card donation is listed with: Stripe's total, in dollars. *)
Definition stripe_amount (session : Stripe.Session) : Q :=
  match Stripe.amount_total session with
  | Some cents => (inject_Z cents / 100)%Q
  | None => 0%Q
  end.

(** * Proofs *)

(** Keeps the configuration out of the proofs that do not concern it. *)
Ltac hide_config :=
  try clear parseFloat; try clear js_Number; try clear deriveBip84Address;
  try clear BITCOIN_MASTER_KEY; try clear BITCOIN_NETWORK.

(** ** Reasoning about computations *)

Lemma preserves_ret {S A} (I : S -> Prop) (a : A) : preserves I (ret a).
Proof. intros s H; exact H. Qed.

Lemma preserves_throw {S A} (I : S -> Prop) (e : Error) : preserves I (@throw S A e).
Proof. intros s H; exact H. Qed.

Lemma preserves_check {S} (I : S -> Prop) (r : Result unit) : preserves I (@check S r).
Proof. intros s H; exact H. Qed.

Lemma preserves_bind {S A B} (I : S -> Prop) (m : M S A) (k : A -> M S B) :
  preserves I m -> (forall a, preserves I (k a)) -> preserves I (bind m k).
Proof.
  intros Hm Hk s Hs. unfold bind.
  specialize (Hm s Hs). destruct (m s) as [s' [a|e]]; simpl in *.
  - apply Hk; exact Hm.
  - exact Hm.
Qed.

Lemma preserves_try_rethrow {S A} (I : S -> Prop) (m : M S A) (h : Error -> Error) :
  preserves I m -> preserves I (try_rethrow m h).
Proof.
  intros Hm s Hs. unfold try_rethrow.
  specialize (Hm s Hs). destruct (m s) as [s' [a|e]]; exact Hm.
Qed.

Lemma preserves_runMutation {A} (I : Db -> Prop) (m : M Db A) :
  preserves I m -> preserves (on_db I) (runMutation m).
Proof.
  intros Hm w Hw. unfold runMutation, on_db in *.
  specialize (Hm (db w) Hw). destruct (m (db w)) as [d' [a|e]]; simpl in *; assumption.
Qed.

Lemma preserves_log (I : Db -> Prop) (e : Event) : preserves (on_db I) (log e).
Proof. intros w Hw; exact Hw. Qed.

Lemma preserves_rateLimiter_limit (I : Db -> Prop) env name key :
  preserves (on_db I) (rateLimiter_limit env name key).
Proof.
  unfold rateLimiter_limit. apply preserves_bind; [apply preserves_log|].
  intros _. destruct (limiter_admits env); [apply preserves_ret | apply preserves_throw].
Qed.

Lemma preserves_getBtcPrice (I : Db -> Prop) env : preserves (on_db I) (getBtcPrice env).
Proof.
  unfold getBtcPrice. apply preserves_bind; [apply preserves_log|].
  intros _. destruct (btc_price env); [apply preserves_ret | apply preserves_throw].
Qed.

Lemma preserves_checkBlockchainPayment (I : Db -> Prop) env a :
  preserves (on_db I) (checkBlockchainPayment env a).
Proof.
  unfold checkBlockchainPayment. apply preserves_bind; [apply preserves_log|].
  intros _. apply preserves_ret.
Qed.

Lemma preserves_scheduler_runAfter (I : Db -> Prop) env delay args :
  preserves (on_db I) (scheduler_runAfter env delay args).
Proof. intros w Hw; exact Hw. Qed.

Lemma preserves_derive (I : Db -> Prop) i : preserves (on_db I) (derive i).
Proof.
  unfold derive.
  destruct (deriveBip84Address _ _ _); [apply preserves_ret | apply preserves_throw].
Qed.

(** Splits a computation along its binds and branches, leaving the
    transactions it runs. *)
Ltac preserves_step :=
  first
    [ apply preserves_ret
    | apply preserves_throw
    | apply preserves_check
    | apply preserves_rateLimiter_limit
    | apply preserves_getBtcPrice
    | apply preserves_checkBlockchainPayment
    | apply preserves_scheduler_runAfter
    | apply preserves_derive
    | apply preserves_try_rethrow
    | apply preserves_bind; [ | intro ]
    | apply preserves_runMutation
    | match goal with
      | |- preserves _ (match ?x with _ => _ end) => destruct x
      | |- preserves _ (if ?x then _ else _) => destruct x
      end ].

(** The actions keep every database predicate that each transaction they
    run keeps. *)
Section ActionsPreserve.
Variable I : Db -> Prop.
Hypothesis I_getNext : preserves I getNextDerivationIndex.
Hypothesis I_createPending :
  forall now s a b u x i m, preserves I (createPendingBitcoinPayment now s a b u x i m).
Hypothesis I_jobId : forall a j, preserves I (updatePendingPaymentJobId a j).
Hypothesis I_withTx : forall now a t, preserves I (updatePendingPaymentWithTx now a t).
Hypothesis I_createDonation :
  forall a u n m, preserves I (createDonationFromPayment a u n m).
Hypothesis I_setConfirmed : forall a, preserves I (updatePendingPaymentStatus a confirmed).
Hypothesis I_setExpired : forall a, preserves I (updatePendingPaymentStatus a expired).

Lemma preserves_checkExisting now s a : preserves I (checkExistingPaymentSession now s a).
Proof.
  intros d Hd. exact Hd.
Qed.

Lemma preserves_validateSession now s a : preserves I (validateSessionOwnsAddress now s a).
Proof.
  intros d Hd. exact Hd.
Qed.

Lemma preserves_getPending a : preserves I (getPendingPaymentByAddressInternal a).
Proof. intros d Hd; exact Hd. Qed.

Lemma preserves_generate env amount s m :
  preserves (on_db I) (generateBitcoinAddress env amount s m).
Proof using I_getNext I_createPending I_jobId.
  unfold generateBitcoinAddress.
  repeat preserves_step;
    auto using preserves_checkExisting.
Qed.

Lemma preserves_check_payment env a s e m :
  preserves (on_db I) (checkBitcoinPayment env a s e m).
Proof using I_createDonation I_setConfirmed.
  unfold checkBitcoinPayment.
  repeat preserves_step; auto using preserves_validateSession.
Qed.

Lemma preserves_attach_if_new env p a t : preserves (on_db I) (attach_if_new env p a t).
Proof using I_withTx. unfold attach_if_new. repeat preserves_step; auto. Qed.

Lemma preserves_monitor env args : preserves (on_db I) (monitorSinglePayment env args).
Proof using I_withTx I_createDonation I_setConfirmed I_setExpired.
  unfold monitorSinglePayment, reschedule, settle.
  repeat first [ apply preserves_attach_if_new | preserves_step ];
    auto using preserves_getPending.
Qed.
End ActionsPreserve.


(** ** The donation ledger holds one row per payment *)

Lemma find_by_payment_id_none a l :
  find (by_payment_id a) l = None -> ~ In a (map Donation.payment_id l).
Proof.
  hide_config.
  induction l as [|x l IH]; simpl; intros H; [tauto|].
  unfold by_payment_id at 1 in H.
  destruct (String.eqb_spec (Donation.payment_id x) a) as [E|E]; [discriminate|].
  intros [F|F]; [congruence | exact (IH H F)].
Qed.

Lemma find_by_payment_id_some a l x :
  find (by_payment_id a) l = Some x -> In x l /\ Donation.payment_id x = a.
Proof.
  intros H. apply find_some in H. destruct H as [H1 H2]. split; [exact H1|].
  unfold by_payment_id in H2. apply String.eqb_eq; exact H2.
Qed.

Lemma ledger_unique_append d row :
  ledger_unique d ->
  find (by_payment_id (Donation.payment_id row)) (donations d) = None ->
  NoDup (map Donation.payment_id (donations d ++ [row])).
Proof.
  hide_config.
  intros Hu Hf. rewrite map_app. simpl.
  apply NoDup_app; [exact Hu | repeat constructor; simpl; tauto | ].
  intros a Ha [E|[]]. subst a. exact (find_by_payment_id_none _ _ Hf Ha).
Qed.

Lemma unique_rows_le_1 a (l : list Donation.t) :
  NoDup (map Donation.payment_id l) -> (List.length (filter (by_payment_id a) l) <= 1)%nat.
Proof.
  induction l as [|x l IH]; simpl; intros H; [lia|].
  inversion H as [|? ? Hn Hd]; subst.
  unfold by_payment_id at 1.
  destruct (String.eqb_spec (Donation.payment_id x) a) as [E|E]; [|auto].
  simpl. assert (filter (by_payment_id a) l = []) as ->; [|simpl; lia].
  destruct (filter (by_payment_id a) l) as [|y t] eqn:F; [reflexivity|exfalso].
  assert (In y (filter (by_payment_id a) l)) as Hy by (rewrite F; left; reflexivity).
  apply filter_In in Hy. destruct Hy as [Hy1 Hy2].
  unfold by_payment_id in Hy2. apply String.eqb_eq in Hy2.
  apply Hn. rewrite E, <- Hy2. apply in_map; exact Hy1.
Qed.

Lemma createDonation_existing d address amount_usd display_name message x :
  find (by_payment_id address) (donations d) = Some x ->
  createDonationFromPayment address amount_usd display_name message d = (d, Ok false).
Proof. intros H. unfold createDonationFromPayment. rewrite H. reflexivity. Qed.

Lemma createDonation_fresh d address amount_usd display_name message :
  find (by_payment_id address) (donations d) = None ->
  createDonationFromPayment address amount_usd display_name message d =
  (fresh_id (with_donations
               (fun t => t ++ [Donation.mk (next_id d) amount_usd address
                                 display_name bitcoin message]) d),
   Ok true).
Proof. intros H. unfold createDonationFromPayment. rewrite H. reflexivity. Qed.

Lemma find_app_single {A} (f : A -> bool) l x :
  find f (l ++ [x]) = match find f l with Some y => Some y | None => if f x then Some x else None end.
Proof. induction l as [|y l IH]; simpl; [reflexivity|]. destruct (f y); auto. Qed.

Lemma ledger_unique_createDonation a u n m :
  preserves ledger_unique (createDonationFromPayment a u n m).
Proof.
  intros d Hd. destruct (find (by_payment_id a) (donations d)) as [x|] eqn:F.
  - rewrite (createDonation_existing _ _ _ _ _ _ F). exact Hd.
  - rewrite (createDonation_fresh _ _ _ _ _ F). simpl. unfold ledger_unique; simpl.
    apply (ledger_unique_append d (Donation.mk (next_id d) u a n bitcoin m)); assumption.
Qed.

Lemma ledger_unique_create amount n pid method m :
  preserves ledger_unique (create amount n pid method m).
Proof.
  unfold create. repeat preserves_step.
  intros d Hd. destruct (find (by_payment_id pid) (donations d)) as [x|] eqn:F; simpl.
  - exact Hd.
  - unfold ledger_unique; simpl.
    apply (ledger_unique_append d (Donation.mk (next_id d) amount pid n method m)); assumption.
Qed.

Lemma ledger_untouched_preserves {A} (m : M Db A) :
  ledger_untouched m -> preserves ledger_unique m.
Proof. intros H d Hd. unfold ledger_unique. rewrite H. exact Hd. Qed.

Lemma donations_patch_each f rows d : donations (patch_each f rows d) = donations d.
Proof.
  unfold patch_each. revert d. induction rows as [|r rows IH]; simpl; intros d; [reflexivity|].
  rewrite IH. reflexivity.
Qed.

Lemma donations_delete_each rows d : donations (delete_each rows d) = donations d.
Proof.
  unfold delete_each. revert d. induction rows as [|r rows IH]; simpl; intros d; [reflexivity|].
  rewrite IH. reflexivity.
Qed.

Lemma ledger_untouched_getNext : ledger_untouched getNextDerivationIndex.
Proof. intros d. unfold getNextDerivationIndex. destruct (find _ _); reflexivity. Qed.

Lemma ledger_untouched_createPending now s a b u x i m :
  ledger_untouched (createPendingBitcoinPayment now s a b u x i m).
Proof. intros d. reflexivity. Qed.

Lemma ledger_untouched_jobId a j : ledger_untouched (updatePendingPaymentJobId a j).
Proof. intros d. unfold updatePendingPaymentJobId. destruct (find _ _); reflexivity. Qed.

Lemma ledger_untouched_withTx now a t : ledger_untouched (updatePendingPaymentWithTx now a t).
Proof.
  intros d. unfold updatePendingPaymentWithTx.
  destruct (find _ _); [|reflexivity]. destruct (_ && _); reflexivity.
Qed.

Lemma ledger_untouched_setStatus a s : ledger_untouched (updatePendingPaymentStatus a s).
Proof. intros d. unfold updatePendingPaymentStatus. destruct (find _ _); reflexivity. Qed.

Lemma ledger_untouched_markExpired a s : ledger_untouched (markPaymentExpired a s).
Proof.
  intros d. unfold markPaymentExpired.
  destruct (find _ _); [|reflexivity]. destruct (negb _); [reflexivity|].
  destruct (Status_eqb _ _); reflexivity.
Qed.

Lemma ledger_untouched_cleanup now : ledger_untouched (cleanupExpiredPendingPayments now).
Proof.
  intros d. unfold cleanupExpiredPendingPayments. simpl.
  rewrite !donations_delete_each, !donations_patch_each. reflexivity.
Qed.

Lemma ledger_unique_run env op w :
  on_db ledger_unique w -> on_db ledger_unique (run env op w).
Proof.
  intros Hw. destruct op; cbn [run].
  - apply preserves_generate; auto using ledger_untouched_preserves, ledger_untouched_getNext,
      ledger_untouched_createPending, ledger_untouched_jobId.
  - apply preserves_check_payment;
      auto using ledger_untouched_preserves, ledger_untouched_setStatus,
        ledger_unique_createDonation.
  - apply preserves_monitor;
      auto using ledger_untouched_preserves, ledger_untouched_setStatus,
        ledger_untouched_withTx, ledger_unique_createDonation.
  - apply (preserves_runMutation ledger_unique);
      auto using ledger_untouched_preserves, ledger_untouched_markExpired.
  - apply (preserves_runMutation ledger_unique);
      auto using ledger_untouched_preserves, ledger_untouched_cleanup.
  - apply (preserves_runMutation ledger_unique); auto using ledger_unique_create.
Qed.

Lemma exec_app calls1 calls2 w : exec (calls1 ++ calls2) w = exec calls2 (exec calls1 w).
Proof. unfold exec. apply fold_left_app. Qed.

(** An invariant of the entry points holds all along a history. *)
Lemma exec_invariant (I : World -> Prop) :
  (forall env op w, I w -> I (run env op w)) ->
  forall calls w, I w -> I (exec calls w).
Proof.
  intros Hstep calls. induction calls as [|[env op] calls IH]; simpl; intros w Hw; [exact Hw|].
  apply IH. apply Hstep. exact Hw.
Qed.

Lemma ledger_unique_reachable calls : ledger_unique (db (exec calls empty_world)).
Proof.
  apply (exec_invariant (on_db ledger_unique)).
  - exact ledger_unique_run.
  - constructor.
Qed.

Lemma ledger_unique_commit d t : ledger_unique d -> ledger_unique (commit d t).
Proof.
  intros H. destruct t; cbn [commit].
  - apply ledger_untouched_preserves; auto using ledger_untouched_getNext.
  - apply ledger_untouched_preserves; auto using ledger_untouched_createPending.
  - apply ledger_untouched_preserves; auto using ledger_untouched_jobId.
  - apply ledger_untouched_preserves; auto using ledger_untouched_withTx.
  - apply ledger_untouched_preserves; auto using ledger_untouched_setStatus.
  - apply ledger_untouched_preserves; auto using ledger_untouched_markExpired.
  - apply ledger_unique_createDonation; exact H.
  - apply ledger_untouched_preserves; auto using ledger_untouched_cleanup.
  - apply ledger_unique_create; exact H.
Qed.

Lemma ledger_unique_commits txs : forall d,
  ledger_unique d -> ledger_unique (fold_left commit txs d).
Proof.
  induction txs as [|t txs IH]; simpl; intros d H; [exact H|].
  apply IH. apply ledger_unique_commit. exact H.
Qed.

Lemma find_by_payment_id_in a l x :
  In x l -> Donation.payment_id x = a -> exists y, find (by_payment_id a) l = Some y.
Proof.
  intros Hin Hp. destruct (find (by_payment_id a) l) as [y|] eqn:F; [eauto|exfalso].
  apply (find_none _ _ F) in Hin. unfold by_payment_id in Hin.
  rewrite Hp, String.eqb_refl in Hin. discriminate.
Qed.

Lemma find_by_payment_id_absent a l :
  (forall x, In x l -> Donation.payment_id x <> a) -> find (by_payment_id a) l = None.
Proof.
  intros H. destruct (find (by_payment_id a) l) as [y|] eqn:F; [exfalso|reflexivity].
  apply find_by_payment_id_some in F. destruct F as [F1 F2]. exact (H y F1 F2).
Qed.

Lemma donation_calls_existing address args : forall d x,
  find (by_payment_id address) (donations d) = Some x ->
  donation_calls address args d = (repeat false (List.length args), d).
Proof.
  induction args as [|[[u n] m] args IH]; simpl; intros d x F; [reflexivity|].
  rewrite (createDonation_existing _ _ _ _ _ _ F).
  rewrite (IH d x F). reflexivity.
Qed.

(** C1. At every reachable state the ledger holds at most one row whose
    [payment_id] is a given address, also when the transactions of
    concurrent actions commit in any order.  CreateDonation returns [false] and
    writes nothing when the ledger has a row for the address; otherwise it
    appends exactly one row and returns [true].  So [N >= 1] calls for an
    address the ledger does not hold yet, with whatever amounts and names,
    insert exactly one row: the first call returns [true], the others
    [false]. *)
Theorem donation_ledger_one_row_per_address :
  (forall calls address,
     (List.length (ledger_rows address (exec calls empty_world)) <= 1)%nat) /\
  (forall txs address,
     (List.length (filter (by_payment_id address)
                     (donations (fold_left commit txs empty_db))) <= 1)%nat) /\
  (forall d address amount_usd display_name message x,
     In x (donations d) -> Donation.payment_id x = address ->
     createDonationFromPayment address amount_usd display_name message d = (d, Ok false)) /\
  (forall d address amount_usd display_name message,
     (forall x, In x (donations d) -> Donation.payment_id x <> address) ->
     exists d',
       createDonationFromPayment address amount_usd display_name message d = (d', Ok true) /\
       donations d' =
         donations d ++ [Donation.mk (next_id d) amount_usd address display_name bitcoin message] /\
       pending_bitcoin_payments d' = pending_bitcoin_payments d /\
       bitcoin_config d' = bitcoin_config d) /\
  (forall d address args,
     (forall x, In x (donations d) -> Donation.payment_id x <> address) ->
     args <> [] ->
     exists d' row,
       donation_calls address args d = (true :: repeat false (List.length args - 1), d') /\
       donations d' = donations d ++ [row] /\
       Donation.payment_id row = address /\
       List.length (filter (by_payment_id address) (donations d')) = 1%nat).
Proof.
  split; [|split; [|split; [|split]]].
  - intros calls address. unfold ledger_rows.
    apply unique_rows_le_1. apply ledger_unique_reachable.
  - intros txs address. apply unique_rows_le_1.
    apply ledger_unique_commits. constructor.
  - intros d address u n m x Hin Hp.
    destruct (find_by_payment_id_in _ _ _ Hin Hp) as [y F].
    exact (createDonation_existing _ _ _ _ _ _ F).
  - intros d address u n m Habs.
    pose proof (find_by_payment_id_absent _ _ Habs) as F.
    rewrite (createDonation_fresh _ _ _ _ _ F).
    eexists; split; [reflexivity|]. simpl. auto.
  - intros d address args Habs Hne.
    destruct args as [|[[u n] m] args]; [congruence|]. simpl.
    pose proof (find_by_payment_id_absent _ _ Habs) as F.
    rewrite (createDonation_fresh _ _ _ _ _ F).
    set (row := Donation.mk (next_id d) u address n bitcoin m).
    set (d1 := fresh_id (with_donations (fun t => t ++ [row]) d)).
    assert (F1 : find (by_payment_id address) (donations d1) = Some row).
    { subst d1. simpl. rewrite find_app_single, F. unfold by_payment_id. simpl.
      rewrite String.eqb_refl. reflexivity. }
    rewrite (donation_calls_existing address args d1 row F1).
    exists d1, row. rewrite Nat.sub_0_r.
    split; [reflexivity|]. split; [reflexivity|]. split; [reflexivity|].
    subst d1. simpl. rewrite filter_app. simpl.
    assert (filter (by_payment_id address) (donations d) = []) as ->.
    { destruct (filter (by_payment_id address) (donations d)) as [|y t] eqn:E; [reflexivity|].
      exfalso. assert (In y (filter (by_payment_id address) (donations d))) as Hy
        by (rewrite E; left; reflexivity).
      apply filter_In in Hy. destruct Hy as [Hy1 Hy2].
      apply (Habs y Hy1). apply String.eqb_eq. exact Hy2. }
    unfold by_payment_id. simpl. rewrite String.eqb_refl. reflexivity.
Qed.

(** ** The derivation counter *)

Lemma find_map_stable {A} (f : A -> bool) (g : A -> A) l x :
  (forall y, f (g y) = f y) ->
  find f l = Some x -> find f (map g l) = Some (g x).
Proof.
  intros Hg. induction l as [|y l IH]; simpl; intros H; [discriminate|].
  rewrite Hg. destruct (f y); [congruence | auto].
Qed.

Lemma find_map_none {A} (f : A -> bool) (g : A -> A) l :
  (forall y, f (g y) = f y) ->
  find f l = None -> find f (map g l) = None.
Proof.
  intros Hg. induction l as [|y l IH]; simpl; intros H; [reflexivity|].
  rewrite Hg. destruct (f y); [discriminate | auto].
Qed.

Lemma getNext_first d :
  counter d = None ->
  exists d', getNextDerivationIndex d = (d', Ok 0) /\ counter d' = Some 1 /\
             pending_bitcoin_payments d' = pending_bitcoin_payments d /\
             donations d' = donations d.
Proof.
  unfold counter, getNextDerivationIndex. intros H.
  destruct (find (by_key "next_derivation_index") (bitcoin_config d)) eqn:F; [discriminate|].
  eexists; split; [reflexivity|]. simpl.
  rewrite find_app_single, F. simpl. auto.
Qed.

Lemma getNext_next d c :
  counter d = Some c ->
  exists d', getNextDerivationIndex d = (d', Ok c) /\ counter d' = Some (c + 1) /\
             pending_bitcoin_payments d' = pending_bitcoin_payments d /\
             donations d' = donations d /\ next_id d' = next_id d.
Proof.
  unfold counter, getNextDerivationIndex. intros H.
  destruct (find (by_key "next_derivation_index") (bitcoin_config d)) as [config|] eqn:F;
    [|discriminate].
  injection H as H. rewrite H.
  eexists; split; [reflexivity|]. simpl. split; [|auto].
  erewrite find_map_stable; [| |exact F].
  - simpl. rewrite Nat.eqb_refl. reflexivity.
  - intros y. unfold by_key. destruct (Nat.eqb _ _); reflexivity.
Qed.

(** Whatever the state, a call returns [next_index] and moves it up by one. *)
Lemma getNext_spec d :
  exists d', getNextDerivationIndex d = (d', Ok (next_index d)) /\
             next_index d' = next_index d + 1 /\
             counter d' = Some (next_index d + 1) /\
             pending_bitcoin_payments d' = pending_bitcoin_payments d /\
             donations d' = donations d.
Proof.
  unfold next_index. destruct (counter d) as [c|] eqn:C.
  - destruct (getNext_next d c C) as (d' & E & C' & P & D & _).
    exists d'. rewrite C'. auto.
  - destruct (getNext_first d C) as (d' & E & C' & P & D).
    exists d'. rewrite C'. auto.
Qed.



(** ** Postconditions, by symbolic execution *)

Lemma post_ret {S A} (a : A) (s : S) Q : Q s (Ok a) -> post (ret a) s Q.
Proof. exact (fun H => H). Qed.

Lemma post_throw {S A} e (s : S) (Q : S -> Result A -> Prop) :
  Q s (Throw e) -> post (throw e) s Q.
Proof. exact (fun H => H). Qed.

Lemma post_check {S} r (s : S) Q : Q s r -> post (check r) s Q.
Proof. exact (fun H => H). Qed.

Lemma post_bind {S A B} (m : M S A) (k : A -> M S B) s Q :
  post m s (fun s1 r => match r with
                        | Ok a => post (k a) s1 Q
                        | Throw e => Q s1 (Throw e)
                        end) ->
  post (bind m k) s Q.
Proof. unfold post, bind. destruct (m s) as [s1 [a|e]]; simpl; auto. Qed.

Lemma post_try_rethrow {S A} (m : M S A) h s Q :
  post m s (fun s1 r => Q s1 match r with
                             | Ok a => Ok a
                             | Throw e => Throw (h e)
                             end) ->
  post (try_rethrow m h) s Q.
Proof. unfold post, try_rethrow. destruct (m s) as [s1 [a|e]]; simpl; auto. Qed.

Lemma post_log e w Q :
  Q (mkWorld (db w) (scheduler w) (trace w ++ [e])) (Ok tt) -> post (log e) w Q.
Proof. exact (fun H => H). Qed.

Lemma post_runMutation {A} (m : M Db A) w Q :
  (forall d' r, m (db w) = (d', r) ->
     match r with
     | Ok a => Q (mkWorld d' (scheduler w) (trace w)) (Ok a)
     | Throw e => Q w (Throw e)
     end) ->
  post (runMutation m) w Q.
Proof.
  unfold post, runMutation. intros H.
  specialize (H (fst (m (db w))) (snd (m (db w)))).
  destruct (m (db w)) as [d' [a|e]]; simpl in *; auto.
Qed.

Lemma post_scheduler_runAfter env delay args w Q :
  Q (mkWorld (db w)
       (scheduler w ++ [mkJob (List.length (scheduler w)) (now env + delay) args])
       (trace w))
    (Ok (List.length (scheduler w))) ->
  post (scheduler_runAfter env delay args) w Q.
Proof. exact (fun H => H). Qed.

(** One step of symbolic execution. *)
Ltac wp_step :=
  lazymatch goal with
  | |- post (bind _ _) _ _ => apply post_bind
  | |- post (ret _) _ _ => apply post_ret
  | |- post (throw _) _ _ => apply post_throw
  | |- post (check _) _ _ => apply post_check
  | |- post (try_rethrow _ _) _ _ => apply post_try_rethrow
  | |- post (log _) _ _ => apply post_log
  | |- post (scheduler_runAfter _ _ _) _ _ => apply post_scheduler_runAfter
  | |- post (rateLimiter_limit _ _ _) _ _ => unfold rateLimiter_limit
  | |- post (getBtcPrice _) _ _ => unfold getBtcPrice
  | |- post (checkBlockchainPayment _ _) _ _ => unfold checkBlockchainPayment
  | |- post (derive _) _ _ => unfold derive
  | |- post (reschedule _ _) _ _ => unfold reschedule
  | |- post (attach_if_new _ _ _ _) _ _ => unfold attach_if_new
  | |- post (settle _ _ _) _ _ => unfold settle
  | |- post (runMutation _) _ _ =>
      apply post_runMutation; let d := fresh "d" in let r := fresh "r" in
                              let E := fresh "E" in
                              intros d r E; cbn [db scheduler trace] in E
  | |- post (match ?x with _ => _ end) _ _ => destruct x eqn:?
  | |- match ?r with Ok _ => _ | Throw _ => _ end => destruct r eqn:?
  end; cbv beta; cbn [db scheduler trace].

Lemma jobId_throw a j d d' e :
  updatePendingPaymentJobId a j d = (d', Throw e) -> d' = d.
Proof.
  unfold updatePendingPaymentJobId. destruct (find _ _); intros H; congruence.
Qed.

(** What GenerateAddress can do to the database: nothing; or take an index
    and stop (the derivation threw); or take an index, insert the row and
    record the job on it. *)
Lemma generate_db env amount s m w :
  post (generateBitcoinAddress env amount s m) w (fun w' _ =>
  db w' = db w \/
  (exists d1, getNextDerivationIndex (db w) = (d1, Ok (next_index (db w))) /\
     (db w' = d1 \/
      exists a p j,
        db w' = fst (updatePendingPaymentJobId a j
                       (fst (createPendingBitcoinPayment (now env) s a (amount / p)%Q amount p
                               (next_index (db w)) m d1)))))).
Proof.
  unfold generateBitcoinAddress.
  repeat wp_step.
  all: try (left; reflexivity).
  all: unfold checkExistingPaymentSession in E; injection E as <- _.
  all: try (left; reflexivity).
  all: destruct (getNext_spec (db w)) as (dn & G & _);
    right; exists dn; (split; [exact G|]); rewrite G in E0; inversion E0; subst; clear E0.
  all: try (left; reflexivity).
  all: right; exists s0, q, (List.length (scheduler w)); rewrite E1; cbn [fst].
  - rewrite E2. reflexivity.
  - rewrite E2. cbn [fst]. symmetry. exact (jobId_throw _ _ _ _ _ E2).
Qed.

















(** ** Single steps on one row *)

Lemma find_patch_pending a id f d p :
  (forall r, Pending.address (f r) = Pending.address r) ->
  find (by_address a) (pending_bitcoin_payments d) = Some p ->
  Pending._id p = id ->
  find (by_address a) (pending_bitcoin_payments (patch_pending id f d)) = Some (f p).
Proof.
  intros Hf H E. unfold patch_pending. simpl.
  erewrite find_map_stable; [| |exact H].
  - rewrite E, Nat.eqb_refl. reflexivity.
  - intros y. unfold by_address. destruct (Nat.eqb _ _); [rewrite Hf|]; reflexivity.
Qed.


(** C8 (as amended).  AttachTx on a row that is [initialized] or [pending]
    writes the transaction id, stamps [detected_at] with the current time
    and leaves the status [pending]; every other field of the row, the
    ledger and the counter are untouched.  On a row already [pending] with
    the same transaction id the status and the id stay as they are, but
    [detected_at] is written again: the row is unchanged only if it was
    stamped with this very time.  On a [confirmed] or [expired] row it
    returns null and writes nothing. *)
Theorem attach_tx_effect now address txid d p :
  find (by_address address) (pending_bitcoin_payments d) = Some p ->
  let r := updatePendingPaymentWithTx now address txid d in
  (Pending.status p = initialized \/ Pending.status p = pending ->
     r = (patch_pending (Pending._id p) (Pending.with_tx txid now pending) d,
          Ok (Some (Pending._id p))) /\
     find (by_address address) (pending_bitcoin_payments (fst r))
       = Some (Pending.with_tx txid now pending p) /\
     donations (fst r) = donations d /\
     bitcoin_config (fst r) = bitcoin_config d) /\
  (Pending.status p = pending -> Pending.txid p = Some txid ->
     find (by_address address) (pending_bitcoin_payments (fst r))
       = Some (Pending.mk (Pending._id p) (Pending.session_id p) (Pending.address p)
                 (Pending.expected_amount_btc p) (Pending.expected_amount_usd p)
                 (Pending.exchange_rate p) (Pending.derivation_index p)
                 (Pending.metadata p) (Pending.status p) (Pending.txid p)
                 (Some now) (Pending.scheduled_job_id p)
                 (Pending.created_at p) (Pending.expires_at p))) /\
  (Pending.status p = confirmed \/ Pending.status p = expired -> r = (d, Ok None)).
Proof.
  intros Hfind. cbv zeta. unfold updatePendingPaymentWithTx. rewrite Hfind.
  assert (Hpatch : forall s,
    find (by_address address)
      (pending_bitcoin_payments
         (patch_pending (Pending._id p) (Pending.with_tx txid now s) d))
    = Some (Pending.with_tx txid now s p)).
  { intros s. apply find_patch_pending; auto. }
  split; [|split].
  - intros [E | E]; rewrite E; cbn [Status_eqb negb andb fst]; auto.
  - intros E T. rewrite E. cbn [Status_eqb negb andb fst]. rewrite Hpatch.
    unfold Pending.with_tx. rewrite T. reflexivity.
  - intros [E | E]; rewrite E; reflexivity.
Qed.
(** ** Amount checks *)



(** What CreateDonation leaves behind, whichever way it goes. *)
Lemma createDonation_outcome a u n m d :
  exists d' created,
    createDonationFromPayment a u n m d = (d', Ok created) /\
    pending_bitcoin_payments d' = pending_bitcoin_payments d /\
    bitcoin_config d' = bitcoin_config d /\
    (exists x, In x (donations d') /\ Donation.payment_id x = a) /\
    (created = true <->
       forall x, In x (donations d) -> Donation.payment_id x <> a) /\
    donations d' =
      if created
      then donations d ++ [Donation.mk (next_id d) u a n bitcoin m]
      else donations d.
Proof.
  destruct (find (by_payment_id a) (donations d)) as [x|] eqn:F.
  - rewrite (createDonation_existing _ _ _ _ _ _ F).
    apply find_by_payment_id_some in F. destruct F as [F1 F2].
    exists d, false. repeat split; eauto; try discriminate.
    intros H. exfalso. exact (H x F1 F2).
  - rewrite (createDonation_fresh _ _ _ _ _ F).
    eexists; exists true. split; [reflexivity|]. simpl. repeat split; auto.
    + eexists; split; [apply in_or_app; right; left; reflexivity | reflexivity].
    + intros _ x Hx E. apply (find_by_payment_id_none _ _ F). rewrite <- E.
      apply in_map. exact Hx.
Qed.

Lemma settle_spec p address amount_btc w :
  find (by_address address) (pending_rows w) = Some p ->
  settle p address amount_btc w =
    (mkWorld
       (patch_pending (Pending._id p) (Pending.with_status confirmed)
          (fst (createDonationFromPayment address
                  (amount_btc * Pending.exchange_rate p)%Q
                  (getDisplayName (Pending.metadata p) "Anonymous")
                  (metadata_message (Pending.metadata p)) (db w))))
       (scheduler w) (trace w), Ok tt).
Proof.
  intros Hfind. unfold settle, bind, runMutation, ret.
  destruct (createDonation_outcome address (amount_btc * Pending.exchange_rate p)%Q
              (getDisplayName (Pending.metadata p) "Anonymous")
              (metadata_message (Pending.metadata p)) (db w))
    as (d' & created & E & P & _).
  rewrite E. cbn [db fst snd scheduler trace].
  unfold updatePendingPaymentStatus. rewrite P.
  unfold pending_rows in Hfind. rewrite Hfind. reflexivity.
Qed.
(** The monitor on a live row, in time, when the probe reports a
    transaction with enough confirmations. *)
Lemma monitor_paid env args w p tx_hash amount_btc confirmations :
  find (by_address (arg_address args)) (pending_rows w) = Some p ->
  Pending.status p = initialized \/ Pending.status p = pending ->
  now env <= Pending.expires_at p ->
  chain env = Probe.paid tx_hash amount_btc confirmations ->
  bitcoinConfirmations BITCOIN_NETWORK <= confirmations ->
  let w1 := mkWorld (db w) (scheduler w) (trace w ++ [ProbeCall (arg_address args)]) in
  monitorSinglePayment env args w =
    if Qlt_bool btcAmountTolerance (Qabs (amount_btc - arg_expected_amount_btc args))
       && Qlt_bool amount_btc (arg_expected_amount_btc args)
    then (mkWorld (patch_pending (Pending._id p) (Pending.with_status expired) (db w))
                  (scheduler w1) (trace w1), Ok tt)
    else settle p (arg_address args) amount_btc w1.
Proof.
  intros Hfind Hst Hexp Hchain Hconf. cbv zeta.
  unfold monitorSinglePayment, getPendingPaymentByAddressInternal,
    checkBlockchainPayment, log, modify, runMutation, bind, ret.
  unfold pending_rows in Hfind. cbn [db fst snd scheduler trace]. rewrite Hfind.
  assert (Hexp' : (Pending.expires_at p <? now env) = false) by (apply Z.ltb_ge; exact Hexp).
  assert (Hconf' : (confirmations <? bitcoinConfirmations BITCOIN_NETWORK) = false)
    by (apply Z.ltb_ge; exact Hconf).
  destruct Hst as [E | E]; rewrite E; cbn [Status_eqb]; rewrite Hexp', Hchain;
    cbn [db fst snd scheduler trace]; rewrite Hconf';
    destruct (Qlt_bool btcAmountTolerance _); cbn [andb]; try reflexivity;
    destruct (Qlt_bool amount_btc _); try reflexivity;
    unfold updatePendingPaymentStatus; cbn [db]; rewrite Hfind; reflexivity.
Qed.


(** ** GenerateAddress and its idempotency lookup *)


Lemma generate_existing env amount s m w btcPrice e :
  inputs_valid amount m -> limiter_admits env = true -> btc_price env = Some btcPrice ->
  existing_session (now env) s amount (db w) = Some e ->
  generateBitcoinAddress env amount s m w =
    (after_limiter_and_price s w,
     Ok (mkGenerated (existing_address e) (amount / btcPrice) amount btcPrice
                     (existing_derivation_index e))).
Proof.
  intros (V1 & V2 & V3) Hlim Hp He.
  unfold generateBitcoinAddress, rateLimiter_limit, getBtcPrice, log, modify, runMutation,
    try_rethrow, bind, check, ret, throw.
  rewrite V1, V2, V3, Hlim, Hp. cbn [db fst snd scheduler trace].
  unfold existing_session, checkExistingPaymentSession in *. cbn [snd] in He.
  cbn [fst snd]. rewrite He. reflexivity.
Qed.

Lemma jobId_after_insert now s address b u x i m j d :
  let d2 := fst (createPendingBitcoinPayment now s address b u x i m d) in
  exists id, updatePendingPaymentJobId address j d2
             = (patch_pending id (Pending.with_job j) d2, Ok id).
Proof.
  cbv zeta. unfold updatePendingPaymentJobId, createPendingBitcoinPayment.
  cbn [fst pending_bitcoin_payments fresh_id with_pending].
  rewrite find_app_single.
  destruct (find (by_address address) (pending_bitcoin_payments d)) as [y|].
  - eexists; reflexivity.
  - unfold by_address at 1. cbn [Pending.address]. rewrite String.eqb_refl.
    eexists; reflexivity.
Qed.

Lemma generate_new env amount s m w btcPrice address :
  inputs_valid amount m -> limiter_admits env = true -> btc_price env = Some btcPrice ->
  existing_session (now env) s amount (db w) = None ->
  deriveBip84Address BITCOIN_MASTER_KEY (next_index (db w)) BITCOIN_NETWORK = Some address ->
  let i := next_index (db w) in
  let job := List.length (scheduler w) in
  let d1 := fst (getNextDerivationIndex (db w)) in
  let d2 := fst (createPendingBitcoinPayment (now env) s address (amount / btcPrice)%Q
                   amount btcPrice i m d1) in
  let d3 := fst (updatePendingPaymentJobId address job d2) in
  generateBitcoinAddress env amount s m w =
    (mkWorld d3
       (scheduler w ++
          [mkJob job (now env + 10000) (mkMonitorArgs address (amount / btcPrice)%Q i)])
       (trace (after_limiter_and_price s w)),
     Ok (mkGenerated address (amount / btcPrice) amount btcPrice i)).
Proof.
  intros (V1 & V2 & V3) Hlim Hp He Hd. cbv zeta.
  unfold generateBitcoinAddress, rateLimiter_limit, getBtcPrice, derive, scheduler_runAfter,
    log, modify, runMutation, try_rethrow, bind, check, ret, throw.
  rewrite V1, V2, V3, Hlim, Hp. cbn [db fst snd scheduler trace].
  unfold existing_session, checkExistingPaymentSession in *. cbn [snd] in He.
  cbn [fst snd]. rewrite He. cbn [db fst snd scheduler trace].
  destruct (getNext_spec (db w)) as (d1 & G & _). rewrite G.
  cbn [db fst snd scheduler trace]. rewrite Hd.
  destruct (jobId_after_insert (now env) s address (amount / btcPrice)%Q amount btcPrice
              (next_index (db w)) m (List.length (scheduler w)) d1) as (id & J).
  cbv zeta in J. unfold createPendingBitcoinPayment in *.
  cbn [db fst snd scheduler trace] in *. rewrite J. reflexivity.
Qed.
Lemma existing_session_found now s amount d p :
  find (by_session_amount s amount) (pending_bitcoin_payments d) = Some p ->
  existing_session now s amount d =
    if now <? Pending.expires_at p
    then Some (mkExisting (Pending.address p) (Pending.derivation_index p))
    else None.
Proof.
  intros H. unfold existing_session, checkExistingPaymentSession. cbn [snd].
  rewrite H. reflexivity.
Qed.

Lemma existing_session_absent now s amount d :
  find (by_session_amount s amount) (pending_bitcoin_payments d) = None ->
  existing_session now s amount d = None.
Proof.
  intros H. unfold existing_session, checkExistingPaymentSession. cbn [snd].
  rewrite H. reflexivity.
Qed.

(** A patch that keeps the session, the amount, the address, the index and
    the expiry of every row does not change what the lookup answers. *)
Lemma existing_session_patch now s amount id f d :
  (forall r, Pending.session_id (f r) = Pending.session_id r /\
             Pending.expected_amount_usd (f r) = Pending.expected_amount_usd r /\
             Pending.address (f r) = Pending.address r /\
             Pending.derivation_index (f r) = Pending.derivation_index r /\
             Pending.expires_at (f r) = Pending.expires_at r) ->
  existing_session now s amount (patch_pending id f d) = existing_session now s amount d.
Proof.
  intros Hf.
  set (g := fun p => if Nat.eqb (Pending._id p) id then f p else p).
  assert (Hg : forall y, by_session_amount s amount (g y) = by_session_amount s amount y).
  { intros y. unfold g, by_session_amount. destruct (Nat.eqb _ _); [|reflexivity].
    destruct (Hf y) as (-> & -> & _). reflexivity. }
  destruct (find (by_session_amount s amount) (pending_bitcoin_payments d)) as [p|] eqn:F.
  - rewrite (existing_session_found _ _ _ _ _ F).
    rewrite (existing_session_found now s amount (patch_pending id f d) (g p)).
    + unfold g. destruct (Nat.eqb _ _); [|reflexivity].
      destruct (Hf p) as (_ & _ & -> & -> & ->). reflexivity.
    + unfold patch_pending. cbn [pending_bitcoin_payments with_pending].
      apply find_map_stable; assumption.
  - rewrite (existing_session_absent _ _ _ _ F).
    apply existing_session_absent.
    unfold patch_pending. cbn [pending_bitcoin_payments with_pending].
    apply find_map_none; assumption.
Qed.

(** C10. The idempotency lookup takes the first row of the (session,
    amount) index and tests only [expires_at > now]: patching the status of
    any row leaves its answer as it was, and a row found in time is
    returned whatever its status.  So after the client has moved its row to
    [expired] with MarkExpired, inside the 24-hour window, a repeat
    GenerateAddress for the same session and amount returns the address and
    derivation index of that expired row; nothing is written (no new row,
    the counter stays). *)
Theorem existing_session_ignores_status :
  (forall now session_id amount id status d,
     existing_session now session_id amount
       (patch_pending id (Pending.with_status status) d)
     = existing_session now session_id amount d) /\
  (forall now session_id amount d p,
     find (by_session_amount session_id amount) (pending_bitcoin_payments d) = Some p ->
     now < Pending.expires_at p ->
     existing_session now session_id amount d
     = Some (mkExisting (Pending.address p) (Pending.derivation_index p))) /\
  (forall env amount session_id metadata w p btcPrice,
     inputs_valid amount metadata ->
     limiter_admits env = true ->
     btc_price env = Some btcPrice ->
     find (by_address (Pending.address p)) (pending_rows w) = Some p ->
     find (by_session_amount session_id amount) (pending_rows w) = Some p ->
     Pending.status p = initialized ->
     now env < Pending.expires_at p ->
     let w1 := fst (runMutation (markPaymentExpired (Pending.address p) session_id) w) in
     find (by_address (Pending.address p)) (pending_rows w1)
       = Some (Pending.with_status expired p) /\
     generateBitcoinAddress env amount session_id metadata w1 =
       (after_limiter_and_price session_id w1,
        Ok (mkGenerated (Pending.address p) (amount / btcPrice) amount btcPrice
                        (Pending.derivation_index p)))).
Proof.
  split; [|split].
  - intros. apply existing_session_patch. intros r. repeat split.
  - intros now s amount d p F Hlt. rewrite (existing_session_found _ _ _ _ _ F).
    apply Z.ltb_lt in Hlt. rewrite Hlt. reflexivity.
  - intros env amount s m w p btcPrice Hv Hlim Hp Ha Hs Hst Hlt. cbv zeta.
    unfold pending_rows in *.
    assert (Hsess : Pending.session_id p = s).
    { apply find_some in Hs. destruct Hs as [_ Hs]. unfold by_session_amount in Hs.
      apply andb_true_iff in Hs. destruct Hs as [Hs _]. apply String.eqb_eq. exact Hs. }
    assert (E : fst (runMutation (markPaymentExpired (Pending.address p) s) w) =
                mkWorld (patch_pending (Pending._id p) (Pending.with_status expired) (db w))
                        (scheduler w) (trace w)).
    { unfold runMutation, markPaymentExpired. rewrite Ha, Hsess, String.eqb_refl, Hst.
      reflexivity. }
    rewrite E. cbn [db]. split.
    + apply find_patch_pending; auto.
    + apply (generate_existing env amount s m _ btcPrice
                (mkExisting (Pending.address p) (Pending.derivation_index p))); auto.
      cbn [db].
      rewrite existing_session_patch by (intros r; repeat split).
      rewrite (existing_session_found _ _ _ _ _ Hs).
      apply Z.ltb_lt in Hlt. rewrite Hlt. reflexivity.
Qed.


(** ** The median of the quoted prices *)






















(** ** Terminal statuses *)















Lemma setStatus_returns a s d d' e :
  updatePendingPaymentStatus a s d = (d', Throw e) -> False.
Proof. unfold updatePendingPaymentStatus. destruct (find _ _); discriminate. Qed.

Lemma withTx_returns now a t d d' e :
  updatePendingPaymentWithTx now a t d = (d', Throw e) -> False.
Proof.
  unfold updatePendingPaymentWithTx.
  destruct (find _ _); [destruct (_ && _)|]; discriminate.
Qed.

Lemma createDonation_returns a u n m d d' e :
  createDonationFromPayment a u n m d = (d', Throw e) -> False.
Proof. unfold createDonationFromPayment. destruct (find _ _); discriminate. Qed.

(** What one monitor invocation can do to the database: nothing; or, having
    found a row that is neither [confirmed] nor [expired], expire it, attach
    a transaction to it, or create the donation and confirm it. *)
Lemma monitor_db env args w :
  post (monitorSinglePayment env args) w (fun w' _ =>
    db w' = db w \/
    exists p,
      find (by_address (arg_address args)) (pending_bitcoin_payments (db w)) = Some p /\
      Pending.status p <> confirmed /\ Pending.status p <> expired /\
      (db w' = fst (updatePendingPaymentStatus (arg_address args) expired (db w)) \/
       (exists tx, db w' = fst (updatePendingPaymentWithTx (now env) (arg_address args) tx (db w))) \/
       (exists u n m,
          db w' = fst (updatePendingPaymentStatus (arg_address args) confirmed
                         (fst (createDonationFromPayment (arg_address args) u n m (db w))))))).
Proof.
  unfold monitorSinglePayment.
  repeat wp_step.
  all: unfold getPendingPaymentByAddressInternal in E; inversion E; subst; clear E.
  all: try (left; reflexivity).
  all: try (exfalso; eapply setStatus_returns; eassumption).
  all: try (exfalso; eapply withTx_returns; eassumption).
  all: try (exfalso; eapply createDonation_returns; eassumption).
  all: right;
    match goal with
    | H : find _ _ = Some ?t |- _ => exists t; split; [exact H|]
    end;
    (split; [intros X; rewrite X in *; discriminate|]);
    (split; [intros X; rewrite X in *; discriminate|]).
  all: try (left; rewrite E0; reflexivity).
  all: try (right; left; eexists; rewrite E0; reflexivity).
  all: right; right; do 3 eexists; rewrite E0; cbn [fst]; rewrite E1; reflexivity.
Qed.


Lemma ids_fresh_patch id f d :
  (forall p, Pending._id (f p) = Pending._id p) ->
  ids_fresh d -> ids_fresh (patch_pending id f d).
Proof.
  intros Hid [Hn Hb]. unfold ids_fresh, patch_pending.
  cbn [pending_bitcoin_payments with_pending next_id].
  assert (E : map Pending._id
                (map (fun p => if Nat.eqb (Pending._id p) id then f p else p)
                   (pending_bitcoin_payments d))
              = map Pending._id (pending_bitcoin_payments d)).
  { rewrite map_map. apply map_ext. intros p. destruct (Nat.eqb _ _); auto. }
  split; [rewrite E; exact Hn|].
  intros r Hr. apply in_map_iff in Hr. destruct Hr as (r0 & <- & Hr0).
  destruct (Nat.eqb _ _); [rewrite Hid|]; apply Hb; exact Hr0.
Qed.

Lemma NoDup_map_filter {A B} (g : A -> B) (f : A -> bool) l :
  NoDup (map g l) -> NoDup (map g (filter f l)).
Proof.
  hide_config.
  induction l as [|x l IH]; simpl; intros H; [constructor|].
  inversion H as [|? ? Hn Hd]; subst.
  destruct (f x); simpl; [constructor|]; auto.
  intros Hin. apply Hn. apply in_map_iff in Hin. destruct Hin as (y & <- & Hy).
  apply filter_In in Hy. apply in_map. tauto.
Qed.

Lemma ids_fresh_delete id d : ids_fresh d -> ids_fresh (delete_pending id d).
Proof.
  hide_config.
  intros [Hn Hb]. unfold ids_fresh, delete_pending.
  cbn [pending_bitcoin_payments with_pending next_id].
  split; [apply NoDup_map_filter; exact Hn|].
  intros r Hr. apply filter_In in Hr. apply Hb. tauto.
Qed.

Lemma ids_fresh_pending_same d d' :
  pending_bitcoin_payments d' = pending_bitcoin_payments d ->
  (next_id d <= next_id d')%nat ->
  ids_fresh d -> ids_fresh d'.
Proof.
  intros P N [Hn Hb]. unfold ids_fresh. rewrite P. split; [exact Hn|].
  intros r Hr. specialize (Hb r Hr). lia.
Qed.

Lemma ids_fresh_getNext : preserves ids_fresh getNextDerivationIndex.
Proof.
  intros d H. unfold getNextDerivationIndex.
  destruct (find _ _); (eapply ids_fresh_pending_same; [| |exact H]); simpl; auto.
Qed.

Lemma ids_fresh_createPending now sid a b u x i m :
  preserves ids_fresh (createPendingBitcoinPayment now sid a b u x i m).
Proof.
  hide_config.
  intros d [Hn Hb]. unfold ids_fresh. simpl. split.
  - rewrite map_app. simpl. apply NoDup_app; [exact Hn | repeat constructor; simpl; tauto|].
    intros y Hy [<- | []]. apply in_map_iff in Hy. destruct Hy as (r & E & Hr).
    specialize (Hb r Hr). lia.
  - intros r Hr. apply in_app_or in Hr. destruct Hr as [Hr | [<- | []]].
    + specialize (Hb r Hr). lia.
    + simpl. lia.
Qed.

Lemma ids_fresh_jobId a j : preserves ids_fresh (updatePendingPaymentJobId a j).
Proof.
  intros d H. unfold updatePendingPaymentJobId.
  destruct (find _ _); [|exact H]. simpl. apply ids_fresh_patch; auto.
Qed.

Lemma ids_fresh_withTx now a t : preserves ids_fresh (updatePendingPaymentWithTx now a t).
Proof.
  intros d H. unfold updatePendingPaymentWithTx.
  destruct (find _ _); [|exact H]. destruct (_ && _); [exact H|].
  simpl. apply ids_fresh_patch; auto.
Qed.

Lemma ids_fresh_setStatus a s : preserves ids_fresh (updatePendingPaymentStatus a s).
Proof.
  intros d H. unfold updatePendingPaymentStatus.
  destruct (find _ _); [|exact H]. simpl. apply ids_fresh_patch; auto.
Qed.

Lemma ids_fresh_markExpired a s : preserves ids_fresh (markPaymentExpired a s).
Proof.
  intros d H. unfold markPaymentExpired.
  destruct (find _ _); [|exact H]. destruct (negb _); [exact H|].
  destruct (Status_eqb _ _); [|exact H]. simpl. apply ids_fresh_patch; auto.
Qed.

Lemma ids_fresh_createDonation a u n m :
  preserves ids_fresh (createDonationFromPayment a u n m).
Proof.
  intros d H. unfold createDonationFromPayment.
  destruct (find _ _); [exact H|].
  eapply ids_fresh_pending_same; [| |exact H]; simpl; auto.
Qed.

Lemma ids_fresh_create amount n pid method m :
  preserves ids_fresh (create amount n pid method m).
Proof.
  unfold create. repeat preserves_step.
  intros d H. destruct (find _ _); [exact H|].
  eapply ids_fresh_pending_same; [| |exact H]; simpl; auto.
Qed.

Lemma ids_fresh_patch_each f rows d :
  (forall p, Pending._id (f p) = Pending._id p) ->
  ids_fresh d -> ids_fresh (patch_each f rows d).
Proof.
  intros Hid. unfold patch_each. revert d.
  induction rows as [|r rows IH]; simpl; intros d H; [exact H|].
  apply IH. apply ids_fresh_patch; assumption.
Qed.

Lemma ids_fresh_delete_each rows d : ids_fresh d -> ids_fresh (delete_each rows d).
Proof.
  unfold delete_each. revert d.
  induction rows as [|r rows IH]; simpl; intros d H; [exact H|].
  apply IH. apply ids_fresh_delete. exact H.
Qed.

Lemma ids_fresh_cleanup now : preserves ids_fresh (cleanupExpiredPendingPayments now).
Proof.
  intros d H. unfold cleanupExpiredPendingPayments. cbn [fst].
  repeat first [ apply ids_fresh_delete_each | apply ids_fresh_patch_each ]; auto.
Qed.

Lemma ids_fresh_run env op w :
  on_db ids_fresh w -> on_db ids_fresh (run env op w).
Proof.
  intros Hw. destruct op; cbn [run].
  - apply preserves_generate;
      auto using ids_fresh_getNext, ids_fresh_createPending, ids_fresh_jobId.
  - apply preserves_check_payment;
      auto using ids_fresh_setStatus, ids_fresh_createDonation.
  - apply preserves_monitor;
      auto using ids_fresh_setStatus, ids_fresh_withTx, ids_fresh_createDonation.
  - apply (preserves_runMutation ids_fresh); auto using ids_fresh_markExpired.
  - apply (preserves_runMutation ids_fresh); auto using ids_fresh_cleanup.
  - apply (preserves_runMutation ids_fresh); auto using ids_fresh_create.
Qed.

Lemma ids_fresh_reachable calls : ids_fresh (db (exec calls empty_world)).
Proof.
  apply (exec_invariant (on_db ids_fresh)).
  - exact ids_fresh_run.
  - split; [constructor | intros r []].
Qed.

Lemma ids_fresh_kept d r :
  ids_fresh d -> In r (pending_bitcoin_payments d) ->
  kept (Pending._id r) (Pending.status r) d.
Proof.
  intros [Hn Hb] Hr. split; [apply Hb; exact Hr|].
  intros r' Hr' E.
  assert (r' = r); [|congruence].
  clear Hb. induction (pending_bitcoin_payments d) as [|x l IH]; [destruct Hr|].
  simpl in Hn. inversion Hn as [|? ? Hx Hl]; subst.
  destruct Hr as [-> | Hr], Hr' as [-> | Hr']; auto.
  - exfalso. apply Hx. rewrite <- E. apply in_map. exact Hr'.
  - exfalso. apply Hx. rewrite E. apply in_map. exact Hr.
Qed.


(** * Further properties of the backend *)

(** ** CheckPayment before it settles *)

Lemma validateSession_state now s a d : fst (validateSessionOwnsAddress now s a d) = d.
Proof. reflexivity. Qed.

(** CheckPayment refuses a malformed address, an address with no row, an
    address owned by another session and an [initialized] row at or past
    its expiry before it consults the rate limiter or an explorer: the
    wrapped error is thrown and the database, the scheduler and the trace of
    outside calls are as they were.  A row that has left [initialized]
    passes the ownership check at any time. *)
Theorem check_payment_refused_before_any_call env address session_id expected metadata w :
  (forall e, validateBitcoinAddress address BITCOIN_NETWORK = Throw e ->
     checkBitcoinPayment env address session_id expected metadata w
     = (w, Throw (FailedToCheck e))) /\
  (forall e, validateBitcoinAddress address BITCOIN_NETWORK = Ok tt ->
     snd (validateSessionOwnsAddress (now env) session_id address (db w)) = Throw e ->
     checkBitcoinPayment env address session_id expected metadata w
     = (w, Throw (FailedToCheck e))) /\
  (find (by_address address) (pending_rows w) = None ->
     snd (validateSessionOwnsAddress (now env) session_id address (db w))
     = Throw AddressNotFound) /\
  (forall p, find (by_address address) (pending_rows w) = Some p ->
     Pending.session_id p <> session_id ->
     snd (validateSessionOwnsAddress (now env) session_id address (db w))
     = Throw SessionDoesNotOwn) /\
  (forall p, find (by_address address) (pending_rows w) = Some p ->
     Pending.session_id p = session_id ->
     Pending.status p = initialized -> Pending.expires_at p <= now env ->
     snd (validateSessionOwnsAddress (now env) session_id address (db w))
     = Throw SessionExpired) /\
  (forall p, find (by_address address) (pending_rows w) = Some p ->
     Pending.session_id p = session_id ->
     Pending.status p <> initialized \/ now env < Pending.expires_at p ->
     snd (validateSessionOwnsAddress (now env) session_id address (db w)) = Ok true).
Proof.
  unfold pending_rows.
  split; [|split; [|split; [|split; [|split]]]].
  - intros e V. unfold checkBitcoinPayment, try_rethrow, bind, check. rewrite V.
    reflexivity.
  - intros e V S. unfold checkBitcoinPayment, try_rethrow, bind, check, runMutation.
    rewrite V.
    destruct (validateSessionOwnsAddress (now env) session_id address (db w)) as [d [b|e']];
      cbn [snd] in S; [discriminate|].
    injection S as ->. reflexivity.
  - intros F. unfold validateSessionOwnsAddress. rewrite F. reflexivity.
  - intros p F N. unfold validateSessionOwnsAddress. rewrite F. cbn [snd].
    destruct (String.eqb_spec (Pending.session_id p) session_id); [contradiction|].
    reflexivity.
  - intros p F E St Ex. unfold validateSessionOwnsAddress. rewrite F. cbn [snd].
    rewrite E, String.eqb_refl, St. cbn [negb Status_eqb andb].
    destruct (Z.leb_spec (Pending.expires_at p) (now env)); [reflexivity|lia].
  - intros p F E H. unfold validateSessionOwnsAddress. rewrite F. cbn [snd].
    rewrite E, String.eqb_refl. cbn [negb].
    destruct H as [H|H].
    + destruct (Pending.status p); try contradiction; reflexivity.
    + destruct (Z.leb_spec (Pending.expires_at p) (now env)); [lia|].
      rewrite andb_false_r. reflexivity.
Qed.

(** Unless the probe reports a transaction with the required number of
    confirmations, CheckPayment writes nothing: the database and the
    scheduler are as they were, the price service is not asked, and a call
    that returns reports what the probe saw ([paid: false] for no answer or
    no payment, otherwise the transaction with its confirmation count). *)
Theorem check_payment_reports_without_settling env address session_id expected metadata w :
  undecided (chain env) = true ->
  let r := checkBitcoinPayment env address session_id expected metadata w in
  db (fst r) = db w /\
  scheduler (fst r) = scheduler w /\
  ~ In PriceCall (skipn (List.length (trace w)) (trace (fst r))) /\
  (forall res, snd r = Ok res ->
     res = match chain env with
           | Probe.api_failed | Probe.no_payment => NotPaid
           | Probe.pending tx_hash amount_btc confirmations
           | Probe.paid tx_hash amount_btc confirmations =>
               Paid tx_hash amount_btc confirmations (bitcoinConfirmations BITCOIN_NETWORK)
           end).
Proof.
  intros U. cbv zeta.
  change (post (checkBitcoinPayment env address session_id expected metadata) w
            (fun w' r =>
               db w' = db w /\ scheduler w' = scheduler w /\
               ~ In PriceCall (skipn (List.length (trace w)) (trace w')) /\
               (forall res, r = Ok res ->
                  res = match chain env with
                        | Probe.api_failed | Probe.no_payment => NotPaid
                        | Probe.pending tx_hash amount_btc confirmations
                        | Probe.paid tx_hash amount_btc confirmations =>
                            Paid tx_hash amount_btc confirmations
                                 (bitcoinConfirmations BITCOIN_NETWORK)
                        end))).
  assert (T0 : ~ In PriceCall (skipn (List.length (trace w)) (trace w))).
  { rewrite skipn_all. intros []. }
  assert (T1 : forall e1 : Event, e1 <> PriceCall ->
            ~ In PriceCall (skipn (List.length (trace w)) (trace w ++ [e1]))).
  { intros e1 Ha. rewrite skipn_app, skipn_all, Nat.sub_diag. cbn.
    intros [H|[]]; apply Ha; exact H. }
  assert (T2 : forall e1 e2 : Event, e1 <> PriceCall -> e2 <> PriceCall ->
            ~ In PriceCall (skipn (List.length (trace w)) ((trace w ++ [e1]) ++ [e2]))).
  { intros e1 e2 Ha Hb. rewrite <- app_assoc, skipn_app, skipn_all, Nat.sub_diag. cbn.
    intros [H|[H|[]]]; [apply Ha|apply Hb]; exact H. }
  unfold checkBitcoinPayment.
  repeat wp_step.
  all: try (unfold validateSessionOwnsAddress in E; injection E as <- _).
  all: try match goal with
           | H : chain _ = Probe.paid _ _ _, H' : negb (_ <=? _) = false |- _ =>
               exfalso; cbn [undecided] in U;
               apply Z.ltb_lt in U; apply negb_false_iff in H'; apply Z.leb_le in H';
               clear - U H'; lia
           end.
  all: repeat split; auto; try (apply T1; discriminate); try (apply T2; discriminate).
  all: try (intros res H; congruence).
Qed.

(** ** The life of a monitor job *)

Lemma withTx_live now a tx d p :
  find (by_address a) (pending_bitcoin_payments d) = Some p ->
  Pending.status p = initialized \/ Pending.status p = pending ->
  updatePendingPaymentWithTx now a tx d =
    (patch_pending (Pending._id p) (Pending.with_tx tx now pending) d,
     Ok (Some (Pending._id p))).
Proof.
  intros F St. unfold updatePendingPaymentWithTx. rewrite F.
  destruct St as [E|E]; rewrite E; reflexivity.
Qed.


Lemma attach_if_new_live env p a tx w :
  find (by_address a) (pending_rows w) = Some p ->
  Pending.status p = initialized \/ Pending.status p = pending ->
  let r := attach_if_new env p a tx w in
  snd r = Ok tt /\
  scheduler (fst r) = scheduler w /\
  trace (fst r) = trace w /\
  donations (db (fst r)) = donations (db w) /\
  exists p',
    find (by_address a) (pending_rows (fst r)) = Some p' /\
    (Pending.status p' = initialized \/ Pending.status p' = pending).
Proof.
  intros F St. unfold pending_rows in *. cbv zeta.
  assert (W : runMutation (updatePendingPaymentWithTx (now env) a tx) w
              = (mkWorld (patch_pending (Pending._id p)
                            (Pending.with_tx tx (now env) pending) (db w))
                         (scheduler w) (trace w), Ok (Some (Pending._id p)))).
  { unfold runMutation. rewrite (withTx_live _ _ _ _ _ F St). reflexivity. }
  assert (F' : find (by_address a)
                 (pending_bitcoin_payments
                    (patch_pending (Pending._id p)
                       (Pending.with_tx tx (now env) pending) (db w)))
               = Some (Pending.with_tx tx (now env) pending p)).
  { apply find_patch_pending; auto. }
  unfold attach_if_new.
  destruct (Pending.txid p) as [t|].
  - destruct (String.eqb t tx).
    + unfold ret. cbn [fst snd db scheduler trace]. repeat split; auto.
      exists p. auto.
    + unfold bind, ret. rewrite W. cbn [fst snd db scheduler trace]. repeat split; auto.
      exists (Pending.with_tx tx (now env) pending p). auto.
  - unfold bind, ret. rewrite W. cbn [fst snd db scheduler trace]. repeat split; auto.
    exists (Pending.with_tx tx (now env) pending p). auto.
Qed.

(** The monitor on a live row: the probe is made, and what follows depends
    on its answer. *)
Lemma monitor_live env args w p :
  find (by_address (arg_address args)) (pending_rows w) = Some p ->
  Pending.status p = initialized \/ Pending.status p = pending ->
  now env <= Pending.expires_at p ->
  undecided (chain env) = true ->
  let w1 := mkWorld (db w) (scheduler w) (trace w ++ [ProbeCall (arg_address args)]) in
  monitorSinglePayment env args w =
    match chain env with
    | Probe.api_failed | Probe.no_payment => reschedule env args w1
    | Probe.pending tx_hash _ _ | Probe.paid tx_hash _ _ =>
        (attach_if_new env p (arg_address args) tx_hash ;; reschedule env args)%action w1
    end.
Proof.
  intros F St Ex U. cbv zeta.
  assert (Hexp : (Pending.expires_at p <? now env) = false) by (apply Z.ltb_ge; exact Ex).
  unfold monitorSinglePayment, getPendingPaymentByAddressInternal, checkBlockchainPayment,
    log, modify, runMutation.
  unfold bind at 1. unfold pending_rows in F. cbn [db fst snd scheduler trace].
  rewrite F.
  destruct St as [E|E]; rewrite E; cbn [Status_eqb]; rewrite Hexp;
    unfold bind at 1; unfold bind at 1; unfold ret at 1; cbn [db fst snd scheduler trace];
    destruct (chain env) as [| |tx a c|tx a c]; try reflexivity;
    cbn [undecided] in U; rewrite U; reflexivity.
Qed.

(** While the probe settles nothing, a monitor job on a live row schedules
    its follow-up and leaves the ledger and the openness of the row. *)
Lemma monitor_undecided_effect env args w p :
  find (by_address (arg_address args)) (pending_rows w) = Some p ->
  Pending.status p = initialized \/ Pending.status p = pending ->
  now env <= Pending.expires_at p ->
  undecided (chain env) = true ->
  let r := monitorSinglePayment env args w in
  snd r = Ok tt /\
  trace (fst r) = trace w ++ [ProbeCall (arg_address args)] /\
  scheduler (fst r)
  = scheduler w ++ [mkJob (List.length (scheduler w)) (now env + 10000) args] /\
  donations (db (fst r)) = donations (db w) /\
  exists p', find (by_address (arg_address args)) (pending_rows (fst r)) = Some p' /\
             (Pending.status p' = initialized \/ Pending.status p' = pending).
Proof.
  intros F St Ex U. cbv zeta.
  set (w1 := mkWorld (db w) (scheduler w) (trace w ++ [ProbeCall (arg_address args)])).
  assert (F1 : find (by_address (arg_address args)) (pending_rows w1) = Some p) by exact F.
  rewrite (monitor_live env args w p F St Ex U). fold w1.
  assert (R : forall w2, reschedule env args w2
              = (mkWorld (db w2)
                   (scheduler w2 ++
                      [mkJob (List.length (scheduler w2)) (now env + 10000) args])
                   (trace w2), Ok tt)) by reflexivity.
  assert (A : forall tx,
             let r := (attach_if_new env p (arg_address args) tx ;;
                       reschedule env args)%action w1 in
             snd r = Ok tt /\
             trace (fst r) = trace w ++ [ProbeCall (arg_address args)] /\
             scheduler (fst r)
             = scheduler w ++ [mkJob (List.length (scheduler w)) (now env + 10000) args] /\
             donations (db (fst r)) = donations (db w) /\
             exists p', find (by_address (arg_address args)) (pending_rows (fst r))
                        = Some p' /\
                        (Pending.status p' = initialized \/ Pending.status p' = pending)).
  { intros tx. cbv zeta.
    destruct (attach_if_new_live env p (arg_address args) tx w1 F1 St)
      as (A1 & A2 & A3 & A4 & p' & A5 & A6).
    unfold bind.
    destruct (attach_if_new env p (arg_address args) tx w1) as [w2 res].
    cbn [fst snd] in *. rewrite A1, R. cbn [fst snd db scheduler trace].
    rewrite A2, A3. repeat split; auto. exists p'. auto. }
  destruct (chain env) as [| |tx a c|tx a c].
  1-2: rewrite R; cbn [fst snd db scheduler trace]; repeat split; auto;
    exists p; auto.
  1-2: destruct (A tx) as (A1 & A2 & A3 & A4 & A5); auto.
Qed.

(** A monitor job, from its start to its end.  When the row of its address
    is gone, [confirmed] or [expired], the job does nothing at all: no
    probe, no write, no follow-up.  When the row is [initialized] or
    [pending] and not past its expiry, the job probes the chain once; while
    the probe settles nothing (no answer, no payment, a transaction with too
    few confirmations) it schedules exactly one follow-up, ten seconds
    later and with its own arguments, leaves the ledger as it was and the
    row [initialized] or [pending]; once the probe reports enough
    confirmations it schedules nothing and leaves the row [confirmed] or
    [expired]. *)
Theorem monitor_job_lifecycle env args w :
  let address := arg_address args in
  let r := monitorSinglePayment env args w in
  (find (by_address address) (pending_rows w) = None -> r = (w, Ok tt)) /\
  (forall p, find (by_address address) (pending_rows w) = Some p ->
     terminal (Pending.status p) -> r = (w, Ok tt)) /\
  (forall p, find (by_address address) (pending_rows w) = Some p ->
     Pending.status p = initialized \/ Pending.status p = pending ->
     now env <= Pending.expires_at p ->
     snd r = Ok tt /\
     trace (fst r) = trace w ++ [ProbeCall address] /\
     if undecided (chain env)
     then scheduler (fst r)
          = scheduler w ++ [mkJob (List.length (scheduler w)) (now env + 10000) args] /\
          donations (db (fst r)) = donations (db w) /\
          exists p', find (by_address address) (pending_rows (fst r)) = Some p' /\
                     (Pending.status p' = initialized \/ Pending.status p' = pending)
     else scheduler (fst r) = scheduler w /\
          exists p', find (by_address address) (pending_rows (fst r)) = Some p' /\
                     terminal (Pending.status p')).
Proof.
  cbv zeta. split; [|split].
  - intros F. unfold monitorSinglePayment, getPendingPaymentByAddressInternal,
      runMutation, bind, ret. unfold pending_rows in F. cbn [db fst snd]. rewrite F.
    destruct w; reflexivity.
  - intros p F T. unfold monitorSinglePayment, getPendingPaymentByAddressInternal,
      runMutation, bind, ret. unfold pending_rows in F. cbn [db fst snd]. rewrite F.
    destruct T as [E|E]; rewrite E; destruct w; reflexivity.
  - intros p F St Ex.
    set (w1 := mkWorld (db w) (scheduler w) (trace w ++ [ProbeCall (arg_address args)])).
    assert (F1 : find (by_address (arg_address args)) (pending_rows w1) = Some p) by exact F.
    destruct (undecided (chain env)) eqn:U.
    + destruct (monitor_undecided_effect env args w p F St Ex U)
        as (A1 & A2 & A3 & A4 & A5). auto.
    + destruct (chain env) as [| |tx a c|tx a c] eqn:Hc; try discriminate.
      cbn [undecided] in U. apply Z.ltb_ge in U.
      rewrite (monitor_paid env args w p tx a c F St Ex Hc U). fold w1.
      destruct (Qlt_bool btcAmountTolerance (Qabs (a - arg_expected_amount_btc args))
                && Qlt_bool a (arg_expected_amount_btc args)).
      * cbn [fst snd db scheduler trace]. repeat split; auto.
        exists (Pending.with_status expired p). split; [|right; reflexivity].
        apply find_patch_pending; auto.
      * rewrite (settle_spec p (arg_address args) a w1 F1).
        cbn [fst snd db scheduler trace]. repeat split; auto.
        exists (Pending.with_status confirmed p). split; [|left; reflexivity].
        destruct (createDonation_outcome (arg_address args)
                    (a * Pending.exchange_rate p)%Q
                    (getDisplayName (Pending.metadata p) "Anonymous")
                    (metadata_message (Pending.metadata p)) (db w))
          as (d' & created & E & P & _).
        change (db w1) with (db w).
        rewrite E. cbn [fst]. apply find_patch_pending; auto.
        unfold pending_rows in F. rewrite P. exact F.
Qed.

(** ** The ledger only grows *)

(** Turns what the transactions of a run returned into facts about the
    ledger. *)
Ltac ledger_facts :=
  repeat match goal with
    | E : getPendingPaymentByAddressInternal _ _ = (_, _) |- _ =>
        unfold getPendingPaymentByAddressInternal in E; inversion E; subst; clear E
    | E : validateSessionOwnsAddress _ _ _ _ = (_, _) |- _ =>
        unfold validateSessionOwnsAddress in E; inversion E; subst; clear E
    | E : updatePendingPaymentStatus ?a ?s ?d = (_, _) |- _ =>
        let H := fresh "L" in
        pose proof (ledger_untouched_setStatus a s d) as H;
        rewrite E in H; cbn [fst] in H; clear E
    | E : updatePendingPaymentWithTx ?n ?a ?t ?d = (_, _) |- _ =>
        let H := fresh "L" in
        pose proof (ledger_untouched_withTx n a t d) as H;
        rewrite E in H; cbn [fst] in H; clear E
    | E : createDonationFromPayment ?a ?u ?n ?m ?d = (_, _) |- _ =>
        let H := fresh "L" in
        destruct (createDonation_outcome a u n m d) as (? & ? & H & _ & _ & _ & _ & ?);
        rewrite E in H; inversion H; subst; clear E H
    end.










(** ** The hourly cleanup, row by row *)

Lemma patch_each_cons f r rows d :
  patch_each f (r :: rows) d = patch_each f rows (patch_pending (Pending._id r) f d).
Proof. reflexivity. Qed.

Lemma delete_each_cons r rows d :
  delete_each (r :: rows) d = delete_each rows (delete_pending (Pending._id r) d).
Proof. reflexivity. Qed.

Lemma pending_patch_each f rows : forall d,
  (forall p, f (f p) = f p) ->
  pending_bitcoin_payments (patch_each f rows d)
  = map (fun p => if has_id rows p then f p else p) (pending_bitcoin_payments d).
Proof.
  induction rows as [|r rows IH]; intros d Hf.
  - cbn. symmetry. apply map_id.
  - rewrite patch_each_cons, IH by exact Hf.
    unfold patch_pending. cbn [pending_bitcoin_payments with_pending].
    rewrite map_map. apply map_ext. intros p.
    change (has_id (r :: rows) p)
      with (Nat.eqb (Pending._id r) (Pending._id p) || has_id rows p).
    rewrite (Nat.eqb_sym (Pending._id r) (Pending._id p)).
    destruct (Nat.eqb (Pending._id p) (Pending._id r)); cbn [orb].
    + rewrite Hf. destruct (has_id rows (f p)); reflexivity.
    + reflexivity.
Qed.

Lemma filter_filter {A} (f g : A -> bool) l :
  filter f (filter g l) = filter (fun x => g x && f x) l.
Proof.
  induction l as [|x l IH]; cbn; [reflexivity|].
  destruct (g x); cbn; [destruct (f x)|]; rewrite IH; reflexivity.
Qed.

Lemma pending_delete_each rows : forall d,
  pending_bitcoin_payments (delete_each rows d)
  = filter (fun p => negb (has_id rows p)) (pending_bitcoin_payments d).
Proof.
  induction rows as [|r rows IH]; intros d.
  - cbn. induction (pending_bitcoin_payments d) as [|x l IHl]; cbn; congruence.
  - rewrite delete_each_cons, IH.
    unfold delete_pending. cbn [pending_bitcoin_payments with_pending].
    rewrite filter_filter. apply filter_ext. intros p.
    change (has_id (r :: rows) p)
      with (Nat.eqb (Pending._id r) (Pending._id p) || has_id rows p).
    rewrite (Nat.eqb_sym (Pending._id r) (Pending._id p)), negb_orb. reflexivity.
Qed.

Lemma frame_patch_each f rows : forall d,
  bitcoin_config (patch_each f rows d) = bitcoin_config d /\
  next_id (patch_each f rows d) = next_id d.
Proof.
  induction rows as [|r rows IH]; intros d; [split; reflexivity|].
  rewrite patch_each_cons. destruct (IH (patch_pending (Pending._id r) f d)) as [-> ->].
  split; reflexivity.
Qed.

Lemma frame_delete_each rows : forall d,
  bitcoin_config (delete_each rows d) = bitcoin_config d /\
  next_id (delete_each rows d) = next_id d.
Proof.
  induction rows as [|r rows IH]; intros d; [split; reflexivity|].
  rewrite delete_each_cons. destruct (IH (delete_pending (Pending._id r) d)) as [-> ->].
  split; reflexivity.
Qed.

Lemma same_id_same_row (l : list Pending.t) x y :
  NoDup (map Pending._id l) -> In x l -> In y l -> Pending._id x = Pending._id y -> x = y.
Proof.
  induction l as [|z l IH]; cbn; intros N Hx Hy E; [contradiction|].
  inversion N as [|? ? Hz N']; subst.
  destruct Hx as [->|Hx], Hy as [->|Hy]; auto.
  - exfalso. apply Hz. rewrite E. apply in_map. exact Hy.
  - exfalso. apply Hz. rewrite <- E. apply in_map. exact Hx.
Qed.

Lemma has_id_filter P l p :
  NoDup (map Pending._id l) -> In p l -> has_id (filter P l) p = P p.
Proof.
  intros N Hp. unfold has_id.
  destruct (P p) eqn:Pp.
  - apply existsb_exists. exists p. split; [apply filter_In; auto|apply Nat.eqb_refl].
  - destruct (existsb _ (filter P l)) eqn:X; [|reflexivity].
    apply existsb_exists in X. destruct X as (r & Hr & E).
    apply filter_In in Hr. destruct Hr as [Hr Pr]. apply Nat.eqb_eq in E.
    rewrite (same_id_same_row l r p N Hr Hp E) in Pr. congruence.
Qed.

Lemma patch_filter_rows P f l d :
  pending_bitcoin_payments d = l -> NoDup (map Pending._id l) ->
  (forall p, f (f p) = f p) ->
  pending_bitcoin_payments (patch_each f (filter P l) d)
  = map (fun p => if P p then f p else p) l.
Proof.
  intros E N Hf. rewrite pending_patch_each, E by exact Hf.
  apply map_ext_in. intros p Hp. rewrite has_id_filter; auto.
Qed.

Lemma delete_filter_rows P l d :
  pending_bitcoin_payments d = l -> NoDup (map Pending._id l) ->
  pending_bitcoin_payments (delete_each (filter P l) d)
  = filter (fun p => negb (P p)) l.
Proof.
  intros E N. rewrite pending_delete_each, E.
  apply filter_ext_in. intros p Hp. rewrite has_id_filter; auto.
Qed.

Lemma length_filter_map {A B} (P : B -> bool) (m : A -> B) l :
  List.length (filter P (map m l)) = List.length (filter (fun x => P (m x)) l).
Proof.
  induction l as [|x l IH]; cbn; [reflexivity|].
  destruct (P (m x)); cbn; rewrite IH; reflexivity.
Qed.

Lemma ids_of_marked (m : Pending.t -> Pending.t) l :
  (forall p, Pending._id (m p) = Pending._id p) ->
  map Pending._id (map m l) = map Pending._id l.
Proof. intros H. rewrite map_map. apply map_ext. exact H. Qed.

(** What the cleanup computes, step by step, on a table with distinct
    identifiers. *)
Lemma cleanup_computed now d :
  NoDup (map Pending._id (pending_bitcoin_payments d)) ->
  let rows := pending_bitcoin_payments d in
  let r := cleanupExpiredPendingPayments now d in
  pending_bitcoin_payments (fst r) = cleaned now rows /\
  donations (fst r) = donations d /\
  bitcoin_config (fst r) = bitcoin_config d /\
  next_id (fst r) = next_id d /\
  snd r = Ok (mkCounts
                (List.length (filter (fun p => by_status initialized p
                                               && (Pending.expires_at p <? now)) rows))
                (List.length (filter (fun p => by_status pending p
                                               && (Pending.expires_at p <? now)) rows))
                (List.length (filter (by_status confirmed) rows))
                (List.length
                   (filter (fun p => negb (by_status confirmed p)
                                     && (Pending.expires_at p
                                         <? now - 7 * 24 * 60 * 60 * 1000)) rows))).
Proof.
  intros N. cbv zeta.
  unfold cleanupExpiredPendingPayments. cbn [fst snd].
  set (rows := pending_bitcoin_payments d) in *.
  set (ago := now - 7 * 24 * 60 * 60 * 1000).
  set (E := Pending.with_status expired).
  set (P1 := fun p => by_status initialized p && (Pending.expires_at p <? now)).
  set (P2 := fun p => by_status pending p && (Pending.expires_at p <? now)).
  set (P4 := fun p => by_status expired p && (Pending.expires_at p <? ago)).
  assert (Eid : forall p, Pending._id (E p) = Pending._id p) by reflexivity.
  assert (Eidem : forall p, E (E p) = E p) by reflexivity.
  set (m1 := fun p => if P1 p then E p else p).
  set (m2 := fun p => if P2 p then E p else p).
  unfold by_status_and_expires_before.
  fold rows. fold P1.
  set (d1 := patch_each E (filter P1 rows) d).
  assert (R1 : pending_bitcoin_payments d1 = map m1 rows).
  { apply patch_filter_rows; auto. }
  assert (N1 : NoDup (map Pending._id (map m1 rows))).
  { rewrite ids_of_marked; [exact N|]. intros p. unfold m1. destruct (P1 p); reflexivity. }
  rewrite R1. fold P2.
  set (d2 := patch_each E (filter P2 (map m1 rows)) d1).
  assert (R2 : pending_bitcoin_payments d2 = map (cleanup_mark now) rows).
  { unfold d2. rewrite (patch_filter_rows P2 E (map m1 rows) d1 R1 N1 Eidem).
    rewrite map_map. apply map_ext. intros p.
    unfold m1, P1, P2, cleanup_mark, overdue, by_status, E.
    destruct p as [i s a b u x di md st tx da j c e]. cbn.
    destruct st; cbn; destruct (e <? now); reflexivity. }
  assert (N2 : NoDup (map Pending._id (map (cleanup_mark now) rows))).
  { rewrite ids_of_marked; [exact N|]. intros p. unfold cleanup_mark.
    destruct (overdue now p); reflexivity. }
  rewrite R2.
  set (rows2 := map (cleanup_mark now) rows) in *.
  set (d3 := delete_each (filter (by_status confirmed) rows2) d2).
  assert (R3 : pending_bitcoin_payments d3
               = filter (fun p => negb (by_status confirmed p)) rows2).
  { apply delete_filter_rows; auto. }
  assert (N3 : NoDup (map Pending._id
                        (filter (fun p => negb (by_status confirmed p)) rows2))).
  { apply NoDup_map_filter. exact N2. }
  rewrite R3. fold P4.
  set (rows3 := filter (fun p => negb (by_status confirmed p)) rows2) in *.
  set (d4 := delete_each (filter P4 rows3) d3).
  assert (R4 : pending_bitcoin_payments d4 = cleaned now rows).
  { unfold d4. rewrite (delete_filter_rows P4 rows3 d3 R3 N3).
    unfold rows3, cleaned. rewrite filter_filter. fold rows2.
    apply filter_ext. intros p. unfold cleanup_drops, P4. fold ago.
    rewrite negb_orb. reflexivity. }
  split; [exact R4|].
  split.
  { unfold d4, d3, d2, d1.
    rewrite !donations_delete_each, !donations_patch_each. reflexivity. }
  split.
  { unfold d4, d3, d2, d1.
    rewrite (proj1 (frame_delete_each _ _)), (proj1 (frame_delete_each _ _)),
      (proj1 (frame_patch_each _ _ _)), (proj1 (frame_patch_each _ _ _)). reflexivity. }
  split.
  { unfold d4, d3, d2, d1.
    rewrite (proj2 (frame_delete_each _ _)), (proj2 (frame_delete_each _ _)),
      (proj2 (frame_patch_each _ _ _)), (proj2 (frame_patch_each _ _ _)). reflexivity. }
  f_equal. f_equal.
  - rewrite length_filter_map. f_equal. apply filter_ext. intros p.
    unfold m1, P1, P2, by_status, E.
    destruct p as [i s a b u x di md st tx da j c e]. cbn.
    destruct st; cbn; destruct (e <? now); reflexivity.
  - unfold rows2. rewrite length_filter_map. f_equal. apply filter_ext. intros p.
    unfold cleanup_mark, overdue, by_status.
    destruct p as [i s a b u x di md st tx da j c e]. cbn.
    destruct st; cbn; destruct (e <? now); reflexivity.
  - unfold rows3, rows2. rewrite filter_filter, length_filter_map. f_equal.
    apply filter_ext. intros p.
    unfold P4, cleanup_mark, overdue, by_status.
    destruct p as [i s a b u x di md st tx da j c e]. cbn.
    destruct st; cbn; try reflexivity;
      destruct (Z.ltb_spec e now); cbn; try reflexivity;
      destruct (Z.ltb_spec e ago); try reflexivity; unfold ago in *; lia.
Qed.

Lemma cleaned_row now rows p :
  In p (cleaned now rows) ->
  overdue now p = false /\ cleanup_drops now p = false.
Proof.
  unfold cleaned. intros H. apply filter_In in H. destruct H as [H D].
  apply negb_true_iff in D. split; [|exact D].
  apply in_map_iff in H. destruct H as (q & <- & _).
  unfold cleanup_mark. destruct (overdue now q) eqn:O; [|exact O].
  unfold overdue, by_status. destruct q; reflexivity.
Qed.

Lemma filter_none {A} (P : A -> bool) l :
  (forall x, In x l -> P x = false) -> filter P l = [].
Proof.
  induction l as [|x l IH]; cbn; intros H; [reflexivity|].
  rewrite (H x (or_introl eq_refl)). apply IH. intros y Hy. apply H. right. exact Hy.
Qed.

Lemma cleaned_settled now rows :
  (forall p, In p rows -> overdue now p = false /\ cleanup_drops now p = false) ->
  cleaned now rows = rows.
Proof.
  induction rows as [|x rows IH]; intros H; [reflexivity|].
  unfold cleaned in *. cbn [map filter].
  destruct (H x (or_introl eq_refl)) as [O D].
  unfold cleanup_mark at 1 2. rewrite O, D. cbn [negb]. f_equal.
  apply IH. intros p Hp. apply H. right. exact Hp.
Qed.

Lemma cleaned_keeps_open now rows p :
  In p rows ->
  Pending.status p = initialized \/ Pending.status p = pending ->
  now <= Pending.expires_at p ->
  In p (cleaned now rows).
Proof.
  intros H St Ex. unfold cleaned. apply filter_In.
  assert (O : overdue now p = false).
  { unfold overdue. apply Z.ltb_ge in Ex. rewrite Ex. apply andb_false_r. }
  split.
  - apply in_map_iff. exists p. split; [|exact H].
    unfold cleanup_mark. rewrite O. reflexivity.
  - unfold cleanup_drops, by_status.
    destruct St as [E|E]; rewrite E; reflexivity.
Qed.

(** The hourly cleanup, on a table whose rows have distinct identifiers (as
    in every reachable state), is one pass over the rows.  Every row that
    is [initialized] or [pending] and past its expiry becomes [expired];
    then every [confirmed] row, and every [expired] row whose expiry lies
    more than seven days back, is deleted.  The other rows stay as they are,
    in order; the ledger and the derivation counter are untouched; the four
    numbers returned count the rows of each class.  Afterwards no row is
    [confirmed], none is open and overdue, and an open row that was not
    overdue is still there. *)
Theorem cleanup_is_one_pass now :
  (forall d,
     NoDup (map Pending._id (pending_bitcoin_payments d)) ->
     let rows := pending_bitcoin_payments d in
     let r := cleanupExpiredPendingPayments now d in
     pending_bitcoin_payments (fst r) = cleaned now rows /\
     donations (fst r) = donations d /\
     bitcoin_config (fst r) = bitcoin_config d /\
     snd r = Ok (mkCounts
                   (List.length (filter (fun p => by_status initialized p
                                                  && (Pending.expires_at p <? now)) rows))
                   (List.length (filter (fun p => by_status pending p
                                                  && (Pending.expires_at p <? now)) rows))
                   (List.length (filter (by_status confirmed) rows))
                   (List.length
                      (filter (fun p => negb (by_status confirmed p)
                                        && (Pending.expires_at p
                                            <? now - 7 * 24 * 60 * 60 * 1000)) rows)))) /\
  (forall calls,
     let d := db (exec calls empty_world) in
     pending_bitcoin_payments (fst (cleanupExpiredPendingPayments now d))
     = cleaned now (pending_bitcoin_payments d)) /\
  (forall rows p,
     In p (cleaned now rows) ->
     Pending.status p <> confirmed /\
     (Pending.status p = initialized \/ Pending.status p = pending ->
      now <= Pending.expires_at p) /\
     (Pending.status p = expired ->
      now - 7 * 24 * 60 * 60 * 1000 <= Pending.expires_at p)) /\
  (forall rows p,
     In p rows ->
     Pending.status p = initialized \/ Pending.status p = pending ->
     now <= Pending.expires_at p ->
     In p (cleaned now rows)).
Proof.
  split; [|split; [|split]].
  - intros d N. cbv zeta.
    destruct (cleanup_computed now d N) as (A & B & C & _ & E). auto.
  - intros calls. cbv zeta.
    apply (cleanup_computed now (db (exec calls empty_world))).
    apply ids_fresh_reachable.
  - intros rows p H. apply cleaned_row in H. destruct H as [O D].
    unfold overdue, cleanup_drops, by_status in *.
    destruct (Pending.status p); cbn in *;
      repeat split; try discriminate; try (intros [X|X]; discriminate);
      try (intros _); try (intros X; discriminate);
      try (apply Z.ltb_ge; assumption).
  - intros rows p H St Ex. apply cleaned_keeps_open; assumption.
Qed.

Lemma settled_rows_count_zero now rows :
  (forall p, In p rows -> overdue now p = false /\ cleanup_drops now p = false) ->
  filter (fun p => by_status initialized p && (Pending.expires_at p <? now)) rows = [] /\
  filter (fun p => by_status pending p && (Pending.expires_at p <? now)) rows = [] /\
  filter (by_status confirmed) rows = [] /\
  filter (fun p => negb (by_status confirmed p)
                   && (Pending.expires_at p <? now - 7 * 24 * 60 * 60 * 1000)) rows = [].
Proof.
  intros S1.
  repeat split; apply filter_none; intros p Hp; destruct (S1 p Hp) as [O D];
    unfold overdue, cleanup_drops, by_status in *;
    destruct (Pending.status p); cbn in *; auto;
    destruct (Z.ltb_spec (Pending.expires_at p) now); try discriminate; try reflexivity;
    destruct (Z.ltb_spec (Pending.expires_at p) (now - 604800000));
    try discriminate; try reflexivity; lia.
Qed.

(** Running the cleanup a second time at the same instant changes nothing:
    the database is the one the first run left, and all four counts are
    zero. *)
Theorem cleanup_twice_is_cleanup_once now d :
  NoDup (map Pending._id (pending_bitcoin_payments d)) ->
  let d1 := fst (cleanupExpiredPendingPayments now d) in
  cleanupExpiredPendingPayments now d1 = (d1, Ok (mkCounts 0 0 0 0)).
Proof.
  intros N. cbv zeta.
  destruct (cleanup_computed now d N) as (A & _ & _ & _ & _).
  set (d1 := fst (cleanupExpiredPendingPayments now d)) in *.
  assert (S1 : forall p, In p (pending_bitcoin_payments d1) ->
                 overdue now p = false /\ cleanup_drops now p = false).
  { intros p Hp. rewrite A in Hp. exact (cleaned_row _ _ _ Hp). }
  assert (N1 : NoDup (map Pending._id (pending_bitcoin_payments d1))).
  { rewrite A. unfold cleaned. apply NoDup_map_filter.
    rewrite ids_of_marked; [exact N|]. intros p. unfold cleanup_mark.
    destruct (overdue now p); reflexivity. }
  clearbody d1. clear A N.
  destruct (cleanup_computed now d1 N1) as (A1 & B1 & C1 & D1 & E1).
  rewrite (cleaned_settled now _ S1) in A1.
  destruct (settled_rows_count_zero now _ S1) as (Z1 & Z2 & Z3 & Z4).
  rewrite Z1, Z2, Z3, Z4 in E1. cbn [List.length] in E1.
  rewrite (surjective_pairing (cleanupExpiredPendingPayments now d1)).
  f_equal; [|exact E1].
  destruct (fst (cleanupExpiredPendingPayments now d1)), d1.
  cbn [pending_bitcoin_payments donations bitcoin_config next_id] in *. congruence.
Qed.

(** ** The status of a row only moves forward *)

Lemma reached_patch k id id' f d :
  (forall p, Pending._id (f p) = Pending._id p) ->
  id' <> id \/ (forall p, (k <= rank (Pending.status p))%nat ->
                          (k <= rank (Pending.status (f p)))%nat) ->
  reached k id d -> reached k id (patch_pending id' f d).
Proof.
  intros Hid Hf [Hn Hs]. split; [exact Hn|].
  intros r' Hr' E. unfold patch_pending in Hr'.
  cbn [pending_bitcoin_payments with_pending] in Hr'.
  apply in_map_iff in Hr'. destruct Hr' as (r & <- & Hr).
  destruct (Nat.eqb_spec (Pending._id r) id') as [E'|E'].
  - rewrite Hid in E. destruct Hf as [Hf|Hf]; [congruence|].
    apply Hf. apply Hs; assumption.
  - apply Hs; assumption.
Qed.

Lemma reached_delete k id id' d : reached k id d -> reached k id (delete_pending id' d).
Proof. hide_config.
  intros [Hn Hs]. split; [exact Hn|].
  intros r Hr E. apply Hs; [|exact E].
  unfold delete_pending in Hr. cbn [pending_bitcoin_payments with_pending] in Hr.
  apply filter_In in Hr. tauto.
Qed.

Lemma reached_pending_same k id d d' :
  pending_bitcoin_payments d' = pending_bitcoin_payments d ->
  (next_id d <= next_id d')%nat ->
  reached k id d -> reached k id d'.
Proof.
  intros P N [Hn Hs]. split; [lia|]. rewrite P. exact Hs.
Qed.

Lemma reached_getNext k id : preserves (reached k id) getNextDerivationIndex.
Proof.
  intros d H. unfold getNextDerivationIndex.
  destruct (find _ _); (eapply reached_pending_same; [| |exact H]); simpl; auto.
Qed.

Lemma reached_createPending k id now sid a b u x i m :
  preserves (reached k id) (createPendingBitcoinPayment now sid a b u x i m).
Proof.
  intros d [Hn Hs]. split; simpl; [lia|].
  intros r Hr E. apply in_app_or in Hr. destruct Hr as [Hr | [<- | []]].
  - apply Hs; assumption.
  - simpl in E. lia.
Qed.

Lemma reached_jobId k id a j : preserves (reached k id) (updatePendingPaymentJobId a j).
Proof.
  intros d H. unfold updatePendingPaymentJobId.
  destruct (find _ _); [|exact H]. simpl. apply reached_patch; auto.
Qed.

Lemma reached_createDonation k id a u n m :
  preserves (reached k id) (createDonationFromPayment a u n m).
Proof.
  intros d H. unfold createDonationFromPayment.
  destruct (find _ _); [exact H|].
  eapply reached_pending_same; [| |exact H]; simpl; auto.
Qed.

Lemma reached_create k id amount n pid method m :
  preserves (reached k id) (create amount n pid method m).
Proof.
  unfold create. repeat preserves_step.
  intros d H. destruct (find _ _); [exact H|].
  eapply reached_pending_same; [| |exact H]; simpl; auto.
Qed.

Lemma reached_setTerminal k id a st :
  terminal st -> preserves (reached k id) (updatePendingPaymentStatus a st).
Proof.
  intros Ht d H. unfold updatePendingPaymentStatus.
  destruct (find (by_address a) (pending_bitcoin_payments d)) as [p|] eqn:F; [|exact H].
  simpl. apply reached_patch; auto. right. intros q Hq.
  destruct Ht as [-> | ->]; cbn; destruct (Pending.status q); cbn in *; lia.
Qed.

Lemma reached_withTx k id now a t :
  preserves (reached k id) (updatePendingPaymentWithTx now a t).
Proof.
  intros d H. unfold updatePendingPaymentWithTx.
  destruct (find (by_address a) (pending_bitcoin_payments d)) as [p|] eqn:F; [|exact H].
  destruct (negb _ && negb _) eqn:C; [exact H|].
  simpl. apply reached_patch; auto.
  destruct (Nat.eq_dec (Pending._id p) id) as [E|E]; [|left; exact E].
  right. intros q _.
  destruct H as [_ Hs]. apply find_some in F.
  pose proof (Hs p (proj1 F) E) as Hp.
  destruct (Pending.status p); cbn in *; try discriminate; lia.
Qed.

Lemma reached_markExpired k id a sid :
  preserves (reached k id) (markPaymentExpired a sid).
Proof.
  intros d H. unfold markPaymentExpired.
  destruct (find (by_address a) (pending_bitcoin_payments d)) as [p|] eqn:F; [|exact H].
  destruct (negb _); [exact H|].
  destruct (Status_eqb (Pending.status p) initialized) eqn:C; [|exact H].
  simpl. apply reached_patch; auto. right. intros q Hq.
  cbn. destruct (Pending.status q); cbn in *; lia.
Qed.

Lemma reached_patch_each k id rows : forall d,
  reached k id d -> reached k id (patch_each (Pending.with_status expired) rows d).
Proof.
  unfold patch_each.
  induction rows as [|r rows IH]; simpl; intros d H; [exact H|].
  apply IH. apply reached_patch; auto. right. intros q Hq.
  cbn. destruct (Pending.status q); cbn in *; lia.
Qed.

Lemma reached_delete_each k id rows : forall d,
  reached k id d -> reached k id (delete_each rows d).
Proof.
  unfold delete_each.
  induction rows as [|r rows IH]; simpl; intros d H; [exact H|].
  apply IH. apply reached_delete. exact H.
Qed.

Lemma reached_cleanup k id now :
  preserves (reached k id) (cleanupExpiredPendingPayments now).
Proof.
  intros d H. unfold cleanupExpiredPendingPayments. cbn [fst].
  repeat apply reached_delete_each. repeat apply reached_patch_each. exact H.
Qed.

Lemma reached_run k id env op w :
  on_db (reached k id) w -> on_db (reached k id) (run env op w).
Proof.
  intros Hw.
  assert (T1 : terminal confirmed) by (left; reflexivity).
  assert (T2 : terminal expired) by (right; reflexivity).
  destruct op; cbn [run].
  - apply preserves_generate;
      auto using reached_getNext, reached_createPending, reached_jobId.
  - apply preserves_check_payment;
      auto using reached_createDonation, reached_setTerminal.
  - apply preserves_monitor;
      auto using reached_createDonation, reached_setTerminal, reached_withTx.
  - apply (preserves_runMutation (reached k id)); auto using reached_markExpired.
  - apply (preserves_runMutation (reached k id)); auto using reached_cleanup.
  - apply (preserves_runMutation (reached k id)); auto using reached_create.
Qed.

(** The status of a row never moves back.  Rank the statuses [initialized],
    then [pending], then the terminal ones: whatever entry points run, in
    whatever order, a row that exists later (same identifier) has a status
    of the same rank or a higher one.  In particular a row that has left
    [initialized] never returns to it, and a terminal row never becomes
    [pending] again. *)
Theorem status_never_moves_back history calls r r' :
  In r (pending_rows (exec history empty_world)) ->
  In r' (pending_rows (exec calls (exec history empty_world))) ->
  Pending._id r' = Pending._id r ->
  (rank (Pending.status r) <= rank (Pending.status r'))%nat.
Proof.
  intros Hr Hr' E.
  pose proof (ids_fresh_kept _ r (ids_fresh_reachable history) Hr) as [Kn Ks].
  assert (K : on_db (reached (rank (Pending.status r)) (Pending._id r))
                (exec history empty_world)).
  { split; [exact Kn|]. intros q Hq Eq. rewrite (Ks q Hq Eq). lia. }
  assert (K' : on_db (reached (rank (Pending.status r)) (Pending._id r))
                 (exec calls (exec history empty_world))).
  { apply (exec_invariant (on_db (reached (rank (Pending.status r)) (Pending._id r))));
      [|exact K].
    intros env op w. apply reached_run. }
  destruct K' as [_ K']. apply K'; assumption.
Qed.

(** ** MarkExpired and the monitor *)

Lemma world_eta w : mkWorld (db w) (scheduler w) (trace w) = w.
Proof. destruct w; reflexivity. Qed.

(** MarkExpired does not look at the clock.  Called by another session it
    throws and writes nothing; on a row that has left [initialized], or for
    an address without a row, it returns null and writes nothing.  Called by
    the owner on an [initialized] row it sets the row [expired] at once, and
    the next monitor job for the address then ends without probing the
    chain and without scheduling a follow-up: monitoring is over. *)
Theorem mark_expired_ends_monitoring env address session_id w :
  let r := runMutation (markPaymentExpired address session_id) w in
  (find (by_address address) (pending_rows w) = None -> r = (w, Ok None)) /\
  (forall p, find (by_address address) (pending_rows w) = Some p ->
     Pending.session_id p <> session_id -> r = (w, Throw SessionDoesNotOwn)) /\
  (forall p, find (by_address address) (pending_rows w) = Some p ->
     Pending.session_id p = session_id -> Pending.status p <> initialized ->
     r = (w, Ok None)) /\
  (forall p args, find (by_address address) (pending_rows w) = Some p ->
     Pending.session_id p = session_id -> Pending.status p = initialized ->
     arg_address args = address ->
     r = (mkWorld (patch_pending (Pending._id p) (Pending.with_status expired) (db w))
                  (scheduler w) (trace w), Ok (Some (Pending._id p))) /\
     find (by_address address) (pending_rows (fst r))
       = Some (Pending.with_status expired p) /\
     monitorSinglePayment env args (fst r) = (fst r, Ok tt)).
Proof.
  cbv zeta. unfold pending_rows, runMutation, markPaymentExpired.
  split; [|split; [|split]].
  - intros F. rewrite F. rewrite world_eta. reflexivity.
  - intros p F N. rewrite F.
    destruct (String.eqb_spec (Pending.session_id p) session_id); [contradiction|].
    reflexivity.
  - intros p F E N. rewrite F, E, String.eqb_refl. cbn [negb].
    destruct (Pending.status p); try contradiction; cbn [Status_eqb];
      rewrite world_eta; reflexivity.
  - intros p args F E St Ha. rewrite F, E, String.eqb_refl, St.
    cbn [negb Status_eqb fst db].
    assert (F' : find (by_address address)
                   (pending_bitcoin_payments
                      (patch_pending (Pending._id p) (Pending.with_status expired) (db w)))
                 = Some (Pending.with_status expired p)).
    { apply find_patch_pending; auto. }
    split; [reflexivity|]. split; [exact F'|].
    unfold monitorSinglePayment, getPendingPaymentByAddressInternal, runMutation, bind, ret.
    cbn [db fst snd scheduler trace]. rewrite Ha, F'. reflexivity.
Qed.

(** ** The queries of the pending table *)

(** The public query of a row by address answers only the session that owns
    the row: what it returns is the first row of the address and belongs to
    the asking session; asked by another session it throws; it returns null
    exactly when no row has the address.  It writes nothing. *)
Theorem pending_row_read_by_owner_only address session_id d :
  let r := getPendingPaymentByAddress address session_id d in
  fst r = d /\
  (forall p, snd r = Ok (Some p) ->
     find (by_address address) (pending_bitcoin_payments d) = Some p /\
     Pending.session_id p = session_id /\ Pending.address p = address) /\
  (forall p, find (by_address address) (pending_bitcoin_payments d) = Some p ->
     Pending.session_id p <> session_id -> snd r = Throw SessionDoesNotOwn) /\
  (snd r = Ok None <->
   forall p, In p (pending_bitcoin_payments d) -> Pending.address p <> address).
Proof.
  cbv zeta. unfold getPendingPaymentByAddress. cbn [fst snd].
  split; [reflexivity|].
  destruct (find (by_address address) (pending_bitcoin_payments d)) as [q|] eqn:F.
  - pose proof (find_some _ _ F) as [Hin Hq]. unfold by_address in Hq.
    apply String.eqb_eq in Hq.
    destruct (String.eqb_spec (Pending.session_id q) session_id) as [E|E]; cbn [negb].
    + split; [|split].
      * intros p H. injection H as <-. auto.
      * intros p H N. injection H as <-. contradiction.
      * split; [discriminate|]. intros H. exfalso. exact (H q Hin Hq).
    + split; [|split].
      * intros p H. discriminate.
      * reflexivity.
      * split; [discriminate|]. intros H. exfalso. exact (H q Hin Hq).
  - split; [|split].
    + intros p H. discriminate.
    + intros p H. discriminate.
    + split; [|reflexivity]. intros _ p Hp E.
      pose proof (find_none _ _ F p Hp) as X. unfold by_address in X.
      rewrite E, String.eqb_refl in X. discriminate.
Qed.

Lemma filter_perm_split {A} (f g : A -> bool) l :
  (forall x, f x = true -> g x = false) ->
  Permutation (filter f l ++ filter g l) (filter (fun x => f x || g x) l).
Proof.
  intros H. induction l as [|x l IH]; cbn; [constructor|].
  destruct (f x) eqn:Fx; cbn.
  - rewrite (H x Fx). constructor. exact IH.
  - destruct (g x); cbn; [|exact IH].
    apply Permutation_sym. apply Permutation_cons_app. apply Permutation_sym. exact IH.
Qed.

(** The rows handed to background monitoring are exactly the open ones:
    every [initialized] or [pending] row of the table, each once, the
    [initialized] ones first and each group in creation order; never a
    [confirmed] or [expired] row.  The query writes nothing. *)
Theorem pending_payments_are_the_open_rows d :
  let open := fun p => by_status initialized p || by_status pending p in
  exists rows,
    getPendingPayments d = (d, Ok rows) /\
    rows = filter (by_status initialized) (pending_bitcoin_payments d)
           ++ filter (by_status pending) (pending_bitcoin_payments d) /\
    Permutation rows (filter open (pending_bitcoin_payments d)) /\
    (forall p, In p rows <->
       In p (pending_bitcoin_payments d) /\
       (Pending.status p = initialized \/ Pending.status p = pending)) /\
    (forall p, In p rows -> ~ terminal (Pending.status p)).
Proof. hide_config.
  cbv zeta. eexists. split; [reflexivity|]. split; [reflexivity|].
  assert (P : Permutation
                (filter (by_status initialized) (pending_bitcoin_payments d)
                 ++ filter (by_status pending) (pending_bitcoin_payments d))
                (filter (fun p => by_status initialized p || by_status pending p)
                   (pending_bitcoin_payments d))).
  { apply filter_perm_split. intros x. unfold by_status.
    destruct (Pending.status x); cbn; congruence. }
  assert (I : forall p,
            In p (filter (by_status initialized) (pending_bitcoin_payments d)
                  ++ filter (by_status pending) (pending_bitcoin_payments d)) <->
            In p (pending_bitcoin_payments d) /\
            (Pending.status p = initialized \/ Pending.status p = pending)).
  { intros p. rewrite in_app_iff, !filter_In. unfold by_status.
    destruct (Pending.status p); cbn; intuition discriminate. }
  split; [exact P|]. split; [exact I|].
  intros p Hp T. apply I in Hp. destruct Hp as [_ [E|E]], T as [T|T]; congruence.
Qed.

(** ** GenerateAddress: what a new address leaves behind, and how it fails *)

Lemma getNext_frame d :
  pending_bitcoin_payments (fst (getNextDerivationIndex d)) = pending_bitcoin_payments d /\
  donations (fst (getNextDerivationIndex d)) = donations d /\
  (next_id d <= next_id (fst (getNextDerivationIndex d)))%nat /\
  next_index (fst (getNextDerivationIndex d)) = next_index d + 1.
Proof.
  destruct (getNext_spec d) as (d' & E & N & _ & P & D).
  rewrite E. cbn [fst]. repeat split; auto.
  unfold getNextDerivationIndex in E.
  destruct (find _ _); inversion E; subst; cbn; lia.
Qed.

Lemma map_patch_other (id : nat) (f : Pending.t -> Pending.t) rows :
  (forall r, In r rows -> Pending._id r <> id) ->
  map (fun p => if Nat.eqb (Pending._id p) id then f p else p) rows = rows.
Proof.
  intros H. rewrite <- (map_id rows) at 2. apply map_ext_in. intros p Hp.
  destruct (Nat.eqb_spec (Pending._id p) id) as [E|E]; [|reflexivity].
  exfalso. exact (H p Hp E).
Qed.

(** A GenerateAddress that derives a new address, in a state whose rows
    have distinct identifiers (as in every reachable state) and where the
    address is not in use: it returns the address with the index the counter
    held; the counter moves up by one; exactly one row is appended, in
    status [initialized], created now and expiring 24 hours later, carrying
    the session, the amounts, the rate, the index, the metadata and the
    identifier of the monitor job; exactly one monitor job is scheduled, ten
    seconds ahead, for that address, amount and index; the ledger is
    untouched.  From then on and until the expiry, the session passes the
    ownership check of CheckPayment for the address. *)
Theorem generate_opens_row_and_job env amount session_id metadata w btcPrice address :
  ids_fresh (db w) ->
  inputs_valid amount metadata ->
  limiter_admits env = true ->
  btc_price env = Some btcPrice ->
  existing_session (now env) session_id amount (db w) = None ->
  deriveBip84Address BITCOIN_MASTER_KEY (next_index (db w)) BITCOIN_NETWORK = Some address ->
  find (by_address address) (pending_rows w) = None ->
  let r := generateBitcoinAddress env amount session_id metadata w in
  let i := next_index (db w) in
  let job := List.length (scheduler w) in
  let row :=
    Pending.mk (next_id (fst (getNextDerivationIndex (db w)))) session_id address
      (amount / btcPrice)%Q amount btcPrice i metadata initialized None None (Some job)
      (now env) (now env + 86400000) in
  snd r = Ok (mkGenerated address (amount / btcPrice) amount btcPrice i) /\
  pending_rows (fst r) = pending_rows w ++ [row] /\
  scheduler (fst r)
  = scheduler w ++ [mkJob job (now env + 10000)
                      (mkMonitorArgs address (amount / btcPrice)%Q i)] /\
  next_index (db (fst r)) = i + 1 /\
  donations (db (fst r)) = donations (db w) /\
  (forall now', now' < now env + 86400000 ->
     snd (validateSessionOwnsAddress now' session_id address (db (fst r))) = Ok true).
Proof.
  intros [Nd Lt] V Hlim Hp He Hd Hfree. cbv zeta.
  rewrite (generate_new env amount session_id metadata w btcPrice address V Hlim Hp He Hd).
  cbn [fst snd db scheduler trace]. unfold pending_rows in *. cbn [db].
  destruct (getNext_frame (db w)) as (P1 & D1 & I1 & X1).
  set (d1 := fst (getNextDerivationIndex (db w))) in *.
  assert (F2 : find (by_address address)
                 (pending_bitcoin_payments
                    (fst (createPendingBitcoinPayment (now env) session_id address
                            (amount / btcPrice)%Q amount btcPrice (next_index (db w))
                            metadata d1)))
               = Some (Pending.mk (next_id d1) session_id address (amount / btcPrice)%Q
                         amount btcPrice (next_index (db w)) metadata initialized
                         None None None (now env) (now env + 86400000))).
  { cbn [createPendingBitcoinPayment fst pending_bitcoin_payments fresh_id with_pending].
    rewrite P1, find_app_single, Hfree. unfold by_address. cbn [Pending.address].
    rewrite String.eqb_refl. reflexivity. }
  unfold updatePendingPaymentJobId at 1 2 3 4. rewrite F2.
  cbn [fst Pending._id].
  assert (R : pending_bitcoin_payments
                (patch_pending (next_id d1) (Pending.with_job (List.length (scheduler w)))
                   (fst (createPendingBitcoinPayment (now env) session_id address
                           (amount / btcPrice)%Q amount btcPrice (next_index (db w))
                           metadata d1)))
              = pending_bitcoin_payments (db w) ++
                [Pending.mk (next_id d1) session_id address (amount / btcPrice)%Q amount
                   btcPrice (next_index (db w)) metadata initialized None None
                   (Some (List.length (scheduler w))) (now env) (now env + 86400000)]).
  { cbn [createPendingBitcoinPayment fst pending_bitcoin_payments fresh_id with_pending
           patch_pending].
    rewrite P1, map_app, map_patch_other.
    - cbn [map Pending._id]. rewrite Nat.eqb_refl. reflexivity.
    - intros q Hq E. specialize (Lt q Hq). lia. }
  split; [reflexivity|]. split; [exact R|]. split; [reflexivity|].
  split.
  { unfold next_index, counter in *.
    cbn [createPendingBitcoinPayment fst bitcoin_config fresh_id with_pending patch_pending].
    exact X1. }
  split.
  { cbn [createPendingBitcoinPayment fst donations fresh_id with_pending patch_pending].
    exact D1. }
  intros now' Hn. unfold validateSessionOwnsAddress. cbn [snd]. rewrite R.
  rewrite find_app_single, Hfree. unfold by_address at 1. cbn [Pending.address].
  rewrite String.eqb_refl. cbn [Pending.session_id Pending.status Pending.expires_at].
  rewrite String.eqb_refl. cbn [negb Status_eqb andb].
  destruct (Z.leb_spec (now env + 86400000) now'); [lia|reflexivity].
Qed.


(** ** The probe of the explorers *)

Ltac split_matches :=
  repeat match goal with
    | |- context [match ?x with _ => _ end] =>
        lazymatch x with
        | context [match _ with _ => _ end] => fail
        | _ => destruct x eqn:?
        end
    end.

Lemma tip_requests web baseUrl t :
  fst (Explorer.getCurrentBlockHeight web baseUrl t) = t ++ [(baseUrl ++ "/blocks/tip/height")%string].
Proof.
  unfold Explorer.getCurrentBlockHeight, Explorer.fetchWithTimeout.
  split_matches; reflexivity.
Qed.


(** The requests of one Mempool.space check: one to three, all under the
    base URL of the network. *)
Lemma mempool_requests web address isTestnet t :
  exists urls,
    fst (Explorer.checkMempoolSpace web address isTestnet t) = t ++ urls /\
    all_under (if isTestnet then "https://mempool.space/testnet4/api/"
               else "https://mempool.space/api/") urls /\
    urls <> [].
Proof.
  unfold Explorer.checkMempoolSpace, Explorer.fetchWithTimeout.
  set (base := if isTestnet then "https://mempool.space/testnet4/api"
               else "https://mempool.space/api").
  pose proof (tip_requests web base) as T.
  split_matches; cbn [fst].
  all: try (exists [(base ++ "/address/" ++ address)%string];
            split; [reflexivity|]; split; [|discriminate];
            repeat constructor).
  all: try (exists [(base ++ "/address/" ++ address)%string; (base ++ "/address/" ++ address ++ "/txs")%string];
            split; [rewrite <- app_assoc; reflexivity|]; split; [|discriminate];
            repeat constructor).
  all: match goal with
       | H : Explorer.getCurrentBlockHeight _ _ ?t0 = (?t3, _) |- _ =>
           pose proof (T t0) as T'; rewrite H in T'; cbn [fst] in T'; subst t3
       end.
  all: exists [(base ++ "/address/" ++ address)%string;
               (base ++ "/address/" ++ address ++ "/txs")%string;
               (base ++ "/blocks/tip/height")%string];
    (split; [rewrite <- !app_assoc; reflexivity|]); (split; [|discriminate]);
    repeat constructor.
Qed.

Lemma blockstream_requests web address t :
  exists urls,
    fst (Explorer.checkBlockstream web address false t) = t ++ urls /\
    all_under "https://blockstream.info/api/" urls /\
    urls <> [].
Proof.
  unfold Explorer.checkBlockstream, Explorer.fetchWithTimeout.
  set (base := "https://blockstream.info/api").
  pose proof (tip_requests web base) as T.
  split_matches; cbn [fst].
  all: try (exists [(base ++ "/address/" ++ address)%string];
            split; [reflexivity|]; split; [|discriminate];
            repeat constructor).
  all: try match goal with
           | |- context [Explorer.hash ?tx] =>
               exists [(base ++ "/address/" ++ address)%string; (base ++ "/tx/" ++ Explorer.hash tx)%string];
               split; [rewrite <- app_assoc; reflexivity|]; split; [|discriminate];
               repeat constructor
           end.
  all: match goal with
       | H : Explorer.getCurrentBlockHeight _ _ ?t0 = (?t3, _) |- _ =>
           pose proof (T t0) as T'; rewrite H in T'; cbn [fst] in T'; subst t3
       end.
  all: match goal with
       | |- context [Explorer.hash ?tx] =>
           exists [(base ++ "/address/" ++ address)%string;
                   (base ++ "/tx/" ++ Explorer.hash tx)%string;
                   (base ++ "/blocks/tip/height")%string];
           (split; [rewrite <- !app_assoc; reflexivity|]); (split; [|discriminate]);
           repeat constructor
       end.
Qed.






(** The order in which the explorers are asked.  On testnet the probe asks
    Mempool.space's testnet4 API and nothing else: Blockstream is never
    contacted, and no usable answer means [api_failed].  On mainnet it asks
    Mempool.space first and returns its answer when there is one; only when
    Mempool.space gave none does it go on to Blockstream.info, and
    [api_failed] means that neither gave an answer. *)
Theorem probe_asks_mempool_first web address t :
  (exists urls,
     fst (Explorer.checkBlockchainPayment testnet web address t) = t ++ urls /\
     all_under "https://mempool.space/testnet4/api/" urls /\
     snd (Explorer.checkBlockchainPayment testnet web address t)
     = match snd (Explorer.checkMempoolSpace web address true t) with
       | Some r => r
       | None => Probe.api_failed
       end) /\
  (forall r, snd (Explorer.checkMempoolSpace web address false t) = Some r ->
     snd (Explorer.checkBlockchainPayment mainnet web address t) = r /\
     exists urls,
       fst (Explorer.checkBlockchainPayment mainnet web address t) = t ++ urls /\
       all_under "https://mempool.space/api/" urls) /\
  (snd (Explorer.checkMempoolSpace web address false t) = None ->
     exists urls1 urls2,
       fst (Explorer.checkBlockchainPayment mainnet web address t) = t ++ urls1 ++ urls2 /\
       all_under "https://mempool.space/api/" urls1 /\ urls1 <> [] /\
       all_under "https://blockstream.info/api/" urls2 /\ urls2 <> [] /\
       snd (Explorer.checkBlockchainPayment mainnet web address t)
       = match snd (Explorer.checkBlockstream web address false (t ++ urls1)) with
         | Some r => r
         | None => Probe.api_failed
         end).
Proof.
  split; [|split].
  - destruct (mempool_requests web address true t) as (urls & E & A & _).
    exists urls. unfold Explorer.checkBlockchainPayment.
    destruct (Explorer.checkMempoolSpace web address true t) as [t1 [r|]];
      cbn [fst snd] in *; auto.
  - intros r H.
    destruct (mempool_requests web address false t) as (urls & E & A & _).
    unfold Explorer.checkBlockchainPayment.
    destruct (Explorer.checkMempoolSpace web address false t) as [t1 [r'|]];
      cbn [fst snd] in *; [|discriminate].
    injection H as ->. split; [reflexivity|]. exists urls. auto.
  - intros H.
    destruct (mempool_requests web address false t) as (urls1 & E1 & A1 & N1).
    unfold Explorer.checkBlockchainPayment.
    destruct (Explorer.checkMempoolSpace web address false t) as [t1 [r'|]];
      cbn [fst snd] in *; [discriminate|]. subst t1.
    destruct (blockstream_requests web address (t ++ urls1)) as (urls2 & E2 & A2 & N2).
    exists urls1, urls2.
    destruct (Explorer.checkBlockstream web address false (t ++ urls1)) as [t2 [r|]];
      cbn [fst snd] in *; rewrite app_assoc; auto 10.
Qed.




(** ** The audit log never carries a sensitive field *)

Lemma delete_field_absent {V} field (o : Logger.Object V) :
  Logger.has_field field o = false -> Logger.delete_field field o = o.
Proof.
  unfold Logger.has_field, Logger.delete_field.
  induction o as [|kv o IH]; cbn; [reflexivity|].
  destruct (String.eqb (fst kv) field); cbn; [discriminate|].
  intros H. rewrite IH by exact H. reflexivity.
Qed.

Lemma sanitize_fold {V} fields : forall data : Logger.Object V,
  fold_left (fun sanitized field =>
               if Logger.has_field field sanitized
               then Logger.delete_field field sanitized else sanitized) fields data
  = filter (fun kv => negb (existsb (String.eqb (fst kv)) fields)) data.
Proof.
  induction fields as [|f fields IH]; intros data; cbn [fold_left existsb].
  - induction data as [|kv data IHd]; [reflexivity|].
    cbn [filter negb]. f_equal. exact IHd.
  - assert (E : (if Logger.has_field f data then Logger.delete_field f data else data)
                = Logger.delete_field f data).
    { destruct (Logger.has_field f data) eqn:H; [reflexivity|].
      symmetry. apply delete_field_absent. exact H. }
    rewrite E, IH. unfold Logger.delete_field. rewrite filter_filter.
    apply filter_ext. intros kv. rewrite negb_orb. reflexivity.
Qed.

(** Sanitizing a log payload removes exactly the properties of the payload
    itself (not of objects nested in it) whose name is on the list of
    sensitive fields (session ids, addresses, transaction hashes, derivation
    indexes, payment ids, keys, messages, ...): none of them is left, every
    other property stays with its value and in its place, and sanitizing
    again changes nothing.  So the data of a line of the audit log has no
    property with a sensitive name. *)
Theorem audit_log_has_no_sensitive_field {V} (data : Logger.Object V) :
  Logger.sanitizeForLogging data = filter (fun kv => negb (sensitive (fst kv))) data /\
  (forall field, In field Logger.sensitiveFields ->
     Logger.has_field field (Logger.sanitizeForLogging data) = false) /\
  (forall k v, sensitive k = false -> In (k, v) data ->
     In (k, v) (Logger.sanitizeForLogging data)) /\
  Logger.sanitizeForLogging (Logger.sanitizeForLogging data)
  = Logger.sanitizeForLogging data /\
  (forall now event,
     exists logged,
       Logger.data (Logger.audit now event (Some data)) = Some logged /\
       forall field, In field Logger.sensitiveFields ->
                     Logger.has_field field logged = false).
Proof.
  assert (S : forall o : Logger.Object V,
            Logger.sanitizeForLogging o = filter (fun kv => negb (sensitive (fst kv))) o).
  { intros o. unfold Logger.sanitizeForLogging. apply sanitize_fold. }
  assert (N : forall field, In field Logger.sensitiveFields ->
            Logger.has_field field (Logger.sanitizeForLogging data) = false).
  { intros field Hf. rewrite S. unfold Logger.has_field.
    destruct (existsb _ _) eqn:X; [|reflexivity].
    apply existsb_exists in X. destruct X as (kv & Hkv & E).
    apply filter_In in Hkv. destruct Hkv as [_ Hs].
    apply String.eqb_eq in E. apply negb_true_iff in Hs.
    assert (T : sensitive (fst kv) = true).
    { unfold sensitive. apply existsb_exists. exists field. split; [exact Hf|].
      rewrite E. apply String.eqb_refl. }
    congruence. }
  split; [apply S|]. split; [exact N|]. split; [|split].
  - intros k v Hk Hin. rewrite S. apply filter_In. split; [exact Hin|].
    cbn [fst]. rewrite Hk. reflexivity.
  - rewrite !S, filter_filter. apply filter_ext. intros kv.
    apply andb_diag.
  - intros now event. exists (Logger.sanitizeForLogging data). split; [reflexivity|exact N].
Qed.

(** ** The address check *)

Lemma all_chars_forall f s :
  all_chars f s = true -> forall c, In c (list_ascii_of_string s) -> f c = true.
Proof.
  induction s as [|a s IH]; cbn; intros H c Hc; [contradiction|].
  apply andb_true_iff in H. destruct H as [Ha Hs].
  destruct Hc as [<-|Hc]; auto.
Qed.

Lemma any_char_none f s :
  any_char f s = false -> forall c, In c (list_ascii_of_string s) -> f c = false.
Proof.
  induction s as [|a s IH]; cbn; intros H c Hc; [contradiction|].
  apply orb_false_iff in H. destruct H as [Ha Hs].
  destruct Hc as [<-|Hc]; auto.
Qed.

Lemma prefixes_exclude address :
  String.prefix "bc1" address = true -> String.prefix "tb1" address = false.
Proof.
  destruct address as [|c address]; [discriminate|].
  cbn [String.prefix].
  destruct (ascii_dec "b" c) as [<-|N]; [intros _; reflexivity|intros H; discriminate H].
Qed.

(** An address is accepted for one network at most: what passes the check
    for mainnet is refused for testnet as a wrong prefix, and conversely.
    An accepted address starts with the prefix of the network, is 42 to 90
    characters long, and after the prefix holds only lower-case letters and
    digits, none of them 1, b, i or o. *)
Theorem address_accepted_for_one_network address :
  (validateBitcoinAddress address mainnet = Ok tt ->
   validateBitcoinAddress address testnet = Throw InvalidAddressPrefix) /\
  (validateBitcoinAddress address testnet = Ok tt ->
   validateBitcoinAddress address mainnet = Throw InvalidAddressPrefix) /\
  (forall network,
     validateBitcoinAddress address network = Ok tt ->
     String.prefix (match network with mainnet => "bc1" | testnet => "tb1" end) address
     = true /\
     42 <= strlen address <= 90 /\
     forall c, In c (list_ascii_of_string (slice 3 address)) ->
       ((97 <= nat_of_ascii c <= 122)%nat \/ (48 <= nat_of_ascii c <= 57)%nat) /\
       c <> "1"%char /\ c <> "b"%char /\ c <> "i"%char /\ c <> "o"%char).
Proof.
  assert (P : forall network, validateBitcoinAddress address network = Ok tt ->
            String.prefix (match network with mainnet => "bc1" | testnet => "tb1" end)
              address = true).
  { intros network. unfold validateBitcoinAddress.
    destruct (String.prefix _ address); [reflexivity|discriminate]. }
  split; [|split].
  - intros H. apply (P mainnet) in H. apply prefixes_exclude in H.
    unfold validateBitcoinAddress. rewrite H. reflexivity.
  - intros H. apply (P testnet) in H. unfold validateBitcoinAddress.
    destruct (String.prefix "bc1" address) eqn:B; [|reflexivity].
    apply prefixes_exclude in B. cbn in H, B. congruence.
  - intros network H. split; [exact (P network H)|].
    unfold validateBitcoinAddress in H.
    destruct (String.prefix _ address); cbn [negb] in H; [|discriminate].
    destruct (Z.ltb_spec (strlen address) 42); cbn [orb] in H; [discriminate|].
    destruct (Z.ltb_spec 90 (strlen address)); [discriminate|].
    split; [lia|].
    destruct (bech32Charset (slice 3 address)) eqn:C; cbn [negb] in H; [|discriminate].
    destruct (invalidBech32Chars (slice 3 address)) eqn:X; [discriminate|].
    intros c Hc.
    unfold bech32Charset in C. apply andb_true_iff in C. destruct C as [_ C].
    pose proof (all_chars_forall _ _ C c Hc) as Hok. cbv beta zeta in Hok.
    pose proof (any_char_none _ _ X c Hc) as Hno. cbv beta in Hno.
    apply orb_false_iff in Hno. destruct Hno as [Hno Ho].
    apply orb_false_iff in Hno. destruct Hno as [Hno Hi].
    apply orb_false_iff in Hno. destruct Hno as [Hone Hb].
    split.
    + apply orb_true_iff in Hok. destruct Hok as [K|K];
        apply andb_true_iff in K; destruct K as [K1 K2];
        apply Nat.leb_le in K1; apply Nat.leb_le in K2; [left|right]; lia.
    + repeat split; intros ->; cbn in *; discriminate.
Qed.

(** ** The instant of expiry *)

(** At the very instant a row expires ([now = expires_at]) the four places
    that compare the clock with the expiry do not agree.  For an
    [initialized] row: CheckPayment already refuses the session (expired),
    and GenerateAddress no longer reuses the row; yet the monitor still
    probes the chain for it rather than expiring it, and the hourly cleanup
    leaves it as it is. *)
Theorem expiry_instant env args w p :
  find (by_address (arg_address args)) (pending_rows w) = Some p ->
  Pending.status p = initialized ->
  now env = Pending.expires_at p ->
  (forall expected metadata,
     validateBitcoinAddress (arg_address args) BITCOIN_NETWORK = Ok tt ->
     checkBitcoinPayment env (arg_address args) (Pending.session_id p) expected metadata w
     = (w, Throw (FailedToCheck SessionExpired))) /\
  (find (by_session_amount (Pending.session_id p) (Pending.expected_amount_usd p))
     (pending_rows w) = Some p ->
   existing_session (now env) (Pending.session_id p) (Pending.expected_amount_usd p) (db w)
   = None) /\
  trace (fst (monitorSinglePayment env args w)) = trace w ++ [ProbeCall (arg_address args)] /\
  (NoDup (map Pending._id (pending_rows w)) ->
   In p (pending_bitcoin_payments (fst (cleanupExpiredPendingPayments (now env) (db w))))).
Proof. hide_config.
  intros F St Ex. split; [|split; [|split]].
  - intros expected metadata V.
    unfold checkBitcoinPayment, try_rethrow, bind, check, runMutation.
    rewrite V. unfold validateSessionOwnsAddress. unfold pending_rows in F.
    cbn [fst snd]. rewrite F, String.eqb_refl, St. cbn [negb Status_eqb andb].
    destruct (Z.leb_spec (Pending.expires_at p) (now env)); [reflexivity|lia].
  - intros Fs. unfold existing_session, checkExistingPaymentSession, pending_rows in *.
    cbn [snd]. rewrite Fs.
    destruct (Z.ltb_spec (now env) (Pending.expires_at p)); [lia|reflexivity].
  - assert (M : post (monitorSinglePayment env args) w
                  (fun w' _ => trace w' = trace w ++ [ProbeCall (arg_address args)])).
    { unfold monitorSinglePayment. unfold pending_rows in F.
      repeat wp_step.
      all: unfold getPendingPaymentByAddressInternal in E; inversion E; subst; clear E.
      all: try congruence.
      all: try (rewrite F in *;
                match goal with H : Some _ = Some _ |- _ => injection H as <- end;
                rewrite St in *; cbn in *; try discriminate).
      all: try match goal with
               | H : (Pending.expires_at _ <? now _) = true |- _ =>
                   apply Z.ltb_lt in H; lia
               end.
      all: try reflexivity.
      all: unfold attach_if_new; repeat wp_step; reflexivity. }
    exact M.
  - intros N. unfold pending_rows in *.
    destruct (cleanup_computed (now env) (db w) N) as (A & _).
    rewrite A. apply cleaned_keeps_open.
    + apply find_some in F. tauto.
    + left. exact St.
    + lia.
Qed.

(** ** The ledger's queries *)

Lemma total_append d row :
  fold_left (fun sum donation => (sum + Donation.amount donation)%Q)
    (donations d ++ [row]) 0%Q
  = (ledger_total d + Donation.amount row)%Q.
Proof. unfold ledger_total. rewrite fold_left_app. reflexivity. Qed.

(** The public total and the lookup by payment id, against the two ways a
    ledger row is written.  The total is the sum of the rows' amounts.  A
    CreateDonation for an address not yet in the ledger raises the total by
    its amount, and the lookup then returns the new row; for an address
    already there the total and the row stay as they were, whatever amount
    the later call carries: the first write wins.  The same holds of the
    ledger's own mutation once its arguments pass validation, which returns
    the identifier of the row that the lookup then finds. *)
Theorem ledger_total_counts_a_payment_once d :
  getAmountTotal d = (d, Ok (ledger_total d)) /\
  (forall address amount_usd display_name message,
     let d' := fst (createDonationFromPayment address amount_usd display_name message d) in
     (find (by_payment_id address) (donations d) = None ->
        ledger_total d' = (ledger_total d + amount_usd)%Q /\
        snd (getDonationByPaymentId address d')
        = Ok (Some (Donation.mk (next_id d) amount_usd address display_name bitcoin message))) /\
     (forall x, find (by_payment_id address) (donations d) = Some x ->
        ledger_total d' = ledger_total d /\
        snd (getDonationByPaymentId address d') = Ok (Some x))) /\
  (forall amount display_name payment_id payment_method message,
     validateDisplayName display_name = Ok tt ->
     (if truthy_string message then validateMessage message else Ok tt) = Ok tt ->
     let r := create amount display_name payment_id payment_method message d in
     (find (by_payment_id payment_id) (donations d) = None ->
        ledger_total (fst r) = (ledger_total d + amount)%Q /\
        snd r = Ok (next_id d) /\
        snd (getDonationByPaymentId payment_id (fst r))
        = Ok (Some (Donation.mk (next_id d) amount payment_id display_name payment_method
                      message))) /\
     (forall x, find (by_payment_id payment_id) (donations d) = Some x ->
        r = (d, Ok (Donation._id x)) /\
        snd (getDonationByPaymentId payment_id (fst r)) = Ok (Some x))).
Proof.
  split; [reflexivity|]. split.
  - intros address amount_usd display_name message. cbv zeta. split.
    + intros F. rewrite (createDonation_fresh _ _ _ _ _ F). cbn [fst].
      split.
      * unfold ledger_total at 1. cbn [donations fresh_id with_donations].
        apply total_append.
      * unfold getDonationByPaymentId. cbn [snd donations fresh_id with_donations].
        rewrite find_app_single, F. unfold by_payment_id. cbn [Donation.payment_id].
        rewrite String.eqb_refl. reflexivity.
    + intros x F. rewrite (createDonation_existing _ _ _ _ _ _ F). cbn [fst].
      split; [reflexivity|]. unfold getDonationByPaymentId. cbn [snd]. rewrite F.
      reflexivity.
  - intros amount display_name payment_id payment_method message V1 V2. cbv zeta.
    unfold create, bind, check. rewrite V1, V2. split.
    + intros F. rewrite F. cbn [fst snd]. split; [|split; [reflexivity|]].
      * unfold ledger_total at 1. cbn [donations fresh_id with_donations].
        apply total_append.
      * unfold getDonationByPaymentId. cbn [snd donations fresh_id with_donations].
        rewrite find_app_single, F. unfold by_payment_id. cbn [Donation.payment_id].
        rewrite String.eqb_refl. reflexivity.
    + intros x F. rewrite F. cbn [fst snd]. split; [reflexivity|].
      unfold getDonationByPaymentId. cbn [snd]. rewrite F. reflexivity.
Qed.

(** ** The price between the quotes *)





(** ** The PayPal order-to-capture mappings *)

Lemma find_filter_kept {A} (f g : A -> bool) l x :
  find f l = Some x -> g x = true -> find f (filter g l) = Some x.
Proof.
  induction l as [|y l IH]; cbn; [discriminate|].
  destruct (f y) eqn:Fy.
  - intros H G. injection H as ->. rewrite G. cbn. rewrite Fy. reflexivity.
  - intros H G. destruct (g y); cbn; [rewrite Fy|]; auto.
Qed.

(** Storing and looking up a mapping.  A lookup returns null exactly when no
    mapping has the order id.  Storing a mapping for an order that has none
    makes the lookup return the capture id just stored and leaves the
    lookups of other orders as they were; storing one for an order that
    already has a mapping changes nothing and returns the identifier of the
    existing mapping: the first capture id stays. *)
Theorem payment_id_mapping_round_trip now order_id capture_id d :
  let r := storePaymentIdMapping now order_id capture_id d in
  (snd (getPaymentIdMapping order_id d) = Ok None <->
   forall m, In m (payment_id_mappings d) -> Mapping.source_id m <> order_id) /\
  (snd (getPaymentIdMapping order_id d) = Ok None ->
     snd r = Ok None /\
     snd (getPaymentIdMapping order_id (fst r)) = Ok (Some capture_id) /\
     forall other, other <> order_id ->
       snd (getPaymentIdMapping other (fst r)) = snd (getPaymentIdMapping other d)) /\
  (forall first, snd (getPaymentIdMapping order_id d) = Ok (Some first) ->
     fst r = d /\ (exists id, snd r = Ok (Some id)) /\
     snd (getPaymentIdMapping order_id (fst r)) = Ok (Some first)).
Proof.
  cbv zeta. unfold getPaymentIdMapping, storePaymentIdMapping. cbn [snd].
  destruct (find (by_source_id order_id) (payment_id_mappings d)) as [m|] eqn:F;
    cbn [fst snd payment_id_mappings].
  - pose proof (find_some _ _ F) as [Hin Hm]. unfold by_source_id in Hm.
    apply String.eqb_eq in Hm.
    split; [|split].
    + split; [discriminate|]. intros H. exfalso. exact (H m Hin Hm).
    + discriminate.
    + intros first H. rewrite F. split; [reflexivity|]. split; [eauto|exact H].
  - split; [|split].
    + split; [|reflexivity]. intros _ m Hm E.
      pose proof (find_none _ _ F m Hm) as X. unfold by_source_id in X.
      rewrite E, String.eqb_refl in X. discriminate.
    + intros _. split; [reflexivity|].
      rewrite find_app_single, F. unfold by_source_id at 1. cbn [Mapping.source_id].
      rewrite String.eqb_refl. split; [reflexivity|].
      intros other N. rewrite find_app_single.
      destruct (find (by_source_id other) (payment_id_mappings d)); [reflexivity|].
      unfold by_source_id. cbn [Mapping.source_id].
      destruct (String.eqb_spec order_id other); [congruence|reflexivity].
    + discriminate.
Qed.

Lemma mappings_after_deletes rows : forall d,
  payment_id_mappings
    (fold_left (fun d' mapping => delete_mapping (Mapping._id mapping) d') rows d)
  = filter (fun m => negb (existsb (fun r => Nat.eqb (Mapping._id r) (Mapping._id m)) rows))
      (payment_id_mappings d) /\
  next_mapping_id
    (fold_left (fun d' mapping => delete_mapping (Mapping._id mapping) d') rows d)
  = next_mapping_id d.
Proof.
  induction rows as [|r rows IH]; intros d; cbn [fold_left existsb].
  - split; [|reflexivity].
    induction (payment_id_mappings d) as [|x l IHl]; [reflexivity|].
    cbn [filter negb]. f_equal. exact IHl.
  - destruct (IH (delete_mapping (Mapping._id r) d)) as [A B]. rewrite A, B.
    split; [|reflexivity]. unfold delete_mapping. cbn [payment_id_mappings].
    rewrite filter_filter. apply filter_ext. intros m.
    rewrite (Nat.eqb_sym (Mapping._id r) (Mapping._id m)), negb_orb. reflexivity.
Qed.

Lemma same_id_same_mapping (l : list Mapping.t) x y :
  NoDup (map Mapping._id l) -> In x l -> In y l -> Mapping._id x = Mapping._id y -> x = y.
Proof.
  induction l as [|z l IH]; cbn; intros N Hx Hy E; [contradiction|].
  inversion N as [|? ? Hz N']; subst.
  destruct Hx as [->|Hx], Hy as [->|Hy]; auto.
  - exfalso. apply Hz. rewrite E. apply in_map. exact Hy.
  - exfalso. apply Hz. rewrite <- E. apply in_map. exact Hx.
Qed.

Lemma mapping_cleanup_computed now d :
  NoDup (map Mapping._id (payment_id_mappings d)) ->
  payment_id_mappings (fst (cleanupOldPaymentIdMappings now d))
  = filter (fun m => negb (mapping_is_old now m)) (payment_id_mappings d) /\
  next_mapping_id (fst (cleanupOldPaymentIdMappings now d)) = next_mapping_id d.
Proof.
  intros N. unfold cleanupOldPaymentIdMappings. cbn [fst].
  destruct (mappings_after_deletes
              (filter (fun m => Mapping._creationTime m <? now - 7 * 24 * 60 * 60 * 1000)
                 (payment_id_mappings d)) d) as [A B].
  rewrite A, B. split; [|reflexivity].
  apply filter_ext_in. intros m Hm. f_equal. unfold mapping_is_old.
  destruct (Mapping._creationTime m <? now - 7 * 24 * 60 * 60 * 1000) eqn:O.
  - apply existsb_exists. exists m. split; [apply filter_In; auto|apply Nat.eqb_refl].
  - destruct (existsb _ _) eqn:X; [|reflexivity].
    apply existsb_exists in X. destruct X as (r & Hr & E).
    apply filter_In in Hr. destruct Hr as [Hr Pr]. apply Nat.eqb_eq in E.
    rewrite (same_id_same_mapping _ r m N Hr Hm E) in Pr. congruence.
Qed.

Lemma mapping_ids_fresh_run d op : mapping_ids_fresh d -> mapping_ids_fresh (run_mapping d op).
Proof. hide_config.
  intros [N L]. destruct op as [now order_id capture_id|now]; cbn [run_mapping].
  - unfold storePaymentIdMapping.
    destruct (find _ _); cbn [fst]; [split; assumption|].
    split; cbn [payment_id_mappings next_mapping_id].
    + rewrite map_app. cbn [map Mapping._id]. apply NoDup_app; [exact N| | ].
      * repeat constructor. intros [].
      * intros x Hx [<-|[]]. apply in_map_iff in Hx. destruct Hx as (m & E & Hm).
        specialize (L m Hm). lia.
    + intros m Hm. apply in_app_or in Hm. destruct Hm as [Hm|[<-|[]]].
      * specialize (L m Hm). lia.
      * cbn. lia.
  - destruct (mapping_cleanup_computed now d N) as [A B].
    split; rewrite A.
    + clear A B L. induction (payment_id_mappings d) as [|x l IH]; cbn; [constructor|].
      inversion N as [|? ? Hx N']; subst.
      destruct (negb (mapping_is_old now x)); cbn; auto.
      constructor; auto. intros H. apply Hx.
      apply in_map_iff in H. destruct H as (m & E & Hm). apply filter_In in Hm.
      rewrite <- E. apply in_map. tauto.
    + rewrite B. intros m Hm. apply filter_In in Hm. apply L. tauto.
Qed.

Lemma mapping_ids_fresh_reachable ops :
  mapping_ids_fresh (fold_left run_mapping ops empty_mappings).
Proof.
  assert (G : forall d, mapping_ids_fresh d -> mapping_ids_fresh (fold_left run_mapping ops d)).
  { induction ops as [|op ops IH]; cbn; intros d H; [exact H|].
    apply IH. apply mapping_ids_fresh_run. exact H. }
  apply G. split; [constructor|intros m []].
Qed.

(** The hourly cleanup of the mappings, in any state reached by storing
    and cleaning up: it deletes exactly the mappings created more than seven
    days before, returns their number and keeps the others in order.  So
    an order whose mapping is younger than that is still resolved to the
    same capture id afterwards. *)
Theorem mapping_cleanup_drops_the_old ops now :
  let d := fold_left run_mapping ops empty_mappings in
  let r := cleanupOldPaymentIdMappings now d in
  payment_id_mappings (fst r)
  = filter (fun m => negb (mapping_is_old now m)) (payment_id_mappings d) /\
  snd r = Ok (List.length (filter (mapping_is_old now) (payment_id_mappings d))) /\
  (forall order_id m,
     find (by_source_id order_id) (payment_id_mappings d) = Some m ->
     now - 7 * 24 * 60 * 60 * 1000 <= Mapping._creationTime m ->
     snd (getPaymentIdMapping order_id (fst r))
     = Ok (Some (Mapping.donation_payment_id m))).
Proof.
  cbv zeta. set (d := fold_left run_mapping ops empty_mappings).
  destruct (mapping_ids_fresh_reachable ops) as [N _]. fold d in N.
  destruct (mapping_cleanup_computed now d N) as [A _].
  split; [exact A|]. split; [reflexivity|].
  intros order_id m F Y. unfold getPaymentIdMapping. cbn [snd]. rewrite A.
  rewrite (find_filter_kept _ _ _ m F); [reflexivity|].
  unfold mapping_is_old. apply negb_true_iff. apply Z.ltb_ge. exact Y.
Qed.

(** ** The names and messages the monitor publishes *)

Lemma inputs_valid_presentable amount m : inputs_valid amount m -> presentable m.
Proof.
  intros (_ & V2 & V3). unfold presentable. split.
  - unfold getDisplayName.
    destruct m as [[player use msg]|]; [|reflexivity].
    cbn [Metadata.use_player_name Metadata.player_name metadata_player_name] in *.
    destruct use; cbn [andb]; [|reflexivity].
    destruct (truthy_string player) eqn:T; [|reflexivity].
    destruct player as [n|]; [|discriminate].
    unfold validatePlayerName in V2. unfold truthy_string in T.
    apply negb_true_iff in T. rewrite T in V2.
    unfold validateDisplayName.
    destruct (Z.ltb_spec maxPlayerNameLength (strlen n)); [discriminate|].
    destruct (trim_is_empty n); [discriminate|].
    destruct (Z.ltb_spec maxDisplayNameLength (strlen n)); [|reflexivity].
    unfold maxPlayerNameLength, maxDisplayNameLength in *. lia.
  - destruct (truthy_string (metadata_message m)) eqn:T; [exact V3|].
    unfold truthy_string in T. unfold validateMessage.
    destruct (metadata_message m) as [s|]; [|reflexivity].
    apply negb_false_iff in T. rewrite T. reflexivity.
Qed.

Lemma generate_validates env amount s m w :
  inputs_valid amount m \/ fst (generateBitcoinAddress env amount s m w) = w.
Proof.
  unfold inputs_valid, generateBitcoinAddress, bind, check.
  destruct (validateDonationAmount amount) as [[]|e1]; [|right; reflexivity].
  destruct (if truthy_string (metadata_player_name m)
            then validatePlayerName (metadata_player_name m) else Ok tt) as [[]|e2];
    [|right; reflexivity].
  destruct (if truthy_string (metadata_message m)
            then validateMessage (metadata_message m) else Ok tt) as [[]|e3];
    [|right; reflexivity].
  left. auto.
Qed.

Lemma presentable_patch id f d :
  (forall p, Pending.metadata (f p) = Pending.metadata p) ->
  rows_presentable d -> rows_presentable (patch_pending id f d).
Proof.
  intros Hf H. unfold rows_presentable, patch_pending in *.
  cbn [pending_bitcoin_payments with_pending].
  apply Forall_map. eapply Forall_impl; [|exact H].
  intros p Hp. cbv beta. destruct (Nat.eqb _ _); [rewrite Hf|]; exact Hp.
Qed.

Lemma presentable_delete id d : rows_presentable d -> rows_presentable (delete_pending id d).
Proof. hide_config.
  intros H. unfold rows_presentable, delete_pending in *.
  cbn [pending_bitcoin_payments with_pending].
  apply Forall_forall. intros p Hp. apply filter_In in Hp.
  rewrite Forall_forall in H. apply H. tauto.
Qed.

Lemma presentable_pending_same d d' :
  pending_bitcoin_payments d' = pending_bitcoin_payments d ->
  rows_presentable d -> rows_presentable d'.
Proof. unfold rows_presentable. intros ->. auto. Qed.

Lemma presentable_getNext : preserves rows_presentable getNextDerivationIndex.
Proof.
  intros d H. eapply presentable_pending_same; [|exact H].
  apply (proj1 (getNext_frame d)).
Qed.

Lemma presentable_createPending now sid a b u x i m :
  presentable m ->
  preserves rows_presentable (createPendingBitcoinPayment now sid a b u x i m).
Proof.
  intros Hm d H. unfold rows_presentable in *.
  cbn [createPendingBitcoinPayment fst pending_bitcoin_payments fresh_id with_pending].
  apply Forall_app. split; [exact H|]. constructor; [exact Hm|constructor].
Qed.

Lemma presentable_jobId a j : preserves rows_presentable (updatePendingPaymentJobId a j).
Proof.
  intros d H. unfold updatePendingPaymentJobId.
  destruct (find _ _); [|exact H]. cbn [fst]. apply presentable_patch; auto.
Qed.

Lemma presentable_withTx now a t :
  preserves rows_presentable (updatePendingPaymentWithTx now a t).
Proof.
  intros d H. unfold updatePendingPaymentWithTx.
  destruct (find _ _); [|exact H]. destruct (negb _ && negb _); [exact H|].
  cbn [fst]. apply presentable_patch; auto.
Qed.

Lemma presentable_setStatus a s :
  preserves rows_presentable (updatePendingPaymentStatus a s).
Proof.
  intros d H. unfold updatePendingPaymentStatus.
  destruct (find _ _); [|exact H]. cbn [fst]. apply presentable_patch; auto.
Qed.

Lemma presentable_markExpired a s : preserves rows_presentable (markPaymentExpired a s).
Proof.
  intros d H. unfold markPaymentExpired.
  destruct (find _ _); [|exact H]. destruct (negb _); [exact H|].
  destruct (Status_eqb _ _); [|exact H]. cbn [fst]. apply presentable_patch; auto.
Qed.

Lemma presentable_createDonation a u n m :
  preserves rows_presentable (createDonationFromPayment a u n m).
Proof.
  intros d H. destruct (createDonation_outcome a u n m d) as (d' & c & E & P & _).
  rewrite E. cbn [fst]. eapply presentable_pending_same; eauto.
Qed.

Lemma presentable_create amount n pid method m :
  preserves rows_presentable (create amount n pid method m).
Proof.
  unfold create. repeat preserves_step.
  intros d H. destruct (find _ _); [exact H|].
  eapply presentable_pending_same; [|exact H]. reflexivity.
Qed.

Lemma presentable_cleanup now : preserves rows_presentable (cleanupExpiredPendingPayments now).
Proof.
  assert (PE : forall rows d, rows_presentable d ->
                 rows_presentable (patch_each (Pending.with_status expired) rows d)).
  { unfold patch_each. induction rows as [|r rows IH]; cbn; intros d H; [exact H|].
    apply IH. apply presentable_patch; auto. }
  assert (DE : forall rows d, rows_presentable d -> rows_presentable (delete_each rows d)).
  { unfold delete_each. induction rows as [|r rows IH]; cbn; intros d H; [exact H|].
    apply IH. apply presentable_delete. exact H. }
  intros d H. unfold cleanupExpiredPendingPayments. cbn [fst].
  repeat apply DE. repeat apply PE. exact H.
Qed.

Lemma presentable_generate env amount s m w :
  on_db rows_presentable w ->
  on_db rows_presentable (fst (generateBitcoinAddress env amount s m w)).
Proof.
  intros H.
  destruct (generate_validates env amount s m w) as [V|E]; [|rewrite E; exact H].
  apply inputs_valid_presentable in V.
  pose proof (generate_db env amount s m w) as G. unfold post in G. unfold on_db.
  destruct G as [G|(d1 & G1 & [G|(a & p & j & G)])]; rewrite G.
  - exact H.
  - change d1 with (fst (d1, @Ok Z (next_index (db w)))). rewrite <- G1.
    apply presentable_getNext. exact H.
  - apply presentable_jobId. apply presentable_createPending; [exact V|].
    change d1 with (fst (d1, @Ok Z (next_index (db w)))). rewrite <- G1.
    apply presentable_getNext. exact H.
Qed.

Lemma presentable_run env op w :
  on_db rows_presentable w -> on_db rows_presentable (run env op w).
Proof.
  intros Hw. destruct op; cbn [run].
  - apply presentable_generate. exact Hw.
  - apply preserves_check_payment;
      auto using presentable_createDonation, presentable_setStatus.
  - apply preserves_monitor;
      auto using presentable_createDonation, presentable_setStatus, presentable_withTx.
  - apply (preserves_runMutation rows_presentable); auto using presentable_markExpired.
  - apply (preserves_runMutation rows_presentable); auto using presentable_cleanup.
  - apply (preserves_runMutation rows_presentable); auto using presentable_create.
Qed.

Lemma presentable_reachable calls : rows_presentable (db (exec calls empty_world)).
Proof.
  apply (exec_invariant (on_db rows_presentable)).
  - exact presentable_run.
  - constructor.
Qed.

(** What a monitor job can add to the ledger: nothing, or one Bitcoin row
    for its address, named and annotated from the metadata of the row it
    found. *)
Lemma monitor_ledger_row env args w :
  post (monitorSinglePayment env args) w (fun w' _ =>
    donations (db w') = donations (db w) \/
    exists p amount_usd,
      find (by_address (arg_address args)) (pending_rows w) = Some p /\
      donations (db w') =
        donations (db w) ++
          [Donation.mk (next_id (db w)) amount_usd (arg_address args)
             (getDisplayName (Pending.metadata p) "Anonymous") bitcoin
             (metadata_message (Pending.metadata p))]).
Proof.
  unfold monitorSinglePayment, pending_rows.
  repeat wp_step.
  all: try match goal with
           | E : createDonationFromPayment ?a ?u ?n ?m ?d = (?d1, _) |- _ =>
               destruct (createDonation_outcome a u n m d)
                 as (dc & created & Ec & _ & _ & _ & _ & Lc);
               rewrite E in Ec; inversion Ec; subst dc; clear Ec E
           end.
  all: ledger_facts.
  all: try (left; congruence).
  all: destruct created; [right|left; congruence].
  all: do 2 eexists; split; [eassumption|].
  all: try (rewrite L); exact Lc.
Qed.

(** Names and messages are validated where the payment starts.  In every
    reachable state each pending row carries metadata whose display name
    (the player name when asked for, else "Anonymous") and message pass the
    ledger's validators: GenerateAddress, the only writer of metadata,
    checked them.  So whatever a monitor job adds to the ledger is at most
    one row, for its address, paid by Bitcoin, with a display name of 1 to
    200 non-blank characters and a message the validator accepts. *)
Theorem monitor_publishes_validated_names calls :
  let w := exec calls empty_world in
  (forall r, In r (pending_rows w) -> presentable (Pending.metadata r)) /\
  (forall env args,
     exists added,
       donations (db (fst (monitorSinglePayment env args w))) = donations (db w) ++ added /\
       (List.length added <= 1)%nat /\
       Forall (fun x => Donation.payment_id x = arg_address args /\
                        Donation.payment_method x = bitcoin /\
                        validateDisplayName (Donation.display_name x) = Ok tt /\
                        validateMessage (Donation.message x) = Ok tt) added).
Proof.
  cbv zeta. pose proof (presentable_reachable calls) as P.
  unfold rows_presentable in P. rewrite Forall_forall in P.
  split; [exact P|].
  intros env args.
  pose proof (monitor_ledger_row env args (exec calls empty_world)) as M. unfold post in M.
  destruct M as [M|(p & u & F & M)].
  - exists []. rewrite app_nil_r. repeat split; auto.
  - eexists; split; [exact M|]. split; [cbn; lia|].
    constructor; [|constructor]. cbn.
    apply find_some in F. destruct F as [F _].
    destruct (P p F) as [N1 N2]. auto.
Qed.

(** ** What the monitor and CheckPayment leave alone *)

Lemma touched_refl a d : only_address_touched a d d.
Proof. repeat split; auto. Qed.

Lemma touched_same a d d' :
  pending_bitcoin_payments d' = pending_bitcoin_payments d ->
  bitcoin_config d' = bitcoin_config d ->
  only_address_touched a d d'.
Proof. intros P C. unfold only_address_touched. rewrite P, C. auto. Qed.

Lemma touched_trans a d1 d2 d3 :
  only_address_touched a d1 d2 -> only_address_touched a d2 d3 ->
  only_address_touched a d1 d3.
Proof.
  intros (I1 & C1 & R1) (I2 & C2 & R2). repeat split; try congruence.
  intros r Hr Ha. apply R2; auto.
Qed.

Lemma touched_patch a f d p :
  NoDup (map Pending._id (pending_bitcoin_payments d)) ->
  (forall q, Pending._id (f q) = Pending._id q) ->
  find (by_address a) (pending_bitcoin_payments d) = Some p ->
  only_address_touched a d (patch_pending (Pending._id p) f d).
Proof.
  intros N Hf F. apply find_some in F. destruct F as [Hp Ha].
  unfold by_address in Ha. apply String.eqb_eq in Ha.
  unfold only_address_touched, patch_pending.
  cbn [pending_bitcoin_payments with_pending bitcoin_config].
  split; [|split; [reflexivity|]].
  - rewrite map_map. apply map_ext. intros q.
    destruct (Nat.eqb _ _); [apply Hf|reflexivity].
  - intros r Hr Hne. apply in_map_iff. exists r. split; [|exact Hr].
    destruct (Nat.eqb_spec (Pending._id r) (Pending._id p)) as [E|E]; [|reflexivity].
    exfalso. apply Hne. rewrite (same_id_same_row _ r p N Hr Hp E). exact Ha.
Qed.

Lemma touched_setStatus a s d :
  NoDup (map Pending._id (pending_bitcoin_payments d)) ->
  only_address_touched a d (fst (updatePendingPaymentStatus a s d)).
Proof.
  intros N. unfold updatePendingPaymentStatus.
  destruct (find (by_address a) (pending_bitcoin_payments d)) as [p|] eqn:F;
    [|apply touched_refl].
  cbn [fst]. apply touched_patch; auto.
Qed.

Lemma touched_withTx now a t d :
  NoDup (map Pending._id (pending_bitcoin_payments d)) ->
  only_address_touched a d (fst (updatePendingPaymentWithTx now a t d)).
Proof.
  intros N. unfold updatePendingPaymentWithTx.
  destruct (find (by_address a) (pending_bitcoin_payments d)) as [p|] eqn:F;
    [|apply touched_refl].
  destruct (negb _ && negb _); [apply touched_refl|].
  cbn [fst]. apply touched_patch; auto.
Qed.

Lemma touched_createDonation a u n m d :
  only_address_touched a d (fst (createDonationFromPayment a u n m d)).
Proof.
  destruct (createDonation_outcome a u n m d) as (d' & c & E & P & C & _).
  rewrite E. cbn [fst]. apply touched_same; assumption.
Qed.

Lemma touched_settled a u n m d :
  NoDup (map Pending._id (pending_bitcoin_payments d)) ->
  only_address_touched a d
    (fst (updatePendingPaymentStatus a confirmed
            (fst (createDonationFromPayment a u n m d)))).
Proof.
  intros N. eapply touched_trans; [apply touched_createDonation|].
  apply touched_setStatus.
  destruct (createDonation_outcome a u n m d) as (d' & c & E & P & _).
  rewrite E. cbn [fst]. rewrite P. exact N.
Qed.

(** What CheckPayment can do to the database: nothing; or create the
    donation; or create it and confirm the row. *)
Lemma check_db env address session_id expected metadata w :
  post (checkBitcoinPayment env address session_id expected metadata) w (fun w' _ =>
    db w' = db w \/
    exists u n m,
      db w' = fst (createDonationFromPayment address u n m (db w)) \/
      db w' = fst (updatePendingPaymentStatus address confirmed
                     (fst (createDonationFromPayment address u n m (db w))))).
Proof.
  unfold checkBitcoinPayment.
  repeat wp_step.
  all: try (unfold validateSessionOwnsAddress in E; injection E as <- _).
  all: try (left; reflexivity).
  all: right; do 3 eexists.
  all: try (right; rewrite E0; cbn [fst]; rewrite E1; reflexivity).
  all: left; rewrite E0; reflexivity.
Qed.

(** A monitor job and a CheckPayment call touch the row of their address
    and nothing else in the pending table: in every reachable state they
    add no row and delete none, leave every row of another address exactly
    as it was, and leave the derivation counter alone. *)
Theorem settlement_touches_one_row calls :
  let w := exec calls empty_world in
  (forall env args,
     only_address_touched (arg_address args) (db w)
       (db (fst (monitorSinglePayment env args w)))) /\
  (forall env address session_id expected metadata,
     only_address_touched address (db w)
       (db (fst (checkBitcoinPayment env address session_id expected metadata w)))).
Proof.
  cbv zeta. destruct (ids_fresh_reachable calls) as [N _].
  set (w := exec calls empty_world) in *.
  split.
  - intros env args. pose proof (monitor_db env args w) as M. unfold post in M.
    destruct M as [M | (p & F & Hc & He & [M | [(tx & M) | (u & n & m & M)]])]; rewrite M.
    + apply touched_refl.
    + apply touched_setStatus. exact N.
    + apply touched_withTx. exact N.
    + apply touched_settled. exact N.
  - intros env address session_id expected metadata.
    pose proof (check_db env address session_id expected metadata w) as M. unfold post in M.
    destruct M as [M | (u & n & m & [M | M])]; rewrite M.
    + apply touched_refl.
    + apply touched_createDonation.
    + apply touched_settled. exact N.
Qed.

(** ** Monitor jobs do not multiply *)

Lemma scheduler_runMutation {A} (m : M Db A) w :
  scheduler (fst (runMutation m w)) = scheduler w.
Proof. unfold runMutation. destruct (m (db w)) as [d [a|e]]; reflexivity. Qed.

Ltac no_job :=
  exists []; rewrite app_nil_r; split; [reflexivity|]; split; [cbn; lia|];
  split; [constructor|]; intros N; exfalso; apply N; reflexivity.

Ltac one_job :=
  eexists; split; [reflexivity|]; split; [cbn; lia|]; split; [repeat constructor|];
  intros _; try exact I; repeat constructor.

(** Every entry point leaves the jobs already scheduled as they are and
    schedules at most one more, ten seconds ahead.  Only GenerateAddress
    and the monitor schedule a job; the monitor schedules its follow-up
    with its own arguments, so a job has at most one successor. *)
Theorem monitor_jobs_do_not_multiply env op w :
  exists added,
    scheduler (run env op w) = scheduler w ++ added /\
    (List.length added <= 1)%nat /\
    Forall (fun j => run_at j = now env + 10000) added /\
    (added <> [] ->
       match op with
       | GenerateAddress _ _ _ => True
       | Monitor args => Forall (fun j => job_args j = args) added
       | _ => False
       end).
Proof.
  destruct op; cbn [run].
  - change (post (generateBitcoinAddress env amount session_id metadata) w
              (fun w' _ => exists added, scheduler w' = scheduler w ++ added /\
                 (List.length added <= 1)%nat /\
                 Forall (fun j => run_at j = now env + 10000) added /\
                 (added <> [] -> True))).
    unfold generateBitcoinAddress.
    repeat wp_step.
    all: try no_job.
    all: one_job.
  - change (post (checkBitcoinPayment env address session_id expected_btc_amount metadata) w
              (fun w' _ => exists added, scheduler w' = scheduler w ++ added /\
                 (List.length added <= 1)%nat /\
                 Forall (fun j => run_at j = now env + 10000) added /\
                 (added <> [] -> False))).
    unfold checkBitcoinPayment.
    repeat wp_step.
    all: no_job.
  - change (post (monitorSinglePayment env args) w
              (fun w' _ => exists added, scheduler w' = scheduler w ++ added /\
                 (List.length added <= 1)%nat /\
                 Forall (fun j => run_at j = now env + 10000) added /\
                 (added <> [] -> Forall (fun j => job_args j = args) added))).
    unfold monitorSinglePayment.
    repeat wp_step.
    all: try no_job.
    all: try one_job.
    all: unfold attach_if_new; repeat wp_step.
    all: try one_job.
  - rewrite scheduler_runMutation. no_job.
  - rewrite scheduler_runMutation. no_job.
  - rewrite scheduler_runMutation. no_job.
Qed.

(** ** The Stripe webhook *)

Lemma create_then_again amount n pid method m d d' id :
  create amount n pid method m d = (d', Ok id) ->
  exists x, find (by_payment_id pid) (donations d') = Some x /\
            Donation._id x = id /\
            create amount n pid method m d' = (d', Ok id).
Proof.
  unfold create, bind, check.
  destruct (validateDisplayName n) as [[]|e1]; [|discriminate].
  destruct (if truthy_string m then validateMessage m else Ok tt) as [[]|e2]; [|discriminate].
  destruct (find (by_payment_id pid) (donations d)) as [x|] eqn:F.
  - intros H. injection H as <- <-. exists x. rewrite F. auto.
  - intros H. injection H as <- <-.
    cbn [donations fresh_id with_donations].
    rewrite find_app_single, F.
    assert (B : by_payment_id pid (Donation.mk (next_id d) amount pid n method m) = true)
      by (unfold by_payment_id; cbn [Donation.payment_id]; apply String.eqb_refl).
    rewrite B. eexists. split; [reflexivity|]. split; reflexivity.
Qed.

Lemma stripe_name session :
  getDisplayName (stripe_metadata session)
    (or_else (Stripe.customer_details_name session) "Anonymous")
  = stripe_display_name session.
Proof.
  unfold stripe_metadata, stripe_display_name, getDisplayName, or_nothing, truthy_string.
  destruct (Stripe.metadata_use_player_name session) as [use|];
    destruct (Stripe.metadata_player_name session) as [player|];
    destruct (Stripe.metadata_message session) as [message|];
    try destruct (String.eqb use "true");
    try destruct (String.eqb player "") eqn:Ep;
    try destruct (String.eqb message "");
    cbn [negb andb Metadata.use_player_name Metadata.player_name];
    try rewrite Ep; cbn [negb andb]; reflexivity.
Qed.

Lemma stripe_amount_read session :
  (match Stripe.amount_total session with
   | Some cents => if cents =? 0 then 0%Q else (inject_Z cents / 100)%Q
   | None => 0%Q
   end == stripe_amount session)%Q.
Proof.
  unfold stripe_amount. destruct (Stripe.amount_total session) as [c|]; [|reflexivity].
  destruct (Z.eqb_spec c 0) as [->|]; reflexivity.
Qed.

(** The Stripe webhook writes to the ledger only for a delivery whose
    signature Stripe's check accepts and whose event is a completed
    checkout.  Then it records the donation under the session id, with
    Stripe's own total in dollars and the name the donor chose (the player
    name when asked for and not empty, otherwise the customer's name or
    "Anonymous"); and a delivery that succeeded can be repeated at will: the
    ledger holds the row for the session and is left exactly as it was. *)
Theorem stripe_webhook_records_a_checkout_once constructEvent signature payload d :
  let r := handleStripeWebhook constructEvent signature payload d in
  (constructEvent payload signature = None -> r = (d, Stripe.InvalidSignature)) /\
  (forall event, constructEvent payload signature = Some event ->
     Stripe.type event <> "checkout.session.completed" -> r = (d, Stripe.Received)) /\
  (forall event, constructEvent payload signature = Some event ->
     Stripe.type event = "checkout.session.completed" ->
     snd r = Stripe.Received ->
     let session := Stripe.object event in
     (exists x, find (by_payment_id (Stripe.id session)) (donations (fst r)) = Some x) /\
     handleStripeWebhook constructEvent signature payload (fst r) = (fst r, Stripe.Received) /\
     (find (by_payment_id (Stripe.id session)) (donations d) = None ->
      exists row,
        donations (fst r) = donations d ++ [row] /\
        Donation.payment_id row = Stripe.id session /\
        Donation.payment_method row = stripe /\
        Donation.display_name row = stripe_display_name session /\
        (Donation.amount row == stripe_amount session)%Q) /\
     (forall x, find (by_payment_id (Stripe.id session)) (donations d) = Some x ->
      fst r = d)).
Proof.
  cbv zeta. unfold handleStripeWebhook.
  destruct (constructEvent payload signature) as [event|] eqn:C.
  2:{ split; [reflexivity|]. split; intros; discriminate. }
  split; [discriminate|]. split.
  - intros e E N. injection E as <-.
    destruct (String.eqb_spec (Stripe.type event) "checkout.session.completed");
      [contradiction|reflexivity].
  - intros e E T. injection E as <-. rewrite T, String.eqb_refl.
    rewrite stripe_name.
    set (amount := match Stripe.amount_total (Stripe.object event) with
                   | Some cents => if cents =? 0 then 0%Q else (inject_Z cents / 100)%Q
                   | None => 0%Q
                   end).
    assert (A : (amount == stripe_amount (Stripe.object event))%Q)
      by apply stripe_amount_read.
    destruct (create amount (stripe_display_name (Stripe.object event))
                (Stripe.id (Stripe.object event)) stripe
                (metadata_message (stripe_metadata (Stripe.object event))) d)
      as [d' [id|e]] eqn:Cr; cbn [fst snd]; [|discriminate].
    intros _.
    destruct (create_then_again _ _ _ _ _ _ _ _ Cr) as (x & Fx & _ & Again).
    split; [eauto|]. split; [rewrite Again; reflexivity|].
    unfold create, bind, check in Cr.
    destruct (validateDisplayName _) as [[]|e1]; [|discriminate].
    destruct (if truthy_string _ then _ else _) as [[]|e2]; [|discriminate].
    split.
    + intros F. rewrite F in Cr. injection Cr as <- _.
      eexists. split; [reflexivity|]. cbn. auto.
    + intros y F. rewrite F in Cr. injection Cr as <- _. reflexivity.
Qed.

End Backend.

(** * Worked examples *)

(** A configuration to run the model on: mainnet, and a stand-in for the
    BIP84 derivation that gives each index a well-formed address of its
    own. *)
Definition example_key : string := "zprv-example".

Fixpoint q_suffix (n : nat) : string :=
  match n with
  | O => ""
  | S n' => String "q" (q_suffix n')
  end.

Definition example_derive (key : string) (index : Z) (network : Network) : option string :=
  Some (String.append
          match network with mainnet => "bc1" | testnet => "tb1" end
          (String.append "qw508d6qejxtdg4y5r3zarvary0c5xw7kv8f3t4" (q_suffix (Z.to_nat index)))).

Definition example_Number (s : string) : Z := 0.

(** A stand-in for [Number.parseFloat] on quotes written as whole numbers. *)
Fixpoint parse_digits (acc : Z) (s : string) : Z :=
  match s with
  | EmptyString => acc
  | String c s' =>
      let n := Z.of_nat (nat_of_ascii c) in
      if (48 <=? n) && (n <=? 57) then parse_digits (10 * acc + (n - 48)) s' else acc
  end.

Definition example_parseFloat (s : string) : Q := inject_Z (parse_digits 0 s).

Definition example_run : list (Env * Op) -> World -> World :=
  exec mainnet example_key example_derive example_Number.

Definition address0 : string := "bc1qw508d6qejxtdg4y5r3zarvary0c5xw7kv8f3t4".

(** GenerateAddress(100, "s1") at time 0, the price being 45000. *)
Definition world_generated : World :=
  example_run [(mkEnv 0 true (Some 45000%Q) Probe.no_payment, GenerateAddress 100 "s1" None)]
              empty_world.

Definition row_generated : Pending.t :=
  nth 0 (pending_rows world_generated) (Pending.mk 0 "" "" 0 0 0 0 None expired None None None 0 0).

(** The amount the row expects, 100/45000 BTC, arrives with three
    confirmations. *)
Definition probe_paid_in_full : Probe.result := Probe.paid "abc" (100 # 45000) 3.

(** The monitor then finds the payment, thirty seconds in. *)
Definition world_confirmed : World :=
  example_run [(mkEnv 30000 true None probe_paid_in_full,
                Monitor (mkMonitorArgs address0 (100 # 45000) 0))]
              world_generated.

(** Or the client's countdown ends first and it calls MarkExpired. *)
Definition world_marked_expired : World :=
  example_run [(mkEnv 600000 true None Probe.no_payment, MarkExpired address0 "s1")]
              world_generated.

Example happy_path :
  map Pending.status (pending_rows world_confirmed) = [confirmed] /\
  map Donation.payment_id (donations (db world_confirmed)) = [address0] /\
  map Donation.amount (donations (db world_confirmed)) = [(100 # 45000) * 45000]%Q.
Proof. vm_compute. auto. Qed.

Example median_of_three :
  fetchBtcPriceInternal example_parseFloat
    [Extracted (Some "45000"); Extracted (Some "45100"); Extracted (Some "44900")]
  = Ok 45000%Q.
Proof. reflexivity. Qed.

Example median_of_two :
  fetchBtcPriceInternal example_parseFloat
    [Extracted (Some "45000"); ResponseNotOk; Extracted (Some "45100"); Extracted (Some "")]
  = Ok (90100 # 2)%Q.
Proof. reflexivity. Qed.

Example no_source_answers :
  fetchBtcPriceInternal example_parseFloat [RequestThrew; ResponseNotOk; Extracted None]
  = Throw NoPriceFromAnyExchange.
Proof. reflexivity. Qed.

Example donation_bounds :
  validateDonationAmount 1 = Ok tt /\ validateDonationAmount (99 # 100) = Throw AmountTooSmall /\
  validateDonationAmount 100000 = Ok tt /\ validateDonationAmount 100001 = Throw AmountTooLarge.
Proof. repeat split. Qed.

Example address_shape :
  validateBitcoinAddress address0 mainnet = Ok tt /\
  validateBitcoinAddress address0 testnet = Throw InvalidAddressPrefix /\
  validateBitcoinAddress "bc1qshort" mainnet = Throw InvalidAddressLength /\
  validateBitcoinAddress "bc1qw508d6qejxtdg4y5r3zarvary0c5xw7kv8f3tb" mainnet
    = Throw InvalidBech32Characters.
Proof. repeat split. Qed.

(** ** Witnesses *)

Lemma donation_ledger_one_row_per_address_witness :
  exists d' row,
    donation_calls address0 [(100%Q, "Anonymous", None); (101%Q, "Ann", Some "thanks")]
      empty_db
    = (true :: repeat false (2 - 1), d') /\
    donations d' = donations empty_db ++ [row] /\
    Donation.payment_id row = address0 /\
    List.length (filter (by_payment_id address0) (donations d')) = 1%nat.
Proof.
  apply (proj2 (proj2 (proj2 (proj2
           (donation_ledger_one_row_per_address
              mainnet example_key example_derive example_Number))))).
  - intros x [].
  - discriminate.
Defined.


Definition example_generate :=
  generateBitcoinAddress mainnet example_key example_derive example_Number.






Lemma attach_tx_effect_witness :
  updatePendingPaymentWithTx 20000 address0 "abc" (db world_generated)
  = (patch_pending (Pending._id row_generated) (Pending.with_tx "abc" 20000 pending)
       (db world_generated),
     Ok (Some (Pending._id row_generated))).
Proof.
  apply (proj1 (attach_tx_effect 20000 address0 "abc" (db world_generated) row_generated
                  ltac:(reflexivity))).
  left. reflexivity.
Defined.


Lemma existing_session_ignores_status_witness :
  example_generate (mkEnv 700000 true (Some 45100%Q) Probe.no_payment) 100 "s1" None
    world_marked_expired
  = (after_limiter_and_price "s1" world_marked_expired,
     Ok (mkGenerated address0 (100 / 45100) 100 45100 0)).
Proof.
  apply (proj2 (proj2 (proj2 (existing_session_ignores_status
                                mainnet example_key example_derive example_Number))
                  (mkEnv 700000 true (Some 45100%Q) Probe.no_payment)
                  100%Q "s1" None world_generated row_generated 45100%Q
                  ltac:(repeat split) ltac:(reflexivity) ltac:(reflexivity)
                  ltac:(reflexivity) ltac:(reflexivity) ltac:(reflexivity)
                  ltac:(reflexivity))).
Defined.

(** ** Counterexamples *)


(** Against C8 as stated: AttachTx on a row that is already [pending] with
    the same transaction id moves [detected_at]. *)
Lemma attach_same_tx_counterexample :
  let d := fst (updatePendingPaymentWithTx 10000 address0 "abc" (db world_generated)) in
  let d' := fst (updatePendingPaymentWithTx 20000 address0 "abc" d) in
  map Pending.status (pending_bitcoin_payments d) = [pending] /\
  map Pending.txid (pending_bitcoin_payments d) = [Some "abc"] /\
  map Pending.detected_at (pending_bitcoin_payments d) = [Some 10000] /\
  map Pending.detected_at (pending_bitcoin_payments d') = [Some 20000] /\
  pending_bitcoin_payments d' <> pending_bitcoin_payments d.
Proof. vm_compute. repeat split. discriminate. Qed.



(** ** Further examples and witnesses *)

(** The monitor job GenerateAddress scheduled for [address0]. *)
Definition args0 : MonitorArgs := mkMonitorArgs address0 (100 # 45000) 0.

(** A moment with the limiter open, a price of 45000 and nothing on the
    chain yet. *)
Definition env_quiet (t : Z) : Env := mkEnv t true (Some 45000%Q) Probe.no_payment.

(** Explorers that do not answer at all. *)
Definition web_down : Explorer.Web :=
  Explorer.mkWeb (fun _ => Explorer.Failed) (fun _ => Explorer.Failed)
                 (fun _ => Explorer.Failed) (fun _ => Explorer.Failed)
                 (fun _ => Explorer.Failed).

(** Mempool.space knows one transaction paying 10000 satoshis to
    [address0], mined at height 100, the tip being at 102; Blockstream is
    down. *)
Definition web_paid : Explorer.Web :=
  Explorer.mkWeb
    (fun _ => Explorer.Response 200
                (Some (Explorer.mkMempoolAddress (Explorer.mkStats 10000 1)
                                                 (Explorer.mkStats 0 0))))
    (fun _ => Explorer.Response 200
                (Some [Explorer.mkMempoolTx "tx1"
                         (Explorer.mkTransactionStatus true (Some 100))
                         [Explorer.mkVout (Some address0) 10000;
                          Explorer.mkVout (Some "bc1qchange") 5000]]))
    (fun _ => Explorer.Failed) (fun _ => Explorer.Failed)
    (fun _ => Explorer.Response 200 (Some 102)).

Example probe_of_a_mined_payment :
  Explorer.checkBlockchainPayment mainnet web_paid address0 []
  = (["https://mempool.space/api/address/bc1qw508d6qejxtdg4y5r3zarvary0c5xw7kv8f3t4";
      "https://mempool.space/api/address/bc1qw508d6qejxtdg4y5r3zarvary0c5xw7kv8f3t4/txs";
      "https://mempool.space/api/blocks/tip/height"],
     Probe.paid "tx1" (inject_Z 10000 / satoshiToBtc) 3).
Proof. reflexivity. Qed.

Example probe_on_testnet_stops_at_mempool :
  Explorer.checkBlockchainPayment testnet web_down "tb1qexample" []
  = (["https://mempool.space/testnet4/api/address/tb1qexample"], Probe.api_failed) /\
  Explorer.checkBlockchainPayment mainnet web_down address0 []
  = (["https://mempool.space/api/address/bc1qw508d6qejxtdg4y5r3zarvary0c5xw7kv8f3t4";
      "https://blockstream.info/api/address/bc1qw508d6qejxtdg4y5r3zarvary0c5xw7kv8f3t4"],
     Probe.api_failed).
Proof. split; reflexivity. Qed.

Example audit_line_of_a_new_address :
  Logger.audit 0 "bitcoin_monitoring_started" (Some [("derivation_index", 7); ("job_id", 3)])
  = Logger.mkAuditLine "audit" "bitcoin_monitoring_started" (Some [("job_id", 3)]) 0.
Proof. reflexivity. Qed.

(** A completed checkout as Stripe delivers it, and a signature check that
    accepts the signature "good" only. *)
Definition checkout_event : Stripe.Event :=
  Stripe.mkEvent "checkout.session.completed"
    (Stripe.mkSession "cs_1" (Some "Ann Donor") (Some 2500) (Some "annie") (Some "true")
                      (Some "gl hf")).

Definition example_constructEvent (payload signature : string) : option Stripe.Event :=
  if String.eqb signature "good" then Some checkout_event else None.

Example stripe_delivery :
  map (fun x => (Donation.payment_id x, Donation.display_name x, Donation.payment_method x))
      (donations (fst (handleStripeWebhook example_constructEvent "good" "{}" empty_db)))
  = [("cs_1", "annie", stripe)] /\
  handleStripeWebhook example_constructEvent "forged" "{}" empty_db
  = (empty_db, Stripe.InvalidSignature).
Proof. split; reflexivity. Qed.


(** *** Witnesses of the further properties *)

Lemma check_payment_refused_before_any_call_witness :
  checkBitcoinPayment mainnet (env_quiet 1000) address0 "s2" None None world_generated
  = (world_generated, Throw (FailedToCheck SessionDoesNotOwn)).
Proof.
  apply (proj1 (proj2 (check_payment_refused_before_any_call mainnet (env_quiet 1000) address0
                         "s2" None None world_generated))); reflexivity.
Defined.

Lemma check_payment_reports_without_settling_witness :
  let env := mkEnv 1000 true (Some 45000%Q) (Probe.pending "abc" (100 # 45000) 0) in
  db (fst (checkBitcoinPayment mainnet env address0 "s1" None None world_generated))
  = db world_generated /\
  scheduler (fst (checkBitcoinPayment mainnet env address0 "s1" None None world_generated))
  = scheduler world_generated.
Proof.
  intros env.
  destruct (check_payment_reports_without_settling mainnet env address0 "s1" None None
              world_generated eq_refl) as (D & S & _).
  split; [exact D | exact S].
Defined.

Lemma monitor_job_lifecycle_witness :
  scheduler (fst (monitorSinglePayment mainnet (env_quiet 10000) args0 world_generated))
  = scheduler world_generated ++ [mkJob 1 20000 args0].
Proof.
  destruct (proj2 (proj2 (monitor_job_lifecycle mainnet (env_quiet 10000) args0 world_generated))
              row_generated) as (_ & _ & H);
    [reflexivity | left; reflexivity | vm_compute; discriminate | ].
  exact (proj1 H).
Defined.


Lemma cleanup_is_one_pass_witness :
  pending_bitcoin_payments
    (fst (cleanupExpiredPendingPayments 90000000 (db world_generated)))
  = [Pending.with_status expired row_generated].
Proof.
  destruct (proj1 (cleanup_is_one_pass mainnet example_key example_derive example_Number
                     90000000) (db world_generated)) as (H & _).
  - repeat constructor. intros [].
  - rewrite H. reflexivity.
Defined.

Lemma cleanup_twice_is_cleanup_once_witness :
  let d1 := fst (cleanupExpiredPendingPayments 90000000 (db world_confirmed)) in
  cleanupExpiredPendingPayments 90000000 d1 = (d1, Ok (mkCounts 0 0 0 0)).
Proof.
  apply (cleanup_twice_is_cleanup_once 90000000 (db world_confirmed)).
  repeat constructor. intros [].
Defined.

Lemma status_never_moves_back_witness :
  (rank (Pending.status row_generated)
   <= rank (Pending.status (nth 0 (pending_rows world_confirmed) row_generated)))%nat.
Proof.
  apply (status_never_moves_back mainnet example_key example_derive example_Number
           [(mkEnv 0 true (Some 45000%Q) Probe.no_payment, GenerateAddress 100 "s1" None)]
           [(mkEnv 30000 true None probe_paid_in_full,
             Monitor (mkMonitorArgs address0 (100 # 45000) 0))]).
  - left. reflexivity.
  - left. reflexivity.
  - reflexivity.
Defined.

Lemma mark_expired_ends_monitoring_witness :
  monitorSinglePayment mainnet (env_quiet 700000) args0 world_marked_expired
  = (world_marked_expired, Ok tt).
Proof.
  destruct (proj2 (proj2 (proj2 (mark_expired_ends_monitoring mainnet (env_quiet 700000)
                                   address0 "s1" world_generated)))
              row_generated args0) as (_ & _ & H);
    [reflexivity | reflexivity | reflexivity | reflexivity | ].
  exact H.
Defined.

Lemma pending_row_read_by_owner_only_witness :
  snd (getPendingPaymentByAddress address0 "s2" (db world_generated)) = Throw SessionDoesNotOwn.
Proof.
  apply (proj1 (proj2 (proj2 (pending_row_read_by_owner_only address0 "s2"
                                (db world_generated)))) row_generated).
  - reflexivity.
  - discriminate.
Defined.

Lemma generate_opens_row_and_job_witness :
  snd (generateBitcoinAddress mainnet example_key example_derive example_Number
         (env_quiet 0) 100 "s1" None empty_world)
  = Ok (mkGenerated address0 (100 / 45000) 100 45000 0) /\
  snd (validateSessionOwnsAddress 86399999 "s1" address0 (db world_generated)) = Ok true.
Proof.
  destruct (generate_opens_row_and_job mainnet example_key example_derive example_Number
              (env_quiet 0) 100 "s1" None empty_world 45000 address0)
    as (R & _ & _ & _ & _ & V).
  - split; [constructor | intros r []].
  - vm_compute. intuition discriminate.
  - reflexivity.
  - reflexivity.
  - reflexivity.
  - reflexivity.
  - reflexivity.
  - split; [exact R | ]. apply (V 86399999). reflexivity.
Defined.


Lemma pending_payments_are_the_open_rows_witness :
  exists rows,
    getPendingPayments (db world_generated) = (db world_generated, Ok rows) /\
    In row_generated rows.
Proof.
  destruct (pending_payments_are_the_open_rows (db world_generated))
    as (rows & R & _ & _ & O & _).
  exists rows. split; [exact R | ].
  apply O. split; left; reflexivity.
Defined.

Lemma probe_asks_mempool_first_witness :
  snd (Explorer.checkBlockchainPayment mainnet web_paid address0 [])
  = Probe.paid "tx1" (inject_Z 10000 / satoshiToBtc) 3.
Proof.
  apply (proj1 (proj2 (probe_asks_mempool_first web_paid address0 []))).
  reflexivity.
Defined.



Lemma audit_log_has_no_sensitive_field_witness :
  Logger.has_field "session_id"
    (Logger.sanitizeForLogging [("session_id", 7); ("amount_usd", 100)]) = false /\
  In ("amount_usd", 100)
     (Logger.sanitizeForLogging [("session_id", 7); ("amount_usd", 100)]).
Proof.
  destruct (audit_log_has_no_sensitive_field [("session_id", 7); ("amount_usd", 100)])
    as (_ & S & K & _).
  split.
  - apply S. vm_compute. tauto.
  - apply K; [reflexivity | right; left; reflexivity].
Defined.

Lemma address_accepted_for_one_network_witness :
  validateBitcoinAddress address0 testnet = Throw InvalidAddressPrefix.
Proof.
  apply (proj1 (address_accepted_for_one_network address0)). reflexivity.
Defined.

Lemma expiry_instant_witness :
  checkBitcoinPayment mainnet (env_quiet 86400000) address0 "s1" None None world_generated
  = (world_generated, Throw (FailedToCheck SessionExpired)) /\
  trace (fst (monitorSinglePayment mainnet (env_quiet 86400000) args0 world_generated))
  = trace world_generated ++ [ProbeCall address0].
Proof.
  destruct (expiry_instant mainnet (env_quiet 86400000) args0 world_generated row_generated)
    as (C & _ & M & _); [reflexivity | reflexivity | reflexivity | ].
  split; [apply (C None None); reflexivity | exact M].
Defined.

Lemma ledger_total_counts_a_payment_once_witness :
  ledger_total (fst (createDonationFromPayment address0 250 "Anonymous" None
                       (db world_confirmed)))
  = ledger_total (db world_confirmed).
Proof.
  destruct (proj1 (proj2 (ledger_total_counts_a_payment_once (db world_confirmed)))
              address0 250%Q "Anonymous" None) as (_ & H).
  apply (H (nth 0 (donations (db world_confirmed))
              (Donation.mk 0 0 "" "" bitcoin None))).
  reflexivity.
Defined.


Lemma payment_id_mapping_round_trip_witness :
  snd (getPaymentIdMapping "ORDER-1"
         (fst (storePaymentIdMapping 1000 "ORDER-1" "CAPTURE-9" empty_mappings)))
  = Ok (Some "CAPTURE-9").
Proof.
  apply (proj1 (proj2 (payment_id_mapping_round_trip 1000 "ORDER-1" "CAPTURE-9"
                         empty_mappings))).
  reflexivity.
Defined.

Lemma mapping_cleanup_drops_the_old_witness :
  let ops := [StoreMapping 0 "ORDER-1" "CAPTURE-9"; StoreMapping 700000000 "ORDER-2" "CAPTURE-3"] in
  let d := fold_left run_mapping ops empty_mappings in
  snd (cleanupOldPaymentIdMappings 800000000 d) = Ok 1%nat /\
  snd (getPaymentIdMapping "ORDER-2" (fst (cleanupOldPaymentIdMappings 800000000 d)))
  = Ok (Some "CAPTURE-3").
Proof.
  intros ops d.
  destruct (mapping_cleanup_drops_the_old ops 800000000) as (_ & N & K).
  split; [exact N | ].
  apply (K "ORDER-2" (Mapping.mk 1 700000000 "ORDER-2" "CAPTURE-3")).
  - reflexivity.
  - vm_compute. discriminate.
Defined.

Lemma monitor_publishes_validated_names_witness :
  presentable (Pending.metadata row_generated).
Proof.
  apply (proj1 (monitor_publishes_validated_names mainnet example_key example_derive
                  example_Number
                  [(mkEnv 0 true (Some 45000%Q) Probe.no_payment,
                    GenerateAddress 100 "s1" None)])).
  left. reflexivity.
Defined.

Lemma monitor_jobs_do_not_multiply_witness :
  exists added,
    scheduler (run mainnet example_key example_derive example_Number (env_quiet 10000)
                 (Monitor args0) world_generated)
    = scheduler world_generated ++ added /\
    Forall (fun j => job_args j = args0) added.
Proof.
  destruct (monitor_jobs_do_not_multiply mainnet example_key example_derive example_Number
              (env_quiet 10000) (Monitor args0) world_generated) as (added & E & _ & _ & A).
  exists added. split; [exact E | ].
  apply A. intros ->. discriminate E.
Defined.

Lemma stripe_webhook_records_a_checkout_once_witness :
  let d := fst (handleStripeWebhook example_constructEvent "good" "{}" empty_db) in
  handleStripeWebhook example_constructEvent "good" "{}" d = (d, Stripe.Received) /\
  handleStripeWebhook example_constructEvent "forged" "{}" d = (d, Stripe.InvalidSignature).
Proof.
  intros d. split.
  - destruct (proj2 (proj2 (stripe_webhook_records_a_checkout_once example_constructEvent
                              "good" "{}" empty_db)) checkout_event) as (_ & H & _);
      [reflexivity | reflexivity | reflexivity | exact H].
  - apply (proj1 (stripe_webhook_records_a_checkout_once example_constructEvent
                    "forged" "{}" d)).
    reflexivity.
Defined.
